(** * The data cleaner of the board agent (src/lib/dataCleaner.js)

    A shallow embedding of the module: [cleanBoardData] with [cleanValue],
    [normalizeDate] and [normalizeNumber], and [dataToContext] with [findCol],
    [groupBy], [sumField], [formatNum] and its three summary builders,
    followed by the properties the specification states about them, and by
    further properties of these functions.  The client that fetches the
    snapshots the cleaner is given ([fetchBoardData] of src/lib/monday.js)
    is embedded in the module [Monday].

    Conventions of the embedding.
    - A JavaScript string is a [string] holding its UTF-8 bytes.  Every
      pattern the source looks for (digits, separators, the keywords, the
      underscore) is ASCII, and the few non-ASCII characters that matter
      (the rupee sign, Unicode white space, the two letters whose lower case
      is ASCII) are recognised by their byte sequences.
    - A JavaScript number is an IEEE 754 binary64 value, [spec_float] with
      precision 53 and maximal exponent 1024; counters that only ever hold
      array lengths are [nat].
    - A plain object used as a dictionary is an ordered property list
      ([JsObject.t]) of its own properties.  The members every such object
      inherits from [Object.prototype] ([constructor], [toString],
      [__proto__], ...) are modelled where [dataToContext] and its helpers
      read a property: [groupBy] throws when a grouping value is the name of
      one, and a row that lacks a column of such a name shows the text of
      the member, which depends on the engine and is a parameter.
      [cleanBoardData] is embedded for boards whose column ids, field ids
      and titles are none of those names.
    - A call that raises a [TypeError] returns [Thrown].
    - [String.prototype.localeCompare], which depends on the locale of the
      engine, is a parameter of [dataToContext]. *)

From Stdlib Require Import String Ascii List ZArith NArith Lia Bool Arith.
From Stdlib Require Import DecimalString DecimalPos.
From Stdlib Require Import Floats.SpecFloat.
From Stdlib Require Import Sorting.Permutation Sorting.Sorted.
Import ListNotations.

(** ** Strings *)

Module JsString.

Definition code (c : ascii) : N := N_of_ascii c.

Definition isDigit (c : ascii) : bool :=
  ((48 <=? code c) && (code c <=? 57))%N.

Definition str1 (n : N) : string := String (ascii_of_N n) EmptyString.

(** The double quote, as a one-character string. *)
Definition dquote : string := str1 34.

(** [wsWidth s]: the number of bytes of the white-space or line-terminator
    character [s] starts with, 0 when it starts with none.  The characters
    are those of [String.prototype.trim], of the class [\s] and of
    [parseFloat]: TAB, LF, VT, FF, CR, SP, U+00A0, U+1680, U+2000..U+200A,
    U+2028, U+2029, U+202F, U+205F, U+3000 and U+FEFF. *)
Definition wsWidth (s : string) : nat :=
  match s with
  | EmptyString => 0
  | String a r =>
    let a := code a in
    if ((a =? 9) || (a =? 10) || (a =? 11) || (a =? 12) || (a =? 13)
        || (a =? 32))%N then 1
    else
      match r with
      | EmptyString => 0
      | String b r' =>
        let b := code b in
        if ((a =? 194) && (b =? 160))%N then 2
        else
          match r' with
          | EmptyString => 0
          | String c _ =>
            let c := code c in
            if ((a =? 225) && (b =? 154) && (c =? 128))%N then 3
            else if ((a =? 226) && (b =? 128)
                     && (((128 <=? c) && (c <=? 138)) || (c =? 168)
                         || (c =? 169) || (c =? 175)))%N then 3
            else if ((a =? 226) && (b =? 129) && (c =? 159))%N then 3
            else if ((a =? 227) && (b =? 128) && (c =? 128))%N then 3
            else if ((a =? 239) && (b =? 187) && (c =? 191))%N then 3
            else 0
          end
      end
  end.

(** [trimStart_go skip s]: [skip] bytes of [s] still belong to a white-space
    character that is being dropped. *)
Fixpoint trimStart_go (skip : nat) (s : string) : string :=
  match s with
  | EmptyString => EmptyString
  | String _ r =>
    match skip with
    | S k => trimStart_go k r
    | O =>
      match wsWidth s with
      | O => s
      | S k => trimStart_go k r
      end
    end
  end.

Definition trimStart (s : string) : string := trimStart_go 0 s.

Fixpoint trimEnd_go (skip : nat) (s : string) : string :=
  match s with
  | EmptyString => EmptyString
  | String c r =>
    match skip with
    | S k =>
      match trimEnd_go k r with
      | EmptyString => EmptyString
      | t => String c t
      end
    | O =>
      match wsWidth s with
      | O => String c (trimEnd_go 0 r)
      | S k =>
        match trimEnd_go k r with
        | EmptyString => EmptyString
        | t => String c t
        end
      end
    end
  end.

Definition trimEnd (s : string) : string := trimEnd_go 0 s.

(** [String.prototype.trim]. *)
Definition trim (s : string) : string := trimEnd (trimStart s).

(** [dropMatching width skip s] removes from [s] every character that
    [width] recognises: [s.replace(/[...]/g, '')] for a character class. *)
Fixpoint dropMatching (width : string -> nat) (skip : nat) (s : string)
  : string :=
  match s with
  | EmptyString => EmptyString
  | String c r =>
    match skip with
    | S k => dropMatching width k r
    | O =>
      match width s with
      | O => String c (dropMatching width 0 r)
      | S k => dropMatching width k r
      end
    end
  end.

(** [String.prototype.toLowerCase], exact on every ASCII byte of its
    result: the letters A-Z, the Kelvin sign U+212A (lower case [k]) and
    U+0130 (lower case [i] followed by U+0307) are the only characters whose
    lower case contains an ASCII letter.  Other non-ASCII characters are
    left as they are; the callers only search the result for ASCII
    keywords. *)
Fixpoint toLowerCase (s : string) : string :=
  match s with
  | EmptyString => EmptyString
  | String a r =>
    let n := code a in
    if ((65 <=? n) && (n <=? 90))%N
    then String (ascii_of_N (n + 32)) (toLowerCase r)
    else
      match r with
      | String b r' =>
        if ((n =? 196) && (code b =? 176))%N
        then String (ascii_of_N 105)
               (String (ascii_of_N 204)
                  (String (ascii_of_N 135) (toLowerCase r')))
        else
          match r' with
          | String c r'' =>
            if ((n =? 226) && (code b =? 132) && (code c =? 170))%N
            then String (ascii_of_N 107) (toLowerCase r'')
            else String a (toLowerCase r)
          | EmptyString => String a (toLowerCase r)
          end
      | EmptyString => String a EmptyString
      end
  end.

(** [s.startsWith(p)]. *)
Definition startsWith (s p : string) : bool := String.prefix p s.

(** [s.includes(p)]. *)
Fixpoint includes (s p : string) : bool :=
  String.prefix p s
  || match s with
     | EmptyString => false
     | String _ r => includes r p
     end.

Fixpoint repeatStr (fill : string) (n : nat) : string :=
  match n with
  | O => EmptyString
  | S k => append fill (repeatStr fill k)
  end.

(** [s.padStart(n, c)] for a one-character filler [c]. *)
Definition padStart (s : string) (n : nat) (fill : string) : string :=
  append (repeatStr fill (n - String.length s)) s.

(** [s.substring(0, n)]. *)
Definition substring0 (s : string) (n : nat) : string :=
  String.substring 0 n s.

(** The longest prefix of decimal digits, and what follows it. *)
Fixpoint spanDigits (s : string) : string * string :=
  match s with
  | EmptyString => (EmptyString, EmptyString)
  | String c r =>
    if isDigit c
    then let '(d, rest) := spanDigits r in (String c d, rest)
    else (EmptyString, s)
  end.

Fixpoint digitsValue_go (acc : Z) (s : string) : Z :=
  match s with
  | EmptyString => acc
  | String c r => digitsValue_go (10 * acc + (Z.of_N (code c) - 48)) r
  end.

(** The number a string of decimal digits denotes. *)
Definition digitsValue (s : string) : Z := digitsValue_go 0 s.

(** Decimal numeral of a natural number, as [String(n)] prints it. *)
Definition showN (n : N) : string := NilEmpty.string_of_uint (N.to_uint n).
Definition showNat (n : nat) : string := showN (N.of_nat n).

(** [parts.join(sep)]. *)
Fixpoint join (sep : string) (parts : list string) : string :=
  match parts with
  | [] => EmptyString
  | [p] => p
  | p :: rest => append p (append sep (join sep rest))
  end.

End JsString.

(** ** Numbers *)

Module JsNumber.
Import JsString.
Local Open Scope Z_scope.

(** binary64 *)
Definition prec : Z := 53.
Definition emax : Z := 1024.

Definition number : Type := spec_float.

Definition NaN : number := S754_nan.
Definition zero : number := S754_zero false.

Definition isNaN (x : number) : bool :=
  match x with
  | S754_nan => true
  | _ => false
  end.

(** The number an integer literal or an array length denotes. *)
Definition ofZ (z : Z) : number := binary_normalize prec emax z 0 false.
Definition ofNat (n : nat) : number := ofZ (Z.of_nat n).

Definition add : number -> number -> number := SFadd prec emax.
Definition sub : number -> number -> number := SFsub prec emax.
Definition mul : number -> number -> number := SFmul prec emax.
Definition div : number -> number -> number := SFdiv prec emax.

(** [x || 0] for a number [x]: NaN, +0 and -0 are falsy. *)
Definition orZero (x : number) : number :=
  match x with
  | S754_nan | S754_zero _ => zero
  | _ => x
  end.

(** [x > 0]; false of NaN. *)
Definition isPositive (x : number) : bool :=
  match x with
  | S754_finite false _ _ | S754_infinity false => true
  | _ => false
  end.

Definition sameNumber (x y : number) : bool :=
  match x, y with
  | S754_zero a, S754_zero b => Bool.eqb a b
  | S754_infinity a, S754_infinity b => Bool.eqb a b
  | S754_nan, S754_nan => true
  | S754_finite a m e, S754_finite b m' e' =>
    Bool.eqb a b && Pos.eqb m m' && Z.eqb e e'
  | _, _ => false
  end.

(** [m * 10 ^ e10], rounded to the nearest binary64 (ties to even). *)
Definition ofDecimal (m : positive) (e10 : Z) : number :=
  if 0 <=? e10
  then binary_normalize prec emax (Zpos m * 10 ^ e10) 0 false
  else SFdiv prec emax (S754_finite false m 0)
                       (S754_finite false (Z.to_pos (10 ^ (- e10))) 0).

(** The value [m * 2 ^ e] of a finite number as a fraction. *)
Definition fraction (m : positive) (e : Z) : Z * Z :=
  if 0 <=? e then (Zpos m * 2 ^ e, 1) else (Zpos m, 2 ^ (- e)).

(** *** parseFloat *)

Definition signOf (s : string) : bool * string :=
  match s with
  | String c r =>
    if (code c =? 45)%N then (true, r)
    else if (code c =? 43)%N then (false, r)
    else (false, s)
  | EmptyString => (false, s)
  end.

(** The exponent part [e[+-]digits], when there is a well-formed one. *)
Definition exponentOf (s : string) : Z :=
  match s with
  | String c r =>
    if ((code c =? 101) || (code c =? 69))%N
    then
      let '(neg, r') := signOf r in
      let '(ds, _) := spanDigits r' in
      match ds with
      | EmptyString => 0
      | _ => if neg then - digitsValue ds else digitsValue ds
      end
    else 0
  | EmptyString => 0
  end.

(** [parseFloat(input)]: leading white space is skipped, the longest
    prefix that is a decimal literal is read, what follows is ignored;
    [NaN] when no prefix is one. *)
Definition parseFloat (input : string) : number :=
  let '(neg, s) := signOf (trimStart input) in
  if String.prefix "Infinity" s then S754_infinity neg
  else
    let '(ip, s1) := spanDigits s in
    let '(fp, s2) :=
      match s1 with
      | String c r =>
        if (code c =? 46)%N then spanDigits r else (EmptyString, s1)
      | EmptyString => (EmptyString, s1)
      end in
    match append ip fp with
    | EmptyString => NaN
    | ds =>
      match digitsValue ds with
      | Zpos m =>
        let x := ofDecimal m (exponentOf s2 - Z.of_nat (String.length fp)) in
        if neg then SFopp x else x
      | _ => S754_zero neg
      end
    end.

(** *** Number.prototype.toString *)

Definition showZ (z : Z) : string := showN (Z.to_N z).

Fixpoint searchUp (fuel : nat) (n vn bound : Z) : Z :=
  match fuel with
  | O => n
  | S f => if vn <? bound then n else searchUp f (n + 1) vn (bound * 10)
  end.

Fixpoint searchDown (fuel : nat) (j scaled vd : Z) : Z :=
  match fuel with
  | O => j
  | S f => if vd <=? scaled then j else searchDown f (j + 1) (scaled * 10) vd
  end.

(** The [n] with [10 ^ (n - 1) <= vn / vd < 10 ^ n]; binary64 values lie
    between [10 ^ -324] and [10 ^ 309]. *)
Definition decimalMagnitude (vn vd : Z) : Z :=
  if vd <=? vn then searchUp 400 1 vn (vd * 10)
  else 1 - searchDown 400 1 (vn * 10) vd.

Definition readsBack (x : number) (s q : Z) : bool :=
  match s with
  | Zpos p => sameNumber (ofDecimal p q) x
  | _ => false
  end.

(** The shortest digit string [s] (of [k] digits, [k] as small as possible)
    and exponent [n] with [s * 10 ^ (n - k)] reading back as [x]; the
    closest to [x] when two have that length, the even one on a tie. *)
Fixpoint shortest (fuel : nat) (k : Z) (x : number) (vn vd n : Z) : Z * Z :=
  match fuel with
  | O => (0, n)
  | S f =>
    let q := n - k in
    let '(num, unit) :=
      if 0 <=? q then (vn, vd * 10 ^ q) else (vn * 10 ^ (- q), vd) in
    let lo := num / unit in
    let r := num mod unit in
    let hi := lo + 1 in
    let okLo := readsBack x lo q in
    let okHi := readsBack x hi q in
    let pick :=
      if okLo && okHi
      then if 2 * r <? unit then lo
           else if unit <? 2 * r then hi
           else if Z.even lo then lo else hi
      else if okLo then lo
      else if okHi then hi
      else 0 in
    if pick =? 0 then shortest f (k + 1) x vn vd n
    else if pick =? 10 ^ k then (10 ^ (k - 1), n + 1)
    else (pick, n)
  end.

Definition formatShortest (ds : string) (n : Z) : string :=
  let k := Z.of_nat (String.length ds) in
  if (k <=? n) && (n <=? 21)
  then append ds (repeatStr "0" (Z.to_nat (n - k)))
  else if (0 <? n) && (n <=? 21)
  then append (String.substring 0 (Z.to_nat n) ds)
         (append "." (String.substring (Z.to_nat n) (Z.to_nat (k - n)) ds))
  else if (-6 <? n) && (n <=? 0)
  then append "0." (append (repeatStr "0" (Z.to_nat (- n))) ds)
  else
    let e := n - 1 in
    let es := append (if 0 <=? e then "e+" else "e-") (showZ (Z.abs e)) in
    match ds with
    | String d EmptyString => String d es
    | String d rest => String d (append "." (append rest es))
    | EmptyString => es
    end.

(** [x.toString()] *)
Definition toString (x : number) : string :=
  match x with
  | S754_nan => "NaN"
  | S754_zero _ => "0"
  | S754_infinity s => if s then "-Infinity" else "Infinity"
  | S754_finite s m e =>
    let '(vn, vd) := fraction m e in
    let '(digits, n) :=
      shortest 17 1 (S754_finite false m e) vn vd (decimalMagnitude vn vd) in
    append (if s then "-" else EmptyString)
      (formatShortest (showZ digits) n)
  end.

(** *** Number.prototype.toFixed *)

Definition fixedDigits (n : Z) (f : nat) : string :=
  match f with
  | O => showZ n
  | _ =>
    let ds := padStart (showZ n) (S f) "0" in
    let k := String.length ds in
    append (String.substring 0 (k - f) ds)
      (append "." (String.substring (k - f) f ds))
  end.

(** [x.toFixed(f)]: the integer nearest to [x * 10 ^ f], the larger one on
    a tie, printed with [f] decimals; [x.toString()] from [10 ^ 21] on. *)
Definition toFixed (x : number) (f : nat) : string :=
  match x with
  | S754_nan => "NaN"
  | S754_infinity _ => toString x
  | S754_zero _ => fixedDigits 0 f
  | S754_finite s m e =>
    let '(vn, vd) := fraction m e in
    if 10 ^ 21 * vd <=? vn then toString x
    else
      let n := (2 * vn * 10 ^ Z.of_nat f + vd) / (2 * vd) in
      append (if s then "-" else EmptyString) (fixedDigits n f)
  end.

(** *** Comparison with an integer constant *)

Definition compareZ (x : number) (z : Z) : option comparison :=
  match x with
  | S754_nan => None
  | S754_zero _ => Some (0 ?= z)
  | S754_infinity s => Some (if s then Lt else Gt)
  | S754_finite s m e =>
    let '(vn, vd) := fraction m e in
    Some ((if s then - vn else vn) ?= z * vd)
  end.

(** [x > z] *)
Definition gtZ (x : number) (z : Z) : bool :=
  match compareZ x z with
  | Some Gt => true
  | _ => false
  end.

(** [x >= z] *)
Definition geZ (x : number) (z : Z) : bool :=
  match compareZ x z with
  | Some Gt | Some Eq => true
  | _ => false
  end.

End JsNumber.

(** ** Plain objects used as dictionaries *)

Module JsObject.
Import JsString.

Section Properties.
Context {V : Type}.

(** Own properties, in creation order. *)
Definition t : Type := list (string * V).

Definition empty : t := [].

(** [o[k]]; [None] is [undefined]. *)
Fixpoint get (o : t) (k : string) : option V :=
  match o with
  | [] => None
  | (k', v) :: rest => if String.eqb k' k then Some v else get rest k
  end.

(** [o[k] = v]: an existing property keeps its place. *)
Fixpoint set (o : t) (k : string) (v : V) : t :=
  match o with
  | [] => [(k, v)]
  | (k', v') :: rest =>
    if String.eqb k' k then (k', v) :: rest else (k', v') :: set rest k v
  end.

(** An array index: the canonical numeral of an integer below 2^32 - 1. *)
Definition arrayIndex (k : string) : option N :=
  match k with
  | EmptyString => None
  | String c r =>
    if forallb isDigit (list_ascii_of_string k)
       && negb ((code c =? 48)%N && negb (String.eqb r EmptyString))
    then
      let n := Z.to_N (digitsValue k) in
      if (n <? 4294967295)%N then Some n else None
    else None
  end.

Fixpoint insertIndex (e : N * (string * V)) (l : list (N * (string * V)))
  : list (N * (string * V)) :=
  match l with
  | [] => [e]
  | e' :: rest =>
    if (fst e <? fst e')%N then e :: l else e' :: insertIndex e rest
  end.

Fixpoint indexEntries (o : t) : list (N * (string * V)) :=
  match o with
  | [] => []
  | (k, v) :: rest =>
    match arrayIndex k with
    | Some n => insertIndex (n, (k, v)) (indexEntries rest)
    | None => indexEntries rest
    end
  end.

Definition namedEntries (o : t) : list (string * V) :=
  filter (fun e => match arrayIndex (fst e) with
                   | Some _ => false
                   | None => true
                   end) o.

(** [Object.entries(o)]: array indices in ascending order, then the other
    names in creation order. *)
Definition entries (o : t) : list (string * V) :=
  map snd (indexEntries o) ++ namedEntries o.

(** [Object.keys(o)] *)
Definition keys (o : t) : list string := map fst (entries o).

End Properties.

Arguments t : clear implicits.

(** The names of the members a plain object inherits from
    [Object.prototype]. *)
Definition inheritedNames : list string :=
  ["constructor"; "hasOwnProperty"; "isPrototypeOf"; "propertyIsEnumerable";
   "toLocaleString"; "toString"; "valueOf"; "__proto__";
   "__defineGetter__"; "__defineSetter__"; "__lookupGetter__";
   "__lookupSetter__"]%string.

(** [k] names an inherited member: [o[k]] is that member, a function or
    [Object.prototype] itself, when [o] has no own property [k]. *)
Definition inherited (k : string) : bool :=
  existsb (String.eqb k) inheritedNames.

End JsObject.

(** ** The data model *)

(** A cell: [null] or a string.  [undefined] is an absent property. *)
Inductive value : Type :=
| VNull
| VStr (s : string).

Inductive error : Type :=
| TypeError.

Inductive outcome (A : Type) : Type :=
| Returned (a : A)
| Thrown (e : error).

Arguments Returned {A} a.
Arguments Thrown {A} e.

(** A call that throws ends what follows it. *)
Definition andThen {A B : Type} (x : outcome A) (f : A -> outcome B)
  : outcome B :=
  match x with
  | Returned a => f a
  | Thrown e => Thrown e
  end.

Notation "x <- e ;; k" := (andThen e (fun x => k))
  (at level 61, e at next level, right associativity).

(** [{ id, title }] of [boardData.columns]. *)
Record Column : Type := { col_id : string; col_title : string }.

(** [{ id, text }] of [item.column_values]; [text] is a string or null. *)
Record ColumnValue : Type := { cv_id : string; cv_text : value }.

Record Item : Type :=
  { item_id : string; item_name : value; column_values : list ColumnValue }.

(** The snapshot handed to [cleanBoardData]; a field that is missing from the
    object is [None]. *)
Record BoardData : Type :=
  { bd_name : option string;
    bd_columns : option (list Column);
    bd_items : option (list Item) }.

(** A flat row: [_id], [_name] and one property per column title. *)
Definition Row : Type := JsObject.t value.

Record Stats : Type :=
  { totalRows : nat;
    cleanedRows : nat;
    removedRows : nat;
    missingFields : nat;
    totalFields : nat;
    completeness : string }.

Record CleanedBoard : Type :=
  { boardName : option string;
    columns : list string;
    data : list Row;
    stats : Stats;
    qualityIssues : list string }.

(** ** cleanValue, normalizeDate, normalizeNumber *)

Import JsString JsNumber.
Local Open Scope string_scope.

(** Truthiness of what a property read gives. *)
Definition truthy (v : option value) : bool :=
  match v with
  | Some (VStr s) => negb (String.eqb s EmptyString)
  | _ => false
  end.

(** [/^\d{4}-\d{2}-\d{2}/.test(str)] *)
Definition isoPrefix (str : string) : bool :=
  match list_ascii_of_string (substring0 str 10) with
  | [y1; y2; y3; y4; h1; m1; m2; h2; d1; d2] =>
    isDigit y1 && isDigit y2 && isDigit y3 && isDigit y4
    && (code h1 =? 45)%N && isDigit m1 && isDigit m2
    && (code h2 =? 45)%N && isDigit d1 && isDigit d2
  | _ => false
  end.

(** [(\d{1,2})] at the head of [s], greedy. *)
Definition oneOrTwoDigits (s : string) : option (string * string) :=
  match s with
  | String a r =>
    if isDigit a then
      match r with
      | String b r' =>
        if isDigit b then Some (String a (String b EmptyString), r')
        else Some (String a EmptyString, r)
      | EmptyString => Some (String a EmptyString, r)
      end
    else None
  | EmptyString => None
  end.

(** [[\/\-]] *)
Definition isSeparator (c : ascii) : bool :=
  ((code c =? 47) || (code c =? 45))%N.

(** [(\d{4})$] *)
Definition fourDigitsToEnd (s : string) : bool :=
  match list_ascii_of_string s with
  | [a; b; c; d] => isDigit a && isDigit b && isDigit c && isDigit d
  | _ => false
  end.

(** [str.match(/^(\d{1,2})[\/\-](\d{1,2})[\/\-](\d{4})$/)]: the three
    groups. *)
Definition matchDMY (str : string) : option (string * string * string) :=
  match oneOrTwoDigits str with
  | Some (g1, String c1 r1) =>
    if isSeparator c1 then
      match oneOrTwoDigits r1 with
      | Some (g2, String c2 r2) =>
        if isSeparator c2 && fourDigitsToEnd r2 then Some (g1, g2, r2)
        else None
      | _ => None
      end
    else None
  | _ => None
  end.

Definition normalizeDate (str : string) : value :=
  if String.eqb str EmptyString then VNull
  else if isoPrefix str then VStr (substring0 str 10)
  else
    match matchDMY str with
    | Some (g1, g2, g3) =>
      (* the MM/DD/YYYY branch below this one in the source tests the same
         pattern and is never reached *)
      VStr (g3 ++ "-" ++ padStart g2 2 "0" ++ "-" ++ padStart g1 2 "0")
    | None => VStr str
    end.

(** The class [[₹$,\s]]: the rupee sign is the bytes E2 82 B9. *)
Definition strippedWidth (s : string) : nat :=
  match s with
  | String a (String b (String c _)) =>
    if ((code a =? 226) && (code b =? 130) && (code c =? 185))%N then 3
    else if ((code a =? 36) || (code a =? 44))%N then 1
    else wsWidth s
  | String a _ =>
    if ((code a =? 36) || (code a =? 44))%N then 1 else wsWidth s
  | EmptyString => 0
  end.

(** [str.replace(/[₹$,\s]/g, '')] *)
Definition stripped (str : string) : string :=
  dropMatching strippedWidth 0 str.

Definition normalizeNumber (str : string) : value :=
  if String.eqb str EmptyString then VNull
  else
    let cleaned := stripped str in
    let num := parseFloat cleaned in
    if isNaN num then VStr str else VStr (toString num).

Definition cleanValue (text : value) (columnTitle : string) : value :=
  match text with
  | VNull => VNull
  | VStr s =>
    if String.eqb s EmptyString then VNull
    else if String.eqb s "#VALUE!" then VNull
    else
      let t := trim s in
      if String.eqb t EmptyString then VNull
      else
        let lower := toLowerCase columnTitle in
        if includes lower "date" then normalizeDate t
        else if includes lower "amount"
                || includes lower "value"
                || includes lower "billed"
                || includes lower "collected"
                || includes lower "receivable"
        then normalizeNumber t
        else VStr t
  end.

(** ** cleanBoardData *)

(** [colMap]: column id to title, the last column of an id winning. *)
Definition buildColMap (cols : list Column) : JsObject.t string :=
  fold_left (fun colMap c => JsObject.set colMap (col_id c) (col_title c))
            cols JsObject.empty.

(** [colMap[cv.id] || cv.id] *)
Definition resolveTitle (colMap : JsObject.t string) (id : string) : string :=
  match JsObject.get colMap id with
  | Some title => if String.eqb title EmptyString then id else title
  | None => id
  end.

(** The flat object of one item (the callback of [items.map]). *)
Definition buildRow (colMap : JsObject.t string) (item : Item) : Row :=
  fold_left
    (fun row cv =>
       let title := resolveTitle colMap (cv_id cv) in
       JsObject.set row title (cleanValue (cv_text cv) title))
    (column_values item)
    [("_id", VStr (item_id item)); ("_name", item_name item)].

(** [v === null || v === '' || v === undefined] for a property that exists. *)
Definition isMissing (v : value) : bool :=
  match v with
  | VNull => true
  | VStr s => String.eqb s EmptyString
  end.

(** [Object.entries(row).filter(([k]) => !k.startsWith('_'))] *)
Definition nonIdentityEntries (row : Row) : list (string * value) :=
  filter (fun e => negb (startsWith (fst e) "_")) (JsObject.entries row).

Definition nonIdentityKeys (row : Row) : list string :=
  map fst (nonIdentityEntries row).

(** [typeof v === 'string' && v === k] *)
Definition equalsOwnTitle (e : string * value) : bool :=
  match snd e with
  | VStr s => String.eqb s (fst e)
  | VNull => false
  end.

Definition allEmpty (row : Row) : bool :=
  forallb (fun e => isMissing (snd e)) (nonIdentityEntries row).

Definition isHeader (row : Row) : bool :=
  existsb equalsOwnTitle (nonIdentityEntries row).

(** [row._name || 'empty'] *)
Definition nameOr (row : Row) (fallback : string) : string :=
  match JsObject.get row "_name" with
  | Some (VStr s) => if String.eqb s EmptyString then fallback else s
  | _ => fallback
  end.

Definition headerNote (row : Row) : string :=
  "Removed embedded header row (item: " ++ dquote ++ nameOr row "empty"
  ++ dquote ++ ")".

(** What the filter callback has written so far: [removedRows] and
    [qualityIssues]. *)
Record FilterState : Type :=
  { fs_removed : nat; fs_issues : list string }.

Inductive verdict : Type :=
| Keep
| DropEmpty
| DropHeader.

(** The decision of the filter callback on one row. *)
Definition judge (row : Row) : verdict :=
  if negb (truthy (JsObject.get row "_name")) && allEmpty row then DropEmpty
  else if isHeader row then DropHeader
  else Keep.

(** One call of the filter callback: whether the row is kept, and the
    counters after it. *)
Definition filterStep (row : Row) (st : FilterState) : bool * FilterState :=
  match judge row with
  | DropEmpty =>
    (false, {| fs_removed := S (fs_removed st); fs_issues := fs_issues st |})
  | DropHeader =>
    (false, {| fs_removed := S (fs_removed st);
               fs_issues := (fs_issues st ++ [headerNote row])%list |})
  | Keep => (true, st)
  end.

(** [rows.filter(callback)], threading the counters through the calls. *)
Fixpoint filterRows (rows : list Row) (st : FilterState)
  : list Row * FilterState :=
  match rows with
  | [] => ([], st)
  | row :: rest =>
    let '(keep, st1) := filterStep row st in
    let '(kept, st2) := filterRows rest st1 in
    (if keep then row :: kept else kept, st2)
  end.

Definition missingInRow (row : Row) : nat :=
  List.length (filter (fun e => isMissing (snd e)) (nonIdentityEntries row)).

Definition countMissing (cleaned : list Row) : nat :=
  fold_left (fun n row => n + missingInRow row) cleaned 0.

(** [((1 - missingFields / totalFields) * 100).toFixed(1)], or ['100']. *)
Definition completenessOf (missing total : nat) : string :=
  match total with
  | O => "100"
  | _ =>
    toFixed (mul (sub (ofZ 1) (div (ofNat missing) (ofNat total))) (ofZ 100)) 1
  end.

Definition removedNote (removed : nat) : string :=
  "Removed " ++ showNat removed ++ " junk/empty/header rows".

Definition missingNote (missing total : nat) : string :=
  showNat missing ++ " of " ++ showNat total
  ++ " field values are missing/null ("
  ++ toFixed (mul (div (ofNat missing) (ofNat total)) (ofZ 100)) 1 ++ "%)".

Definition cleanBoardData (boardData : BoardData) : outcome CleanedBoard :=
  match bd_columns boardData with
  | None => Thrown TypeError          (* columns.forEach of undefined *)
  | Some cols =>
    let colMap := buildColMap cols in
    match bd_items boardData with
    | None => Thrown TypeError        (* items.map of undefined *)
    | Some items =>
      let rows := map (buildRow colMap) items in
      let '(cleaned, st) :=
        filterRows rows {| fs_removed := 0; fs_issues := [] |} in
      let removed := fs_removed st in
      let total := List.length cleaned * List.length (JsObject.keys colMap) in
      let missing := countMissing cleaned in
      let issues1 :=
        if (0 <? removed)%nat
        then (fs_issues st ++ [removedNote removed])%list
        else fs_issues st in
      let issues2 :=
        if (0 <? missing)%nat
        then (issues1 ++ [missingNote missing total])%list
        else issues1 in
      Returned
        {| boardName := bd_name boardData;
           columns :=
             filter (fun t => negb (String.eqb t "Name")) (map col_title cols);
           data := cleaned;
           stats :=
             {| totalRows := List.length items;
                cleanedRows := List.length cleaned;
                removedRows := removed;
                missingFields := missing;
                totalFields := total;
                completeness := completenessOf missing total |};
           qualityIssues := issues2 |}
    end
  end.

(** ** Summaries: findCol, groupBy and the detail tables *)

(** [Array.prototype.sort] with a comparison function.  The sort is stable:
    an element moves behind another only when the comparison of the two is
    positive; a comparison that is negative, zero or NaN leaves them in
    their order. *)
Section Sort.
Context {A : Type}.
Variable compareFn : A -> A -> number.

Fixpoint sortInsert (x : A) (l : list A) : list A :=
  match l with
  | [] => [x]
  | y :: rest =>
    if isPositive (compareFn x y) then y :: sortInsert x rest else x :: l
  end.

Definition sort (l : list A) : list A := fold_right sortInsert [] l.
End Sort.

(** [keys.find(k => patterns.some(p => k.toLowerCase().includes(p))) || null] *)
Definition findCol (keys patterns : list string) : option string :=
  match find (fun k => existsb (includes (toLowerCase k)) patterns) keys with
  | Some k => if String.eqb k EmptyString then None else Some k
  | None => None
  end.

Section Members.

(** The text of the member of [Object.prototype] of a name,
    [String(o[name])]: the source text of a built-in function, which every
    engine prints in its own way, or [[object Object]] for [__proto__].  It
    is a parameter of the summaries.  No such text starts a number:
    [parseFloat] of a member is [NaN]. *)
Variable memberText : string -> string.

(** [row[key] || row._name || 'Unknown'], as the property name it is used
    as.  A member the row inherits is truthy; as a property name it is its
    text. *)
Definition groupKey (row : Row) (key : string) : string :=
  match JsObject.get row key with
  | Some (VStr s) => if String.eqb s EmptyString then nameOr row "Unknown" else s
  | Some VNull => nameOr row "Unknown"
  | None =>
    if JsObject.inherited key then memberText key else nameOr row "Unknown"
  end.

(** The callback of [data.forEach].  [groups[val]] is the array of the group
    when there is one; without one it is the inherited member of the name
    [val], which is truthy and has no [push], or it is undefined and the
    array is created. *)
Definition groupStep (key : string) (groups : JsObject.t (list Row))
           (row : Row) : outcome (JsObject.t (list Row)) :=
  let val := groupKey row key in
  match JsObject.get groups val with
  | Some rows => Returned (JsObject.set groups val (rows ++ [row])%list)
  | None =>
    if JsObject.inherited val
    then Thrown TypeError             (* groups[val].push is not a function *)
    else Returned (JsObject.set groups val [row])
  end.

Definition groupBy (data : list Row) (key : string)
  : outcome (JsObject.t (list Row)) :=
  fold_left
    (fun groups row =>
       match groups with
       | Returned groups => groupStep key groups row
       | Thrown e => Thrown e
       end)
    data (Returned JsObject.empty).

(** [row[col]] where [col] may be [null]: the property name is then the
    string ["null"]. *)
Definition readProp (row : Row) (col : option string) : option value :=
  JsObject.get row (match col with Some c => c | None => "null" end).

(** [parseFloat(v)] of a property read; [NaN] also for a member the row
    inherits. *)
Definition numberOf (v : option value) : number :=
  match v with
  | Some (VStr s) => parseFloat s
  | _ => NaN
  end.

(** [parseFloat(row[col]) || 0] *)
Definition score (col : option string) (row : Row) : number :=
  orZero (numberOf (readProp row col)).

(** [(a, b) => (parseFloat(b[col]) || 0) - (parseFloat(a[col]) || 0)] *)
Definition byValueDesc (col : option string) (a b : Row) : number :=
  sub (score col b) (score col a).

(** [[...data].sort(byValueDesc).slice(0, 20)] *)
Definition topRows (col : option string) (data : list Row) : list Row :=
  firstn 20 (sort (byValueDesc col) data).

Definition formatNum (n : number) : string :=
  if geZ n 10000000 then toFixed (div n (ofZ 10000000)) 2 ++ " Cr"
  else if geZ n 100000 then toFixed (div n (ofZ 100000)) 2 ++ " L"
  else if geZ n 1000 then toFixed (div n (ofZ 1000)) 1 ++ "K"
  else toFixed n 0.

(** [[...].filter(Boolean)] on the results of [findCol]. *)
Definition present (cols : list (option string)) : list string :=
  flat_map (fun c => match c with Some k => [k] | None => [] end) cols.

(** [Object.keys(data[0]).filter(k => !k.startsWith('_'))] *)
Definition allKeysOf (data : list Row) : list string :=
  match data with
  | [] => []
  | first :: _ =>
    filter (fun k => negb (startsWith k "_")) (JsObject.keys first)
  end.

Inductive boardKind : Type :=
| Deals
| WorkOrders
| Generic.

(** The dispatch of [dataToContext]. *)
Definition boardKindOf (allKeys : list string) : boardKind :=
  if existsb (fun k => includes (toLowerCase k) "deal"
                       || includes (toLowerCase k) "closure"
                       || includes (toLowerCase k) "deal stage") allKeys
  then Deals
  else if existsb (fun k => includes (toLowerCase k) "execution"
                            || includes (toLowerCase k) "billed"
                            || includes (toLowerCase k) "serial") allKeys
  then WorkOrders
  else Generic.

(** *** The table of buildDealsSummary *)

Definition dealsValueCol (keys : list string) : option string :=
  findCol keys ["masked deal"; "deal value"; "value"].

Definition dealsCols (keys : list string) : list string :=
  present [findCol keys ["deal status"; "status"];
           dealsValueCol keys;
           findCol keys ["sector"];
           findCol keys ["deal stage"; "stage"];
           findCol keys ["owner"];
           findCol keys ["probability"; "closure prob"]].

(** [row[c] ?? '-'], as [join] prints it: a member the row inherits is not
    nullish and is printed as its text. *)
Definition cellOrDash (row : Row) (c : string) : string :=
  match JsObject.get row c with
  | Some (VStr s) => s
  | Some VNull => "-"
  | None => if JsObject.inherited c then memberText c else "-"
  end.

Definition dealsLine (cols : list string) (row : Row) : string :=
  nameOr row "-" ++ " | " ++ join " | " (map (cellOrDash row) cols).

Definition dealsTopRows (data : list Row) (keys : list string) : list Row :=
  topRows (dealsValueCol keys) data.

(** The lines under the heading [TOP 20 DEALS BY VALUE]: the column line,
    then one line per row. *)
Definition dealsTable (data : list Row) (keys : list string) : list string :=
  ("Name | " ++ join " | " (dealsCols keys))
  :: map (dealsLine (dealsCols keys)) (dealsTopRows data keys).

(** *** The table of buildWorkOrdersSummary *)

Definition workOrdersValueCol (keys : list string) : option string :=
  findCol keys ["amount in rupees (excl"; "amount.*excl"].

Definition workOrdersCols (keys : list string) : list string :=
  present [findCol keys ["customer"];
           findCol keys ["nature of work"; "nature"];
           findCol keys ["execution status"; "execution"];
           findCol keys ["sector"];
           workOrdersValueCol keys;
           findCol keys ["collected amount"; "collected"];
           findCol keys ["amount receivable"; "receivable"]].

(** The cell of the work-orders table: a dash for null and undefined, a
    number above 1000 in short form, the value itself otherwise; a member
    the row inherits is no number and is printed as its text. *)
Definition workOrdersCell (row : Row) (c : string) : string :=
  match JsObject.get row c with
  | Some (VStr s) =>
    let num := parseFloat s in
    if negb (isNaN num) && gtZ num 1000 then formatNum num else s
  | Some VNull => "-"
  | None => if JsObject.inherited c then memberText c else "-"
  end.

Definition workOrdersLine (cols : list string) (row : Row) : string :=
  nameOr row "-" ++ " | " ++ join " | " (map (workOrdersCell row) cols).

Definition workOrdersTopRows (data : list Row) (keys : list string)
  : list Row :=
  topRows (workOrdersValueCol keys) data.

Definition workOrdersTable (data : list Row) (keys : list string)
  : list string :=
  ("Name | " ++ join " | " (workOrdersCols keys))
  :: map (workOrdersLine (workOrdersCols keys)) (workOrdersTopRows data keys).

(** ** The text of dataToContext *)

(** The line feed. *)
Definition nl : string := str1 10.

(** What a sequence of [out += line] appends. *)
Definition concatLines (lines : list string) : string :=
  fold_right append EmptyString lines.

(** [rows.reduce((s, r) => s + (parseFloat(r[key]) || 0), 0)], and 0 when
    [key] is null. *)
Definition sumField (rows : list Row) (key : option string) : number :=
  match key with
  | None => zero
  | Some k =>
    fold_left (fun s r => add s (orZero (numberOf (JsObject.get r k))))
              rows zero
  end.

(** A heading and the lines under it, each ended by a line feed. *)
Definition tableText (heading : string) (lines : list string) : string :=
  nl ++ heading ++ nl ++ concatLines (map (fun line => line ++ nl) lines).

(** [(a, b) => b[1].length - a[1].length] *)
Definition byCountDesc (a b : string * list Row) : number :=
  sub (ofNat (List.length (snd b))) (ofNat (List.length (snd a))).

Section Rendering.

(** [String.prototype.localeCompare] depends on the locale of the engine; it
    is a parameter of the rendering. *)
Variable localeCompare : string -> string -> number.

(** [(a, b) => a[0].localeCompare(b[0])] *)
Definition byKey (a b : string * list Row) : number :=
  localeCompare (fst a) (fst b).

Definition dealsGroupLine (label : string) (valueCol : option string)
           (g : string * list Row) : string :=
  "- " ++ fst g ++ ": " ++ showNat (List.length (snd g)) ++ " deals, "
  ++ label ++ ": ₹" ++ formatNum (sumField (snd g) valueCol) ++ nl.

(** One [if (col) { ... }] block of the aggregated summary: what it appends
    to [out], when [groupBy] returns. *)
Definition groupSection (data : list Row) (col : option string)
           (title : string)
           (order : list (string * list Row) -> list (string * list Row))
           (line : string * list Row -> string) : outcome string :=
  match col with
  | Some c =>
    groups <- groupBy data c ;;
    Returned (nl ++ title ++ nl
              ++ concatLines (map line (order (JsObject.entries groups))))
  | None => Returned EmptyString
  end.

(** The aggregated part of [buildDealsSummary].  The columns the source looks
    up and never reads ([tentDateCol], [createdCol], [clientCol],
    [productCol]) play no part. *)
Definition dealsAggregates (data : list Row) (keys : list string)
  : outcome string :=
  let valueCol := dealsValueCol keys in
  byStatus <- groupSection data (findCol keys ["deal status"; "status"])
                "**By Deal Status:**" (fun entries => entries)
                (dealsGroupLine "total value" valueCol) ;;
  bySector <- groupSection data (findCol keys ["sector"])
                "**By Sector:**" (sort byCountDesc)
                (dealsGroupLine "value" valueCol) ;;
  byStage <- groupSection data (findCol keys ["deal stage"; "stage"])
               "**By Deal Stage:**" (sort byKey)
               (dealsGroupLine "value" valueCol) ;;
  byOwner <- groupSection data (findCol keys ["owner"])
               "**By Owner:**" (sort byCountDesc)
               (dealsGroupLine "value" valueCol) ;;
  byProb <- groupSection data (findCol keys ["probability"; "closure prob"])
              "**By Closure Probability:**" (fun entries => entries)
              (fun g =>
                 dealsGroupLine "value" valueCol
                   (if String.eqb (fst g) EmptyString then "Not set" else fst g,
                    snd g)) ;;
  Returned (nl ++ "### AGGREGATED SUMMARY" ++ nl
            ++ byStatus ++ bySector ++ byStage ++ byOwner ++ byProb).

Definition buildDealsSummary (data : list Row) (keys : list string)
  : outcome string :=
  aggregates <- dealsAggregates data keys ;;
  Returned (aggregates
            ++ tableText "### TOP 20 DEALS BY VALUE" (dealsTable data keys)).

(** [((x / y) * 100).toFixed(1)] *)
Definition rate (x y : number) : string :=
  toFixed (mul (div x y) (ofZ 100)) 1.

(** The financial overview of [buildWorkOrdersSummary]. *)
Definition financialOverview (data : list Row) (keys : list string) : string :=
  let amtExcl := workOrdersValueCol keys in
  let billedExcl :=
    findCol keys ["billed value in rupees (excl"; "billed.*excl"] in
  let collectedCol := findCol keys ["collected amount"; "collected"] in
  let receivableCol := findCol keys ["amount receivable"; "receivable"] in
  let totalAmt := sumField data amtExcl in
  let totalBilled := sumField data billedExcl in
  let totalCollected := sumField data collectedCol in
  let totalReceivable := sumField data receivableCol in
  nl ++ "**Financial Overview:**" ++ nl
  ++ "- Total Order Value (Excl GST): ₹" ++ formatNum totalAmt ++ nl
  ++ "- Total Billed (Excl GST): ₹" ++ formatNum totalBilled ++ nl
  ++ "- Total Collected: ₹" ++ formatNum totalCollected ++ nl
  ++ "- Total Receivable: ₹" ++ formatNum totalReceivable ++ nl
  ++ (if isPositive totalBilled
      then "- Collection Rate: " ++ rate totalCollected totalBilled ++ "%" ++ nl
      else EmptyString)
  ++ (if isPositive totalAmt
      then "- Billing Rate: " ++ rate totalBilled totalAmt ++ "%" ++ nl
      else EmptyString).

(** The aggregated part of [buildWorkOrdersSummary]; again without the
    columns that are looked up and never read. *)
Definition workOrdersAggregates (data : list Row) (keys : list string)
  : outcome string :=
  let amtExcl := workOrdersValueCol keys in
  let collectedCol := findCol keys ["collected amount"; "collected"] in
  byExec <- groupSection data (findCol keys ["execution status"; "execution"])
              "**By Execution Status:**" (fun entries => entries)
              (fun g =>
                 "- " ++ fst g ++ ": " ++ showNat (List.length (snd g))
                 ++ " WOs, value: ₹" ++ formatNum (sumField (snd g) amtExcl)
                 ++ nl) ;;
  bySector <- groupSection data (findCol keys ["sector"])
                "**By Sector:**" (sort byCountDesc)
                (fun g =>
                   "- " ++ fst g ++ ": " ++ showNat (List.length (snd g))
                   ++ " WOs, value: ₹" ++ formatNum (sumField (snd g) amtExcl)
                   ++ ", collected: ₹"
                   ++ formatNum (sumField (snd g) collectedCol) ++ nl) ;;
  Returned (nl ++ "### AGGREGATED SUMMARY" ++ nl
            ++ financialOverview data keys ++ byExec ++ bySector).

Definition buildWorkOrdersSummary (data : list Row) (keys : list string)
  : outcome string :=
  aggregates <- workOrdersAggregates data keys ;;
  Returned (aggregates
            ++ tableText "### TOP 20 WORK ORDERS BY VALUE"
                 (workOrdersTable data keys)).

Definition buildGenericCompact (data : list Row) (keys : list string)
  : string :=
  tableText "### DATA"
    (("Name | " ++ join " | " (firstn 8 keys))
     :: map (fun row =>
               nameOr row "-" ++ " | "
               ++ join " | " (map (cellOrDash row) (firstn 8 keys)))
            data).

(** The first lines of the document: the board, its size and completeness,
    and the data notes when there are any. *)
Definition contextHead (cleanedBoard : CleanedBoard) : string :=
  "## " ++ match boardName cleanedBoard with
           | Some name => name
           | None => "undefined"
           end
  ++ " (" ++ showNat (cleanedRows (stats cleanedBoard)) ++ " rows, "
  ++ completeness (stats cleanedBoard) ++ "% complete)" ++ nl
  ++ match qualityIssues cleanedBoard with
     | [] => EmptyString
     | issues => "Data notes: " ++ join "; " issues ++ nl
     end.

Definition dataToContext (cleanedBoard : CleanedBoard) : outcome string :=
  match data cleanedBoard with
  | [] =>
    Returned ("## " ++ match boardName cleanedBoard with
                       | Some name => name
                       | None => "undefined"
                       end
              ++ nl ++ "No data available." ++ nl)
  | rows =>
    let allKeys := allKeysOf rows in
    summary <- match boardKindOf allKeys with
               | Deals => buildDealsSummary rows allKeys
               | WorkOrders => buildWorkOrdersSummary rows allKeys
               | Generic => Returned (buildGenericCompact rows allKeys)
               end ;;
    Returned (contextHead cleanedBoard ++ summary)
  end.

End Rendering.

End Members.

(** ** Groupings *)


(** The records of [data] whose grouping key resolves to [k], in order. *)
Definition recordsOfKey (memberText : string -> string) (data : list Row)
           (key k : string) : list Row :=
  filter (fun row => String.eqb (groupKey memberText row key) k) data.

(** [!row[key]]: the own property is null or the empty string, or there is
    none and [key] names no inherited member. *)
Definition readsFalsy (row : Row) (key : string) : bool :=
  match JsObject.get row key with
  | Some v => negb (truthy (Some v))
  | None => negb (JsObject.inherited key)
  end.

(** Some record has, in one of the columns, a key that names an inherited
    member. *)
Definition meetsInherited (memberText : string -> string) (data : list Row)
           (cols : list string) : Prop :=
  exists col row,
    In col cols /\ In row data
    /\ JsObject.inherited (groupKey memberText row col) = true.

(** ** Conditions on snapshots *)

(** Column ids are distinct, and no title is empty or starts with an
    underscore. *)
Definition wellTitled (cols : list Column) : Prop :=
  NoDup (map col_id cols)
  /\ Forall (fun c => col_title c <> EmptyString
                      /\ startsWith (col_title c) "_" = false) cols.

(** The item carries a field for every column but the name column, and no
    other field. *)
Definition carriesEveryColumn (cols : list Column) (item : Item) : Prop :=
  forall id,
    In id (map cv_id (column_values item))
    <-> exists c, In c cols /\ col_id c = id /\ col_title c <> "Name".

(** ** The verdicts of the row filter, as predicates on rows *)



(** The two summary notes that follow the per-row notes. *)
Definition summaryNotes (removed missing total : nat) : list string :=
  ((if (0 <? removed)%nat then [removedNote removed] else [])
   ++ (if (0 <? missing)%nat then [missingNote missing total] else []))%list.

(** ** Day-first date texts *)

Definition allDigits (s : string) : bool :=
  forallb isDigit (list_ascii_of_string s).

(** The text [D[D] sep M[M] sep YYYY] with its three groups and its two
    separators. *)
Definition dayFirstText (d m y : string) (sep1 sep2 : ascii) : string :=
  d ++ String sep1 (m ++ String sep2 y).

Definition isDayMonthYear (d m y : string) (sep1 sep2 : ascii) : Prop :=
  allDigits d = true
  /\ (String.length d = 1 \/ String.length d = 2)
  /\ allDigits m = true
  /\ (String.length m = 1 \/ String.length m = 2)
  /\ allDigits y = true
  /\ String.length y = 4
  /\ isSeparator sep1 = true
  /\ isSeparator sep2 = true.

(** ** Numeric texts *)

(** The title sends the cell to [normalizeNumber]: it holds one of the
    numeric keywords and does not hold "date". *)
Definition numericTitle (title : string) : bool :=
  let lower := toLowerCase title in
  negb (includes lower "date")
  && (includes lower "amount" || includes lower "value"
      || includes lower "billed" || includes lower "collected"
      || includes lower "receivable").

(** The ASCII characters of the class: the dollar sign, the comma, and
    TAB, LF, VT, FF, CR and the space. *)
Definition strippedAscii (c : ascii) : bool :=
  ((code c =? 36) || (code c =? 44) || ((9 <=? code c) && (code c <=? 13))
   || (code c =? 32))%N.

Definition allAscii (s : string) : bool :=
  forallb (fun c => (code c <? 128)%N) (list_ascii_of_string s).

(** The text without its characters of the class, for an ASCII text. *)
Fixpoint withoutStripped (s : string) : string :=
  match s with
  | EmptyString => EmptyString
  | String c r =>
    if strippedAscii c then withoutStripped r
    else String c (withoutStripped r)
  end.

(** The rupee sign U+20B9. *)
Definition rupee : string := "₹".

(** The text starts with a decimal digit. *)
Definition startsDigit (s : string) : bool :=
  match s with
  | String c _ => isDigit c
  | EmptyString => false
  end.

(** What follows a whole number and is no part of it: nothing, or a
    character that is not a digit, a decimal point or the letter [e]. *)
Definition afterWhole (rest : string) : bool :=
  match rest with
  | EmptyString => true
  | String c _ =>
    negb (isDigit c) && negb (code c =? 46)%N
    && negb (code c =? 101)%N && negb (code c =? 69)%N
  end.

(** The letter [e] or [E]. *)
Definition isExponentMark (c : ascii) : bool :=
  ((code c =? 101) || (code c =? 69))%N.

(** [Infinity], a digit, or a decimal point and a digit. *)
Definition startsUnsigned (t : string) : bool :=
  String.prefix "Infinity" t || startsDigit t
  || match t with
     | String c r => (code c =? 46)%N && startsDigit r
     | EmptyString => false
     end.

(** The text starts with a number [parseFloat] reads: after white space and
    an optional sign, [Infinity], a digit, or a decimal point and a
    digit. *)
Definition startsNumber (s : string) : bool :=
  match trimStart s with
  | String c r =>
    if ((code c =? 45) || (code c =? 43))%N then startsUnsigned r
    else startsUnsigned (String c r)
  | EmptyString => false
  end.


(** The digit of a number below ten. *)
Definition digitChar (r : N) : ascii := ascii_of_N (48 + r).

(** ** The completeness percentage in exact arithmetic *)






(** ** The order of the sort scores *)

(** An integer, or an infinity with its sign. *)
Inductive extended : Type :=
| Finite (z : Z)
| Infinite (negative : bool).

(** The value of a number in units of [2 ^ -1074], the spacing of the
    smallest binary64 numbers: an integer for every finite binary64. *)
Definition rank (x : number) : extended :=
  match x with
  | S754_zero _ | S754_nan => Finite 0
  | S754_finite s m e =>
    Finite ((if s then - Zpos m else Zpos m) * 2 ^ (e + 1074))%Z
  | S754_infinity s => Infinite s
  end.

(** [a < b] *)
Definition extLt (a b : extended) : bool :=
  match a, b with
  | Finite x, Finite y => (x <? y)%Z
  | Finite _, Infinite s => negb s
  | Infinite s, Finite _ => s
  | Infinite s, Infinite s' => s && negb s'
  end.

Definition extEqb (a b : extended) : bool :=
  match a, b with
  | Finite x, Finite y => (x =? y)%Z
  | Infinite s, Infinite s' => Bool.eqb s s'
  | _, _ => false
  end.

(** A finite number whose exponent is not below the least exponent of
    binary64, or a number that is not finite. *)
Definition representable (x : number) : Prop :=
  match x with
  | S754_finite _ _ e => (-1074 <= e)%Z
  | _ => True
  end.




(** ** Sample boards *)

Module Samples.

Definition col (id title : string) : Column :=
  {| col_id := id; col_title := title |}.

Definition field (id text : string) : ColumnValue :=
  {| cv_id := id; cv_text := VStr text |}.

Definition blank (id : string) : ColumnValue :=
  {| cv_id := id; cv_text := VNull |}.

Definition item (id name : string) (cvs : list ColumnValue) : Item :=
  {| item_id := id; item_name := VStr name; column_values := cvs |}.

Definition board (name : string) (cols : list Column) (items : list Item)
  : BoardData :=
  {| bd_name := Some name; bd_columns := Some cols; bd_items := Some items |}.

Definition dealsColumns : list Column :=
  [col "name" "Name"; col "c1" "Deal Status"; col "c2" "Sector";
   col "c3" "Deal Value"; col "c4" "Created Date"].

(** Four items: a deal, a header line that was imported as an item, an
    unnamed empty line and a second deal. *)
Definition dealsItems : list Item :=
  [item "1" "Acme"
     [field "c1" "Open"; field "c2" "Mining"; field "c3" "₹1,25,000";
      field "c4" "05/03/2024"];
   item "2" "Deal Name"
     [field "c1" "Deal Status"; field "c2" "Sector"; field "c3" "Deal Value";
      field "c4" "Created Date"];
   {| item_id := "3"; item_name := VStr EmptyString;
      column_values := [blank "c1"; blank "c2"; field "c3" " "; blank "c4"] |};
   item "4" "Borealis"
     [blank "c1"; field "c2" "Railways"; field "c3" "$98,000.50";
      field "c4" "2024-04-01T09:30:00Z"]].

Definition dealsBoard : BoardData := board "Deals" dealsColumns dealsItems.

Definition noBoard : CleanedBoard :=
  {| boardName := None; columns := []; data := [];
     stats := {| totalRows := 0; cleanedRows := 0; removedRows := 0;
                 missingFields := 0; totalFields := 0;
                 completeness := EmptyString |};
     qualityIssues := [] |}.

(** The board [cleanBoardData] returns for a snapshot it accepts. *)
Definition cleaned (boardData : BoardData) : CleanedBoard :=
  match cleanBoardData boardData with
  | Returned board => board
  | Thrown _ => noBoard
  end.

(** A board of two columns and one item that carries a field for the first
    column only. *)
Definition sparseBoard : BoardData :=
  board "Deals"
    [col "name" "Name"; col "c1" "Status"; col "c2" "Sector"]
    [item "1" "Acme" [field "c1" "Open"]].

(** A board whose second item is a header line: its only field holds the
    title of its column. *)
Definition headerBoard : BoardData :=
  board "Work orders"
    [col "name" "Name"; col "s" "Status"]
    [item "1" "WO-1" [field "s" "Done"];
     item "2" "Item" [field "s" "Status"];
     {| item_id := "3"; item_name := VNull;
        column_values := [field "s" "Status"] |};
     {| item_id := "4"; item_name := VNull;
        column_values := [blank "s"] |}].

(** Boards of eight columns.  [wideItem n blanks] has the fields of the
    first [blanks] columns null and the others filled. *)
Definition wideColumns : list Column :=
  map (fun n => col ("c" ++ showNat n) ("T" ++ showNat n)) (seq 1 8).

Definition wideItem (n blanks : nat) : Item :=
  item (showNat n) ("Item " ++ showNat n)
    (map (fun c => if (c <=? blanks)%nat
                   then blank ("c" ++ showNat c)
                   else field ("c" ++ showNat c) "x")
         (seq 1 8)).

(** Five items, 40 fields, 6 of them missing. *)
Definition fortyFields : BoardData :=
  board "Forty" wideColumns
    [wideItem 1 6; wideItem 2 0; wideItem 3 0; wideItem 4 0; wideItem 5 0].


(** Twenty-five deals whose values are 1, 2, 0, 1, 2, 0, ... *)
Definition manyDeals : list Row :=
  map (fun n =>
         [("_id", VStr (showNat n));
          ("_name", VStr ("D" ++ showNat n));
          ("Deal Value", VStr (showNat (n mod 3)))])
      (seq 1 25).

(** A snapshot without a board name, with empty column and item lists. *)
Definition unnamedBoard : BoardData :=
  {| bd_name := None; bd_columns := Some []; bd_items := Some [] |}.

(** A snapshot without its item list. *)
Definition noItemsBoard : BoardData :=
  {| bd_name := Some "Deals"; bd_columns := Some dealsColumns;
     bd_items := None |}.

(** A deal whose closure probability is the string ["0"]. *)
Definition zeroProbability : Row :=
  [("_id", VStr "7"); ("_name", VStr "Acme"); ("Closure Probability", VStr "0")].

(** A deal without a status. *)
Definition noStatus : Row :=
  [("_id", VStr "8"); ("_name", VStr "Borealis"); ("Deal Status", VNull)].

(** A deal with neither a status nor a name. *)
Definition anonymous : Row :=
  [("_id", VStr "9"); ("_name", VStr EmptyString); ("Deal Status", VNull)].

(** A comparison of strings by their bytes, for [localeCompare]. *)
Definition codeOrder (a b : string) : number :=
  match String.compare a b with
  | Lt => ofZ (-1)
  | Eq => zero
  | Gt => ofZ 1
  end.

(** The texts one engine (V8) gives the members of [Object.prototype]. *)
Definition v8Text (name : string) : string :=
  if String.eqb name "__proto__" then "[object Object]"
  else "function "
       ++ (if String.eqb name "constructor" then "Object" else name)
       ++ "() { [native code] }".

End Samples.

(** ** Further notions the properties are stated with *)

(** A date as [normalizeDate] writes it: [YYYY-MM-DD] and nothing else. *)
Definition isIsoDate (v : string) : bool :=
  isoPrefix v && (String.length v =? 10)%nat.

(** No character of the text is a decimal digit. *)
Fixpoint noDigit (s : string) : bool :=
  match s with
  | EmptyString => true
  | String c r => negb (isDigit c) && noDigit r
  end.

(** The text holds no number [parseFloat] reads once [normalizeNumber] has
    stripped it: it has no decimal digit, and what is left of it does not
    contain [Infinity]. *)
Definition holdsNoNumber (s : string) : bool :=
  noDigit s && negb (includes (stripped s) "Infinity").

(** The text of a field that is cleaned to null: null, the error marker, or
    white space only. *)
Definition blankText (text : value) : bool :=
  match text with
  | VNull => true
  | VStr s => String.eqb s "#VALUE!" || String.eqb (trim s) EmptyString
  end.

(** The last element of [l] that satisfies [f]. *)
Definition findLast {A : Type} (f : A -> bool) (l : list A) : option A :=
  find f (rev l).

(** The last column of the board with the id [id]. *)
Definition lastColumn (cols : list Column) (id : string) : option Column :=
  findLast (fun c => String.eqb (col_id c) id) cols.

(** The last field of the item whose title is [k]. *)
Definition lastField (colMap : JsObject.t string) (item : Item) (k : string)
  : option ColumnValue :=
  findLast (fun cv => String.eqb (resolveTitle colMap (cv_id cv)) k)
    (column_values item).

(** The number of fields the items carry. *)
Definition fieldsCarried (items : list Item) : nat :=
  list_sum (map (fun item => List.length (column_values item)) items).


(** [boardName] as a template literal prints it. *)
Definition shownName (cleanedBoard : CleanedBoard) : string :=
  match boardName cleanedBoard with
  | Some name => name
  | None => "undefined"
  end.

(** The lower-cased key contains one of the patterns. *)
Definition holdsPattern (patterns : list string) (k : string) : bool :=
  existsb (includes (toLowerCase k)) patterns.

(** No pattern is the empty string. *)
Definition properPatterns (patterns : list string) : bool :=
  forallb (fun p => negb (String.eqb p EmptyString)) patterns.

(** No key holds, in lower case, the two characters [.*]. *)
Definition plainKeys (keys : list string) : bool :=
  forallb (fun k => negb (includes (toLowerCase k) ".*")) keys.

(** The elements of [l] without repetition, each at its first occurrence. *)
Fixpoint firstSeen (l : list string) : list string :=
  match l with
  | [] => []
  | k :: rest => k :: filter (fun k' => negb (String.eqb k' k)) (firstSeen rest)
  end.

(** The grouping keys of the records, in the order in which they first
    occur. *)
Definition groupKeys (memberText : string -> string) (data : list Row)
           (key : string) : list string :=
  firstSeen (map (fun row => groupKey memberText row key) data).

(** No grouping key of the records is the numeral of an array index, which
    [Object.entries] would move to the front. *)
Definition namedGroups (memberText : string -> string) (data : list Row)
           (key : string) : bool :=
  forallb (fun row =>
             match JsObject.arrayIndex (groupKey memberText row key) with
             | None => true
             | Some _ => false
             end) data.

(** The number of records of a group. *)
Definition groupSize (g : string * list Row) : nat := List.length (snd g).

(** A length below [2 ^ 53]: an integer that a binary64 number holds
    exactly, as every array length is. *)
Definition exactLength (n : nat) : Prop := (Z.of_nat n < 2 ^ 53)%Z.

(** The key marks a deals board: it contains "deal" or "closure" in lower
    case. *)
Definition dealKey (k : string) : bool :=
  includes (toLowerCase k) "deal" || includes (toLowerCase k) "closure".

(** The key marks a work-orders board. *)
Definition workOrderKey (k : string) : bool :=
  includes (toLowerCase k) "execution" || includes (toLowerCase k) "billed"
  || includes (toLowerCase k) "serial".

(** [x] is +0 or -0. *)
Definition isZeroNumber (x : number) : bool :=
  match x with
  | S754_zero _ => true
  | _ => false
  end.

(** The record adds something to a total of the column: its cell holds a
    number other than zero. *)
Definition countsInSum (key : option string) (row : Row) : bool :=
  negb (isZeroNumber (score key row)).

(** A running total: a representable number that is not -0. *)
Definition runningTotal (x : number) : Prop :=
  representable x /\ x <> S754_zero true.

(** The whole number a cell holds: 0 for a cell that is absent, null or
    empty, the number of a string of decimal digits; none for another
    text. *)
Definition wholeCell (v : option value) : option Z :=
  match v with
  | Some (VStr s) =>
    if String.eqb s EmptyString then Some 0%Z
    else if allDigits s then Some (digitsValue s) else None
  | _ => Some 0%Z
  end.

(** The total of the whole numbers of a column, when every cell holds one. *)
Fixpoint wholeTotal (key : string) (rows : list Row) : option Z :=
  match rows with
  | [] => Some 0%Z
  | row :: rest =>
    match wholeCell (JsObject.get row key), wholeTotal key rest with
    | Some a, Some b => Some (a + b)%Z
    | _, _ => None
    end
  end.


(** * The board client (src/lib/monday.js)

    [MondayClient.fetchBoardData] talks to the server through [query]; what
    it does is a function of the answers it is given.  The answers are an
    argument of the embedding: the answer to the first request, and the list
    of the answers to the requests for further pages, in the order in which
    they are asked.  An answer has the shape its request asks for (the server
    is a GraphQL server); the embedding ends in [Waiting] when the client
    awaits an answer the list does not hold. *)

Module Monday.

(** What an [await] ends with: a value, or an [Error] with its message. *)
Inductive result (A : Type) : Type :=
| Value (a : A)
| Raised (message : string).

Arguments Value {A} a.
Arguments Raised {A} message.

(** What comes back for one request: [fetch], or the reading of the body,
    rejects with a message; the response is not [ok] and has a status and a
    text; or it is [ok] and its JSON body holds [errors], the messages of a
    list of errors when the property is there, and [data]. *)
Inductive reply (A : Type) : Type :=
| Rejected (message : string)
| NotOk (status : nat) (text : string)
| Body (errors : option (list string)) (data : A).

Arguments Rejected {A} message.
Arguments NotOk {A} status text.
Arguments Body {A} errors data.

(** [items_page] and [next_items_page]: [cursor] is a string or null. *)
Record ItemsPage : Type :=
  { page_cursor : option string; page_items : list Item }.

(** An element of [data.boards]. *)
Record Board : Type :=
  { board_name : string;
    board_columns : list Column;
    board_items_page : ItemsPage }.

(** The state of the promise [fetchBoardData] returns: fulfilled, rejected,
    or pending on the request for the page of a cursor. *)
Inductive run (A : Type) : Type :=
| Done (a : A)
| Failed (message : string)
| Waiting (cursor : string).

Arguments Done {A} a.
Arguments Failed {A} message.
Arguments Waiting {A} cursor.

(** [query]: what the client makes of the answer to a request.  An [errors]
    property that is there is truthy, also when the list is empty. *)
Definition query {A : Type} (r : reply A) : result A :=
  match r with
  | Rejected message => Raised message
  | NotOk status text =>
    Raised ("Monday.com API error (" ++ showNat status ++ "): " ++ text)
  | Body (Some errors) _ => Raised ("Monday.com GraphQL: " ++ join ", " errors)
  | Body None data => Value data
  end.

(** The test of [while (cursor)]: a cursor that is null or the empty string
    ends the loop. *)
Definition more (cursor : option string) : option string :=
  match cursor with
  | Some c => if String.eqb c EmptyString then None else Some c
  | None => None
  end.

(** The loop of [fetchBoardData], on the answers to its requests. *)
Fixpoint nextPages (replies : list (reply ItemsPage)) (cursor : option string)
         (allItems : list Item) : run (list Item) :=
  match more cursor with
  | None => Done allItems
  | Some c =>
    match replies with
    | [] => Waiting c
    | r :: rest =>
      match query r with
      | Raised message => Failed message
      | Value page =>
        nextPages rest (page_cursor page) (allItems ++ page_items page)
      end
    end
  end.

Definition fetchBoardData (boardId : string) (first : reply (list Board))
           (replies : list (reply ItemsPage)) : run BoardData :=
  match query first with
  | Raised message => Failed message
  | Value boards =>
    match boards with
    | [] => Failed ("Board " ++ boardId ++ " not found")
    | board :: _ =>
      let page := board_items_page board in
      match nextPages replies (page_cursor page) (page_items page) with
      | Done allItems =>
        Done {| bd_name := Some (board_name board);
                bd_columns := Some (board_columns board);
                bd_items := Some allItems |}
      | Failed message => Failed message
      | Waiting c => Waiting c
      end
    end
  end.

(** The answer that carries [data] and no error. *)
Definition answer {A : Type} (data : A) : reply A := Body None data.

(** [first :: pages] are the pages of one board: each one but the last has a
    cursor, the last has none. *)
Fixpoint pagesOfBoard (first : ItemsPage) (pages : list ItemsPage) : bool :=
  match more (page_cursor first), pages with
  | None, [] => true
  | Some _, next :: rest => pagesOfBoard next rest
  | _, _ => false
  end.

(** Every page of [first :: pages] has a cursor: another page is asked for
    after the last of them. *)
Fixpoint pagesGoOn (first : ItemsPage) (pages : list ItemsPage) : bool :=
  match more (page_cursor first) with
  | None => false
  | Some _ =>
    match pages with
    | [] => true
    | next :: rest => pagesGoOn next rest
    end
  end.

End Monday.

(** ** Further sample boards *)

Module MoreSamples.
Import Samples.

(** One column, and an item with a field of that column and a field of an
    id the board does not have, both null. *)
Definition strayField : BoardData :=
  board "Stray" [col "c1" "Status"] [item "1" "Acme" [blank "c1"; blank "zz"]].

(** A work order: its keys are those of the work-orders board, one of them
    the deal name. *)
Definition workOrder : Row :=
  [("_id", VStr "11"); ("_name", VStr "WO-11"); ("Deal name", VStr "Alpha");
   ("Execution Status", VStr "Completed"); ("Billed Value", VStr "1200")].

Definition workOrdersBoard : CleanedBoard :=
  {| boardName := Some "Work Orders"; columns := []; data := [workOrder];
     stats := {| totalRows := 1; cleanedRows := 1; removedRows := 0;
                 missingFields := 0; totalFields := 3;
                 completeness := "100.0" |};
     qualityIssues := [] |}.

(** Three deals of two sectors, the second one without a value. *)
Definition threeDeals : list Row :=
  [[("_id", VStr "1"); ("_name", VStr "A"); ("Sector", VStr "Mining");
    ("Deal Value", VStr "100")];
   [("_id", VStr "2"); ("_name", VStr "B"); ("Sector", VStr "Railways");
    ("Deal Value", VNull)];
   [("_id", VStr "3"); ("_name", VStr "C"); ("Sector", VStr "Mining");
    ("Deal Value", VStr "n/a")]].

(** Three deals whose values are whole numbers, one of them missing. *)
Definition wholeDeals : list Row :=
  [[("_id", VStr "1"); ("_name", VStr "A"); ("Deal Value", VStr "100")];
   [("_id", VStr "2"); ("_name", VStr "B"); ("Deal Value", VNull)];
   [("_id", VStr "3"); ("_name", VStr "C"); ("Deal Value", VStr "250")]].

(** A board whose two items are both removed: a header line and an unnamed
    empty line. *)
Definition junkBoard : BoardData :=
  board "Junk"
    [col "name" "Name"; col "s" "Status"]
    [item "1" "Item" [field "s" "Status"];
     {| item_id := "2"; item_name := VNull; column_values := [blank "s"] |}].


(** A deals board whose second deal has the sector ["constructor"], as
    [cleanBoardData] returns it. *)
Definition constructorBoard : CleanedBoard :=
  cleaned
    (board "Deals"
       [col "name" "Name"; col "c2" "Sector"; col "c3" "Deal Value"]
       [item "1" "A" [field "c2" "Mining"; field "c3" "100"];
        item "2" "B" [field "c2" "constructor"; field "c3" "250"]]).

(** A board of three pages of one item each. *)
Definition pageOf (cursor : option string) (id : string) : Monday.ItemsPage :=
  {| Monday.page_cursor := cursor;
     Monday.page_items := [item id ("Item " ++ id) [field "c1" "Open"]] |}.

Definition pagedBoard : Monday.Board :=
  {| Monday.board_name := "Deals";
     Monday.board_columns := [col "c1" "Status"];
     Monday.board_items_page := pageOf (Some "p2") "1" |}.

End MoreSamples.

(** * Properties *)

(** ** Facts about property lists *)

Module JsObjectFacts.
Import JsObject.

Section Facts.
Context {V : Type}.
Implicit Types (o : t V) (k : string) (v : V).

Lemma get_set_same o k v : get (set o k v) k = Some v.
Proof.
  induction o as [|[k' v'] rest IH]; simpl.
  - now rewrite String.eqb_refl.
  - destruct (String.eqb k' k) eqn:E; simpl; rewrite E; auto.
Qed.

Lemma get_set_other o k k' v : k' <> k -> get (set o k v) k' = get o k'.
Proof.
  intros Hne.
  induction o as [|[k0 v0] rest IH]; simpl.
  - destruct (String.eqb k k') eqn:E; auto.
    apply String.eqb_eq in E; congruence.
  - destruct (String.eqb k0 k) eqn:E; simpl.
    + apply String.eqb_eq in E; subst k0.
      destruct (String.eqb k k') eqn:E'; auto.
      apply String.eqb_eq in E'; congruence.
    + now rewrite IH.
Qed.

Lemma in_keys_set o k k' v :
  In k' (map fst (set o k v)) <-> k' = k \/ In k' (map fst o).
Proof.
  induction o as [|[k0 v0] rest IH]; simpl.
  - intuition.
  - destruct (String.eqb k0 k) eqn:E; simpl.
    + apply String.eqb_eq in E; subst k0; intuition.
    + rewrite IH; intuition.
Qed.

Lemma set_fresh o k v : get o k = None -> set o k v = (o ++ [(k, v)])%list.
Proof.
  induction o as [|[k0 v0] rest IH]; simpl; auto.
  destruct (String.eqb k0 k) eqn:E; [discriminate|].
  intros H; now rewrite IH.
Qed.

Lemma set_present o k v v0 :
  get o k = Some v0 ->
  exists pre post,
    o = (pre ++ (k, v0) :: post)%list
    /\ set o k v = (pre ++ (k, v) :: post)%list
    /\ ~ In k (map fst pre).
Proof.
  induction o as [|[k1 v1] rest IH]; simpl; [discriminate|].
  destruct (String.eqb k1 k) eqn:E.
  - apply String.eqb_eq in E; subst k1.
    intros [= ->]; exists [], rest; simpl; auto.
  - intros H; destruct (IH H) as (pre & post & -> & -> & Hn).
    exists ((k1, v1) :: pre), post; simpl; repeat split; auto.
    apply String.eqb_neq in E; intuition.
Qed.

Lemma NoDup_keys_set o k v :
  NoDup (map fst o) -> NoDup (map fst (set o k v)).
Proof.
  induction o as [|[k0 v0] rest IH]; simpl; intros Hnd.
  - constructor; [intros [] | constructor].
  - inversion_clear Hnd as [|? ? Hnot Hrest].
    destruct (String.eqb k0 k) eqn:E; simpl.
    + constructor; auto.
    + constructor; auto.
      rewrite in_keys_set; apply String.eqb_neq in E; intuition.
Qed.

Lemma get_in o k v : get o k = Some v -> In (k, v) o.
Proof.
  induction o as [|[k0 v0] rest IH]; simpl; [discriminate|].
  destruct (String.eqb k0 k) eqn:E; auto.
  apply String.eqb_eq in E; subst; intros [= ->]; auto.
Qed.

Lemma in_get o k v : NoDup (map fst o) -> In (k, v) o -> get o k = Some v.
Proof.
  induction o as [|[k0 v0] rest IH]; simpl; [intros _ []|].
  intros Hnd [H|H].
  - inversion H; subst; now rewrite String.eqb_refl.
  - inversion_clear Hnd as [|? ? Hnot Hrest].
    destruct (String.eqb k0 k) eqn:E; auto.
    apply String.eqb_eq in E; subst k0.
    exfalso; apply Hnot; now apply (in_map fst) in H.
Qed.

Lemma insertIndex_perm (e : N * (string * V)) l :
  Permutation (insertIndex e l) (e :: l).
Proof.
  induction l as [|e' rest IH]; simpl; auto.
  destruct (fst e <? fst e')%N; auto.
  rewrite IH; apply perm_swap.
Qed.

Lemma indexEntries_perm o :
  Permutation (map snd (indexEntries o))
    (filter (fun e => match arrayIndex (fst e) with
                      | Some _ => true
                      | None => false
                      end) o).
Proof.
  induction o as [|[k v] rest IH]; simpl; auto.
  destruct (arrayIndex k); auto.
  rewrite insertIndex_perm; simpl; auto.
Qed.

(** [Object.entries] lists every own property once. *)
Lemma entries_perm o : Permutation (entries o) o.
Proof.
  unfold entries, namedEntries; rewrite indexEntries_perm.
  induction o as [|[k v] rest IH]; simpl; auto.
  destruct (arrayIndex k); simpl; auto.
  rewrite <- Permutation_middle; auto.
Qed.

Lemma in_entries o e : In e (entries o) <-> In e o.
Proof.
  split; apply Permutation_in;
    [apply entries_perm | apply Permutation_sym, entries_perm].
Qed.



End Facts.
End JsObjectFacts.

(** ** The row filter *)

Lemma filterStep_keep row st :
  fst (filterStep row st) = match judge row with Keep => true | _ => false end.
Proof. unfold filterStep; now destruct (judge row). Qed.

Lemma filterStep_removed row st :
  fs_removed (snd (filterStep row st))
  = match judge row with
    | Keep => fs_removed st
    | _ => S (fs_removed st)
    end.
Proof. unfold filterStep; now destruct (judge row). Qed.

Lemma filterStep_issues row st :
  fs_issues (snd (filterStep row st))
  = match judge row with
    | DropHeader => (fs_issues st ++ [headerNote row])%list
    | _ => fs_issues st
    end.
Proof. unfold filterStep; now destruct (judge row). Qed.

(** The rows kept are those the callback judges [Keep], in order. *)
Lemma filterRows_kept rows st :
  fst (filterRows rows st)
  = filter (fun row => match judge row with Keep => true | _ => false end) rows.
Proof.
  revert st; induction rows as [|row rest IH]; intros st; simpl; auto.
  pose proof (filterStep_keep row st) as Hk.
  destruct (filterStep row st) as [keep st1]; simpl in Hk; subst keep.
  specialize (IH st1).
  destruct (filterRows rest st1) as [kept st2]; simpl in *; subst kept.
  now destruct (judge row).
Qed.

(** Every row is kept or counted as removed, never both. *)
Lemma filterRows_count rows st :
  List.length (fst (filterRows rows st)) + fs_removed (snd (filterRows rows st))
  = List.length rows + fs_removed st.
Proof.
  revert st; induction rows as [|row rest IH]; intros st; simpl; auto.
  pose proof (filterStep_keep row st) as Hk.
  pose proof (filterStep_removed row st) as Hr.
  destruct (filterStep row st) as [keep st1]; simpl in Hk, Hr; subst keep.
  specialize (IH st1).
  destruct (filterRows rest st1) as [kept st2]; simpl in *.
  destruct (judge row); simpl; lia.
Qed.

(** The notes written are those of the rows dropped as headers, in the order
    of the rows. *)
Lemma filterRows_issues rows st :
  fs_issues (snd (filterRows rows st))
  = (fs_issues st
     ++ map headerNote
          (filter (fun row => match judge row with
                              | DropHeader => true
                              | _ => false
                              end) rows))%list.
Proof.
  revert st; induction rows as [|row rest IH]; intros st; simpl.
  - now rewrite app_nil_r.
  - pose proof (filterStep_issues row st) as Hi.
    destruct (filterStep row st) as [keep st1]; simpl in Hi.
    specialize (IH st1).
    destruct (filterRows rest st1) as [kept st2]; simpl in *.
    rewrite IH, Hi.
    destruct (judge row); simpl; auto.
    now rewrite <- app_assoc.
Qed.

(** [cleanBoardData] returns exactly when both lists are there. *)
Lemma cleanBoardData_returns boardData cols items :
  bd_columns boardData = Some cols ->
  bd_items boardData = Some items ->
  exists board,
    cleanBoardData boardData = Returned board
    /\ data board
       = fst (filterRows (map (buildRow (buildColMap cols)) items)
                {| fs_removed := 0; fs_issues := [] |})
    /\ removedRows (stats board)
       = fs_removed
           (snd (filterRows (map (buildRow (buildColMap cols)) items)
                   {| fs_removed := 0; fs_issues := [] |}))
    /\ totalRows (stats board) = List.length items
    /\ cleanedRows (stats board) = List.length (data board)
    /\ totalFields (stats board)
       = List.length (data board)
         * List.length (JsObject.keys (buildColMap cols))
    /\ missingFields (stats board) = countMissing (data board)
    /\ completeness (stats board)
       = completenessOf (missingFields (stats board))
           (totalFields (stats board))
    /\ columns board
       = filter (fun t => negb (String.eqb t "Name")) (map col_title cols)
    /\ boardName board = bd_name boardData.
Proof.
  intros Hc Hi; unfold cleanBoardData; rewrite Hc, Hi.
  destruct (filterRows _ _) as [cleaned st] eqn:E.
  eexists; split; [reflexivity|]; simpl; repeat split; reflexivity.
Qed.

Lemma cleanBoardData_inv boardData board :
  cleanBoardData boardData = Returned board ->
  exists cols items,
    bd_columns boardData = Some cols /\ bd_items boardData = Some items.
Proof.
  unfold cleanBoardData.
  destruct (bd_columns boardData) as [cols|]; [|discriminate].
  destruct (bd_items boardData) as [items|]; [|discriminate].
  intros _; eauto.
Qed.

(** ** Row-set conservation *)



(** ** groupBy *)

Section GroupBy.
Variable memberText : string -> string.
Variable key : string.

Let keyOf (row : Row) : string := groupKey memberText row key.

Let plain (row : Row) : Prop := JsObject.inherited (keyOf row) = false.

(** What [groups] holds once the records [seen] have been pushed. *)
Let holds (groups : JsObject.t (list Row)) (seen : list Row) : Prop :=
  forall k,
    JsObject.get groups k
    = match recordsOfKey memberText seen key k with
      | [] => None
      | rows => Some rows
      end.

Let counted (groups : JsObject.t (list Row)) : nat :=
  list_sum (map (fun g => List.length (snd g)) groups).

Lemma recordsOfKey_snoc seen row k :
  recordsOfKey memberText (seen ++ [row]) key k
  = (recordsOfKey memberText seen key k
     ++ if String.eqb (groupKey memberText row key) k then [row] else [])%list.
Proof. unfold recordsOfKey; now rewrite filter_app. Qed.

Lemma recordsOfKey_in data k row :
  In row (recordsOfKey memberText data key k)
  <-> In row data /\ groupKey memberText row key = k.
Proof.
  unfold recordsOfKey; rewrite filter_In.
  split; intros [H E]; split; auto; now apply String.eqb_eq.
Qed.

(** A group that exists has the key of a record that was pushed. *)
Lemma holds_some groups seen k rows :
  holds groups seen ->
  JsObject.get groups k = Some rows ->
  rows = recordsOfKey memberText seen key k
  /\ exists r, In r seen /\ groupKey memberText r key = k.
Proof.
  intros H Hk; rewrite (H k) in Hk.
  destruct (recordsOfKey memberText seen key k) as [|r rs] eqn:E;
    [discriminate|].
  split; [congruence|].
  exists r; apply recordsOfKey_in; rewrite E; simpl; auto.
Qed.

(** One call of the callback that returns. *)
Lemma groupStep_returns groups seen row groups' :
  holds groups seen ->
  NoDup (map fst groups) ->
  groupStep memberText key groups row = Returned groups' ->
  holds groups' (seen ++ [row])
  /\ NoDup (map fst groups')
  /\ counted groups' = S (counted groups).
Proof.
  intros H Hn; unfold groupStep, counted.
  destruct (JsObject.get groups (groupKey memberText row key)) as [rows|] eqn:E.
  - intros [= <-]; split; [|split].
    + intros k; rewrite recordsOfKey_snoc.
      destruct (String.eqb (groupKey memberText row key) k) eqn:Ek.
      * apply String.eqb_eq in Ek; subst k.
        rewrite JsObjectFacts.get_set_same.
        destruct (holds_some _ _ _ _ H E) as [-> _].
        rewrite (H _) in E.
        destruct (recordsOfKey memberText seen key (groupKey memberText row key));
          [discriminate | reflexivity].
      * apply String.eqb_neq in Ek.
        rewrite app_nil_r, <- (H k).
        apply JsObjectFacts.get_set_other; congruence.
    + now apply JsObjectFacts.NoDup_keys_set.
    + destruct (JsObjectFacts.set_present groups _ (rows ++ [row])%list rows E)
        as (pre & post & -> & -> & _).
      rewrite !map_app, !list_sum_app; simpl.
      rewrite length_app; simpl; lia.
  - destruct (JsObject.inherited (groupKey memberText row key)); [discriminate|].
    intros [= <-]; split; [|split].
    + intros k; rewrite recordsOfKey_snoc.
      destruct (String.eqb (groupKey memberText row key) k) eqn:Ek.
      * apply String.eqb_eq in Ek; subst k.
        rewrite JsObjectFacts.get_set_same.
        rewrite (H _) in E.
        destruct (recordsOfKey memberText seen key (groupKey memberText row key));
          [reflexivity | discriminate].
      * apply String.eqb_neq in Ek.
        rewrite app_nil_r, <- (H k).
        apply JsObjectFacts.get_set_other; congruence.
    + now apply JsObjectFacts.NoDup_keys_set.
    + rewrite (JsObjectFacts.set_fresh _ _ _ E).
      rewrite map_app, list_sum_app; simpl; lia.
Qed.

(** The callback throws exactly on a record whose key names an inherited
    member. *)
Lemma groupStep_thrown groups seen row :
  holds groups seen ->
  Forall plain seen ->
  (exists e, groupStep memberText key groups row = Thrown e) <-> ~ plain row.
Proof.
  intros H Hseen; unfold groupStep, plain, keyOf.
  destruct (JsObject.get groups (groupKey memberText row key)) as [rows|] eqn:E.
  - destruct (holds_some _ _ _ _ H E) as [_ (r & Hr & Hk)].
    rewrite Forall_forall in Hseen; specialize (Hseen r Hr).
    unfold plain, keyOf in Hseen; rewrite Hk in Hseen.
    split; [intros [e He]; discriminate | contradiction].
  - destruct (JsObject.inherited (groupKey memberText row key)).
    + split; [discriminate | eauto].
    + split; [intros [e He]; discriminate | congruence].
Qed.

Let loop (data : list Row) (start : outcome (JsObject.t (list Row)))
  : outcome (JsObject.t (list Row)) :=
  fold_left
    (fun groups row =>
       match groups with
       | Returned groups => groupStep memberText key groups row
       | Thrown e => Thrown e
       end)
    data start.

Lemma loop_thrown data e : loop data (Thrown e) = Thrown e.
Proof. induction data as [|row rest IH]; simpl; auto. Qed.

Lemma loop_spec data :
  forall groups seen,
    holds groups seen ->
    NoDup (map fst groups) ->
    counted groups = List.length seen ->
    Forall plain seen ->
    match loop data (Returned groups) with
    | Returned result =>
      Forall plain data
      /\ holds result (seen ++ data)
      /\ NoDup (map fst result)
      /\ counted result = List.length (seen ++ data)
    | Thrown _ => Exists (fun row => ~ plain row) data
    end.
Proof.
  induction data as [|row rest IH]; intros groups seen Hh Hn Hs Hp.
  - simpl; rewrite app_nil_r; auto.
  - change (loop (row :: rest) (Returned groups))
      with (loop rest (groupStep memberText key groups row)).
    destruct (groupStep memberText key groups row) as [groups'|e] eqn:E.
    + destruct (groupStep_returns _ _ _ _ Hh Hn E) as (Hh' & Hn' & Hs').
      assert (plain row) as Hrow.
      { destruct (JsObject.inherited (keyOf row)) eqn:Ei; [|exact Ei].
        exfalso.
        assert (~ plain row) as Hnp by (unfold plain; congruence).
        apply (groupStep_thrown groups seen row Hh Hp) in Hnp.
        destruct Hnp as [e He]; congruence. }
      assert (Forall plain (seen ++ [row])) as Hp'
          by (apply Forall_app; auto).
      specialize (IH groups' (seen ++ [row])%list Hh' Hn').
      rewrite Hs', Hs, length_app in IH; simpl in IH.
      specialize (IH ltac:(lia) Hp').
      rewrite <- app_assoc in IH; simpl in IH.
      destruct (loop rest (Returned groups')) as [result|e'].
      * destruct IH as (H1 & H2 & H3 & H4); auto.
      * now apply Exists_cons_tl.
    + rewrite loop_thrown.
      apply Exists_cons_hd.
      apply (groupStep_thrown groups seen row Hh Hp); eauto.
Qed.

Lemma groupBy_spec data :
  match groupBy memberText data key with
  | Returned groups =>
    Forall plain data
    /\ holds groups data
    /\ NoDup (map fst groups)
    /\ counted groups = List.length data
  | Thrown _ => Exists (fun row => ~ plain row) data
  end.
Proof.
  apply (loop_spec data JsObject.empty []).
  - intros k; reflexivity.
  - constructor.
  - reflexivity.
  - constructor.
Qed.

(** [groupBy] returns exactly when no record has a key that names an
    inherited member. *)
Lemma groupBy_returns_iff data :
  (exists groups, groupBy memberText data key = Returned groups)
  <-> forall row,
        In row data ->
        JsObject.inherited (groupKey memberText row key) = false.
Proof.
  pose proof (groupBy_spec data) as H.
  destruct (groupBy memberText data key) as [groups|e].
  - destruct H as (Hp & _); rewrite Forall_forall in Hp.
    split; eauto.
  - apply Exists_exists in H; destruct H as (row & Hin & Hrow).
    split; [intros [groups Hg]; discriminate|].
    intros Hall; elim Hrow; apply Hall, Hin.
Qed.

Lemma groupBy_thrown_iff data :
  groupBy memberText data key = Thrown TypeError
  <-> exists row,
        In row data
        /\ JsObject.inherited (groupKey memberText row key) = true.
Proof.
  pose proof (groupBy_spec data) as H.
  destruct (groupBy memberText data key) as [groups|[]].
  - destruct H as (Hp & _); rewrite Forall_forall in Hp.
    split; [discriminate|].
    intros (row & Hin & Hrow); specialize (Hp row Hin).
    unfold plain, keyOf in Hp; congruence.
  - apply Exists_exists in H; destruct H as (row & Hin & Hrow).
    split; auto; intros _; exists row; split; auto.
    unfold plain, keyOf in Hrow.
    destruct (JsObject.inherited (groupKey memberText row key)); congruence.
Qed.

(** The groups of [groupBy]: the group of [k] is the list of the records
    whose key resolves to [k], in their order, and exists when there is
    one. *)
Lemma groupBy_get data groups k :
  groupBy memberText data key = Returned groups ->
  JsObject.get groups k
  = match recordsOfKey memberText data key k with
    | [] => None
    | rows => Some rows
    end.
Proof.
  intros Hg; pose proof (groupBy_spec data) as H; rewrite Hg in H.
  apply H.
Qed.

Lemma groupBy_NoDup_fst data groups :
  groupBy memberText data key = Returned groups -> NoDup (map fst groups).
Proof.
  intros Hg; pose proof (groupBy_spec data) as H; rewrite Hg in H.
  apply H.
Qed.




(** A record of [data] is in the group of its key. *)
Lemma groupBy_member data groups row :
  groupBy memberText data key = Returned groups ->
  In row data ->
  exists rows,
    JsObject.get groups (groupKey memberText row key) = Some rows
    /\ In row rows.
Proof.
  intros Hg Hin; rewrite (groupBy_get data groups _ Hg).
  assert (In row (recordsOfKey memberText data key
                    (groupKey memberText row key))) as H
      by (apply recordsOfKey_in; auto).
  destruct (recordsOfKey memberText data key (groupKey memberText row key))
    as [|r rs]; [destruct H | eauto].
Qed.


(** Every group has the key of one of the records. *)
Lemma groupBy_key data groups k rows :
  groupBy memberText data key = Returned groups ->
  JsObject.get groups k = Some rows ->
  exists r, In r data /\ groupKey memberText r key = k.
Proof.
  intros Hg Hk; rewrite (groupBy_get data groups _ Hg) in Hk.
  destruct (recordsOfKey memberText data key k) as [|r rs] eqn:E;
    [discriminate|].
  exists r; apply recordsOfKey_in; rewrite E; simpl; auto.
Qed.

End GroupBy.



(** A record without a status is grouped under its name, and one that has
    no name either under ["Unknown"]. *)
Example unnamed_record_is_unknown :
  forall memberText,
    groupBy memberText [Samples.noStatus; Samples.anonymous] "Deal Status"
    = Returned
        [("Borealis", [Samples.noStatus]); ("Unknown", [Samples.anonymous])].
Proof. reflexivity. Qed.

(** A record whose sector is the text ["constructor"]: [groups[val]] is the
    inherited [Object], and no grouping is made. *)
Example inherited_name_is_no_group :
  forall memberText,
    groupBy memberText
      [Samples.noStatus;
       [("_id", VStr "5"); ("_name", VStr "Acme");
        ("Deal Status", VStr "constructor")]]
      "Deal Status"
    = Thrown TypeError.
Proof. reflexivity. Qed.

(** C10, as the code has it.  The grouping key is decided by truthiness, not
    by the presence of the property: a record whose value in the grouping
    column is null, undefined or the empty string is in the group of its
    display name (of ["Unknown"] when the display name is falsy too), and a
    record whose value is a non-empty string, ["0"] included, is in the group
    of that value; a member the record inherits under the name of the
    grouping column is truthy as well, and the record is in the group of the
    text of that member.  Every group key is the key one of the records
    resolves to.  A record whose key resolves to the name of a member
    inherited from [Object.prototype] makes [groupBy] throw: no grouping
    has such a key. *)
Theorem group_key_by_truthiness memberText data key row :
  In row data ->
  (JsObject.inherited (groupKey memberText row key) = true ->
   groupBy memberText data key = Thrown TypeError)
  /\ forall groups,
       groupBy memberText data key = Returned groups ->
       (forall s,
          JsObject.get row key = Some (VStr s) ->
          s <> EmptyString ->
          exists rows, JsObject.get groups s = Some rows /\ In row rows)
       /\ (readsFalsy row key = true ->
           exists rows,
             JsObject.get groups (nameOr row "Unknown") = Some rows
             /\ In row rows)
       /\ (JsObject.get row key = None ->
           JsObject.inherited key = true ->
           exists rows,
             JsObject.get groups (memberText key) = Some rows /\ In row rows)
       /\ (forall k rows,
             JsObject.get groups k = Some rows ->
             JsObject.inherited k = false
             /\ exists r, In r data /\ groupKey memberText r key = k).
Proof.
  intros Hin; split.
  - intros Hi; apply groupBy_thrown_iff; eauto.
  - intros groups Hg.
    destruct (groupBy_member _ _ _ _ row Hg Hin) as (rows & Hr & Hrow).
    split; [|split; [|split]].
    + intros s Hs Hne; exists rows; split; auto.
      rewrite <- Hr; f_equal; unfold groupKey; rewrite Hs.
      destruct (String.eqb s EmptyString) eqn:E; auto.
      apply String.eqb_eq in E; contradiction.
    + intros H; exists rows; split; auto.
      rewrite <- Hr; f_equal; unfold groupKey, readsFalsy, truthy in *.
      destruct (JsObject.get row key) as [[|s]|]; auto.
      * destruct (String.eqb s EmptyString); [auto | discriminate].
      * destruct (JsObject.inherited key); [discriminate | auto].
    + intros Hn Hi; exists rows; split; auto.
      rewrite <- Hr; f_equal; unfold groupKey; now rewrite Hn, Hi.
    + intros k rows' Hk.
      destruct (groupBy_key _ _ _ _ _ _ Hg Hk) as (r & Hr' & Hk').
      split; [|eauto].
      subst k.
      apply (proj1 (groupBy_returns_iff memberText key data)); eauto.
Qed.

Lemma group_key_by_truthiness_witness :
  let data := [Samples.zeroProbability; Samples.noStatus] in
  let groups :=
    [("Acme", [Samples.zeroProbability]); ("Borealis", [Samples.noStatus])] in
  groupBy Samples.v8Text data "Deal Status" = Returned groups
  /\ (forall s,
        JsObject.get Samples.noStatus "Deal Status" = Some (VStr s) ->
        s <> EmptyString ->
        exists rows,
          JsObject.get groups s = Some rows /\ In Samples.noStatus rows)
  /\ (readsFalsy Samples.noStatus "Deal Status" = true ->
      exists rows,
        JsObject.get groups (nameOr Samples.noStatus "Unknown") = Some rows
        /\ In Samples.noStatus rows)
  /\ (JsObject.get Samples.noStatus "Deal Status" = None ->
      JsObject.inherited "Deal Status" = true ->
      exists rows,
        JsObject.get groups (Samples.v8Text "Deal Status") = Some rows
        /\ In Samples.noStatus rows)
  /\ (forall k rows,
        JsObject.get groups k = Some rows ->
        JsObject.inherited k = false
        /\ exists r,
             In r data /\ groupKey Samples.v8Text r "Deal Status" = k).
Proof.
  intros data groups.
  split; [reflexivity|].
  apply (proj2 (group_key_by_truthiness Samples.v8Text data "Deal Status"
                  Samples.noStatus ltac:(simpl; auto))).
  reflexivity.
Defined.

(** C10, as it is stated, fails for the string ["0"]: it is not falsy.  The
    record [zeroProbability] has the value ["0"] in the grouping column and
    the display name ["Acme"]; it is grouped under ["0"], and there is no
    group of its display name. *)
Lemma zero_string_is_a_group_key :
  JsObject.get Samples.zeroProbability "Closure Probability" = Some (VStr "0")
  /\ nameOr Samples.zeroProbability "Unknown" = "Acme"
  /\ groupBy Samples.v8Text [Samples.zeroProbability] "Closure Probability"
     = Returned [("0", [Samples.zeroProbability])]
  /\ JsObject.get [("0", [Samples.zeroProbability])]
       (nameOr Samples.zeroProbability "Unknown") = None
  /\ groupKey Samples.v8Text Samples.zeroProbability "Closure Probability"
     <> nameOr Samples.zeroProbability "Unknown".
Proof. repeat split; discriminate. Qed.

(** ** Malformed snapshots *)




(** A snapshot without its item list makes [cleanBoardData] throw. *)
Example missing_items_throws :
  cleanBoardData Samples.noItemsBoard = Thrown TypeError.
Proof. reflexivity. Qed.

(** ** The keys of a cleaned record *)

Lemma in_nonIdentityKeys (row : Row) k :
  In k (nonIdentityKeys row)
  <-> In k (map fst row) /\ startsWith k "_" = false.
Proof.
  unfold nonIdentityKeys, nonIdentityEntries.
  rewrite in_map_iff; split.
  - intros ([k' v] & <- & Hin); simpl.
    rewrite filter_In, JsObjectFacts.in_entries in Hin; simpl in Hin.
    destruct Hin as [Hin Hs]; split.
    + now apply (in_map fst) in Hin.
    + now apply negb_true_iff.
  - rewrite in_map_iff; intros (([k' v] & <- & Hin) & Hs); simpl in *.
    exists (k', v); split; auto.
    rewrite filter_In, JsObjectFacts.in_entries; simpl.
    now rewrite Hs.
Qed.

Lemma buildRow_fold_keys colMap cvs : forall (init : Row) k,
  In k (map fst
          (fold_left
             (fun row cv =>
                JsObject.set row (resolveTitle colMap (cv_id cv))
                  (cleanValue (cv_text cv) (resolveTitle colMap (cv_id cv))))
             cvs init))
  <-> In k (map fst init)
      \/ exists cv, In cv cvs /\ resolveTitle colMap (cv_id cv) = k.
Proof.
  induction cvs as [|cv rest IH]; intros init k; simpl.
  - split; [auto | intros [H | (cv & [] & _)]; auto].
  - rewrite IH, JsObjectFacts.in_keys_set; split.
    + intros [[-> | H] | (cv' & Hin & E)]; eauto.
    + intros [H | (cv' & [-> | Hin] & E)]; eauto.
Qed.

Lemma buildRow_keys colMap item k :
  In k (map fst (buildRow colMap item))
  <-> k = "_id" \/ k = "_name"
      \/ exists cv,
           In cv (column_values item) /\ resolveTitle colMap (cv_id cv) = k.
Proof.
  unfold buildRow; rewrite buildRow_fold_keys; simpl.
  intuition.
Qed.








(** An item that carries a field for every column has every title as a key:
    the first record of the sample deals board. *)
Example full_item_has_every_title :
  wellTitled Samples.dealsColumns
  /\ Forall (carriesEveryColumn Samples.dealsColumns)
       (firstn 2 Samples.dealsItems)
  /\ map nonIdentityKeys (data (Samples.cleaned Samples.dealsBoard))
     = [columns (Samples.cleaned Samples.dealsBoard);
        columns (Samples.cleaned Samples.dealsBoard)].
Proof.
  assert (forall cvs,
             map cv_id cvs = ["c1"; "c2"; "c3"; "c4"] ->
             forall id,
               In id (map cv_id cvs)
               <-> exists c,
                     In c Samples.dealsColumns
                     /\ col_id c = id /\ col_title c <> "Name") as Hfour.
  { intros cvs -> id; split.
    - intros [<- | [<- | [<- | [<- | []]]]];
        [exists (Samples.col "c1" "Deal Status")
        |exists (Samples.col "c2" "Sector")
        |exists (Samples.col "c3" "Deal Value")
        |exists (Samples.col "c4" "Created Date")];
        (split; [simpl; tauto | split; [reflexivity | discriminate]]).
    - intros (c & Hc & <- & Hn); simpl in Hc.
      destruct Hc as [<- | [<- | [<- | [<- | [<- | []]]]]]; simpl; tauto. }
  split; [|split].
  - split.
    + repeat constructor; simpl; intuition discriminate.
    + repeat (apply Forall_cons; [split; [discriminate | reflexivity]|]).
      apply Forall_nil.
  - apply Forall_cons; [|apply Forall_cons; [|apply Forall_nil]];
      (intros id; apply Hfour; reflexivity).
  - vm_compute; reflexivity.
Qed.

(** ** Header rows *)

Lemma in_set_inv {V : Type} (o : JsObject.t V) k v k' v' :
  In (k', v') (JsObject.set o k v) -> (k' = k /\ v' = v) \/ In (k', v') o.
Proof.
  induction o as [|[k0 v0] rest IH]; simpl.
  - intros [[= <- <-] | []]; auto.
  - destruct (String.eqb k0 k) eqn:E; simpl.
    + apply String.eqb_eq in E; subst k0.
      intros [[= <- <-] | H]; auto.
    + intros [H | H]; auto.
      destruct (IH H); auto.
Qed.

Lemma buildRow_fold_values colMap cvs : forall (init : Row) k v,
  In (k, v)
     (fold_left
        (fun row cv =>
           JsObject.set row (resolveTitle colMap (cv_id cv))
             (cleanValue (cv_text cv) (resolveTitle colMap (cv_id cv))))
        cvs init) ->
  In (k, v) init \/ exists text, v = cleanValue text k.
Proof.
  induction cvs as [|cv rest IH]; intros init k v; simpl; auto.
  intros H; destruct (IH _ _ _ H) as [H' | H']; auto.
  destruct (in_set_inv _ _ _ _ _ H') as [[-> ->] | H'']; eauto.
Qed.

Lemma buildRow_fold_NoDup colMap cvs : forall (init : Row),
  NoDup (map fst init) ->
  NoDup (map fst
           (fold_left
              (fun row cv =>
                 JsObject.set row (resolveTitle colMap (cv_id cv))
                   (cleanValue (cv_text cv) (resolveTitle colMap (cv_id cv))))
              cvs init)).
Proof.
  induction cvs as [|cv rest IH]; intros init H; simpl; auto.
  apply IH, JsObjectFacts.NoDup_keys_set, H.
Qed.

Lemma buildRow_NoDup colMap item :
  NoDup (map fst (buildRow colMap item)).
Proof.
  apply buildRow_fold_NoDup; simpl.
  repeat constructor; simpl; intuition discriminate.
Qed.

(** A cleaned value is never the empty string. *)
Lemma cleanValue_untitled text : cleanValue text EmptyString <> VStr EmptyString.
Proof.
  unfold cleanValue; destruct text as [|s]; [discriminate|].
  destruct (String.eqb s EmptyString); [discriminate|].
  destruct (String.eqb s "#VALUE!"); [discriminate|].
  destruct (String.eqb (trim s) EmptyString) eqn:E; [discriminate|].
  simpl; intros [= H]; rewrite H in E; discriminate.
Qed.

Lemma in_nonIdentityEntries (row : Row) k v :
  In (k, v) (nonIdentityEntries row)
  <-> In (k, v) row /\ startsWith k "_" = false.
Proof.
  unfold nonIdentityEntries.
  rewrite filter_In, JsObjectFacts.in_entries; simpl.
  now rewrite negb_true_iff.
Qed.

Lemma isHeader_iff (row : Row) :
  NoDup (map fst row) ->
  isHeader row = true
  <-> exists k,
        startsWith k "_" = false /\ JsObject.get row k = Some (VStr k).
Proof.
  intros Hnd; unfold isHeader; rewrite existsb_exists; split.
  - intros ([k v] & Hin & He).
    apply in_nonIdentityEntries in Hin; destruct Hin as [Hin Hs].
    unfold equalsOwnTitle in He; simpl in He.
    destruct v as [|s]; [discriminate|].
    apply String.eqb_eq in He; subst s.
    exists k; split; auto.
    now apply JsObjectFacts.in_get.
  - intros (k & Hs & Hg).
    exists (k, VStr k); split.
    + apply in_nonIdentityEntries; split; auto.
      now apply JsObjectFacts.get_in.
    + unfold equalsOwnTitle; simpl; apply String.eqb_refl.
Qed.

(** On the flat object of an item the two drop rules exclude each other. *)
Lemma built_header_not_empty colMap item :
  isHeader (buildRow colMap item) = true ->
  allEmpty (buildRow colMap item) = false.
Proof.
  intros H; apply (isHeader_iff _ (buildRow_NoDup colMap item)) in H.
  destruct H as (k & Hs & Hg).
  apply JsObjectFacts.get_in in Hg.
  destruct (allEmpty (buildRow colMap item)) eqn:E; auto.
  unfold allEmpty in E; rewrite forallb_forall in E.
  assert (isMissing (VStr k) = true) as Hm.
  { apply (E (k, VStr k)), in_nonIdentityEntries; auto. }
  simpl in Hm; apply String.eqb_eq in Hm; subst k.
  unfold buildRow in Hg.
  apply buildRow_fold_values in Hg.
  destruct Hg as [[H | [H | []]] | (text & H)]; try discriminate.
  symmetry in H; now apply cleanValue_untitled in H.
Qed.


Lemma judge_header_built colMap item :
  judge (buildRow colMap item) = DropHeader
  <-> isHeader (buildRow colMap item) = true.
Proof.
  unfold judge; split.
  - destruct (_ && _); [discriminate|].
    destruct (isHeader _); auto; discriminate.
  - intros H; rewrite (built_header_not_empty _ _ H), andb_false_r, H; auto.
Qed.

Lemma filter_split_length {A : Type} (f : A -> bool) (l : list A) :
  List.length (filter f l) + List.length (filter (fun x => negb (f x)) l)
  = List.length l.
Proof.
  induction l as [|x rest IH]; simpl; auto.
  destruct (f x); simpl; lia.
Qed.

Lemma cleanBoardData_issues boardData cols items board :
  bd_columns boardData = Some cols ->
  bd_items boardData = Some items ->
  cleanBoardData boardData = Returned board ->
  qualityIssues board
  = (fs_issues
       (snd (filterRows (map (buildRow (buildColMap cols)) items)
               {| fs_removed := 0; fs_issues := [] |}))
     ++ summaryNotes (removedRows (stats board)) (missingFields (stats board))
          (totalFields (stats board)))%list.
Proof.
  intros Hc Hi; unfold cleanBoardData; rewrite Hc, Hi.
  destruct (filterRows _ _) as [cleaned st] eqn:E.
  intros [= <-]; simpl; unfold summaryNotes.
  destruct (0 <? fs_removed st)%nat; destruct (0 <? countMissing cleaned)%nat;
    simpl; rewrite <- ?app_assoc, ?app_nil_r; reflexivity.
Qed.



(** The sample of the specification: the item ["Item"], whose only value is
    the string ["Status"] in the column titled ["Status"], is dropped with
    one note that names it; so is the unnamed item 3, which the note calls
    ["empty"]; the unnamed, empty item 4 is dropped without a note. *)
Example header_board_cleaned :
  exists board,
    cleanBoardData Samples.headerBoard = Returned board
    /\ data board
       = [[("_id", VStr "1"); ("_name", VStr "WO-1"); ("Status", VStr "Done")]]
    /\ removedRows (stats board) = 3
    /\ qualityIssues board
       = ["Removed embedded header row (item: " ++ dquote ++ "Item" ++ dquote
          ++ ")";
          "Removed embedded header row (item: " ++ dquote ++ "empty" ++ dquote
          ++ ")";
          "Removed 3 junk/empty/header rows"].
Proof. eexists; split; [vm_compute; reflexivity|]; repeat split. Qed.

(** ** Date normalization *)

Lemma separator_not_digit c : isSeparator c = true -> isDigit c = false.
Proof.
  unfold isSeparator, isDigit; intros H.
  apply orb_true_iff in H; destruct H as [H | H];
    apply N.eqb_eq in H; rewrite H; reflexivity.
Qed.

Ltac split_andb :=
  repeat match goal with
         | H : _ && _ = true |- _ => apply andb_prop in H; destruct H
         end.

Ltac use_tests :=
  repeat match goal with
         | H : isDigit ?c = _ |- context [isDigit ?c] => rewrite H
         | H : isSeparator ?c = _ |- context [isSeparator ?c] => rewrite H
         end.

Ltac short_string s :=
  destruct s as [|? [|? [|? [|? [|? ?]]]]];
  simpl in *; try discriminate; try lia.

Lemma dayFirst_match d m y sep1 sep2 :
  isDayMonthYear d m y sep1 sep2 ->
  matchDMY (dayFirstText d m y sep1 sep2) = Some (d, m, y).
Proof.
  intros (Hd & Hld & Hm & Hlm & Hy & Hly & Hs1 & Hs2).
  pose proof (separator_not_digit _ Hs1) as Hn1.
  pose proof (separator_not_digit _ Hs2) as Hn2.
  unfold allDigits, dayFirstText in *.
  short_string y.
  destruct Hld as [Hld | Hld]; destruct Hlm as [Hlm | Hlm];
    short_string d; short_string m;
    split_andb; unfold matchDMY, oneOrTwoDigits, fourDigitsToEnd; simpl;
    use_tests; simpl; use_tests; reflexivity.
Qed.

Lemma dayFirst_not_iso d m y sep1 sep2 :
  isDayMonthYear d m y sep1 sep2 ->
  isoPrefix (dayFirstText d m y sep1 sep2) = false.
Proof.
  intros (Hd & Hld & Hm & Hlm & Hy & Hly & Hs1 & Hs2).
  pose proof (separator_not_digit _ Hs1) as Hn1.
  unfold allDigits, dayFirstText in *.
  short_string y.
  destruct Hld as [Hld | Hld]; destruct Hlm as [Hlm | Hlm];
    short_string d; short_string m; unfold isoPrefix; simpl; auto.
  rewrite Hn1; now rewrite !andb_false_r.
Qed.

Lemma oneOrTwoDigits_spec s g rest :
  oneOrTwoDigits s = Some (g, rest) ->
  s = g ++ rest
  /\ allDigits g = true
  /\ (String.length g = 1 \/ String.length g = 2).
Proof.
  unfold oneOrTwoDigits, allDigits.
  destruct s as [|a r]; [discriminate|].
  destruct (isDigit a) eqn:Ha; [|discriminate].
  destruct r as [|b r'].
  - intros [= <- <-]; simpl; rewrite Ha; auto.
  - destruct (isDigit b) eqn:Hb; intros [= <- <-]; simpl;
      rewrite Ha, ?Hb; auto.
Qed.

Lemma fourDigitsToEnd_spec s :
  fourDigitsToEnd s = true -> allDigits s = true /\ String.length s = 4.
Proof.
  unfold fourDigitsToEnd, allDigits.
  destruct s as [|a [|b [|c [|d [|e r]]]]]; simpl; try discriminate.
  intros H; split; auto.
  split_andb; use_tests; reflexivity.
Qed.

Lemma matchDMY_spec str d m y :
  matchDMY str = Some (d, m, y) ->
  exists sep1 sep2,
    isDayMonthYear d m y sep1 sep2 /\ str = dayFirstText d m y sep1 sep2.
Proof.
  unfold matchDMY.
  destruct (oneOrTwoDigits str) as [[g1 [|c1 r1]]|] eqn:E1; try discriminate.
  destruct (isSeparator c1) eqn:Hs1; [|discriminate].
  destruct (oneOrTwoDigits r1) as [[g2 [|c2 r2]]|] eqn:E2; try discriminate.
  destruct (isSeparator c2) eqn:Hs2; [|discriminate].
  destruct (fourDigitsToEnd r2) eqn:E3; [|discriminate].
  simpl; intros [= <- <- <-].
  apply oneOrTwoDigits_spec in E1, E2.
  apply fourDigitsToEnd_spec in E3.
  destruct E1 as (-> & ? & ?), E2 as (-> & ? & ?), E3 as (? & ?).
  exists c1, c2; split; [|reflexivity].
  unfold isDayMonthYear; tauto.
Qed.

Lemma dayFirst_head d m y sep1 sep2 :
  isDayMonthYear d m y sep1 sep2 ->
  exists c rest, isDigit c = true /\ dayFirstText d m y sep1 sep2 = String c rest.
Proof.
  intros (Hd & Hld & _); unfold dayFirstText, allDigits in *.
  destruct d as [|c r]; simpl in *; [lia|].
  apply andb_prop in Hd; destruct Hd; eauto.
Qed.

Lemma normalizeDate_dayFirst d m y sep1 sep2 :
  isDayMonthYear d m y sep1 sep2 ->
  normalizeDate (dayFirstText d m y sep1 sep2)
  = VStr (y ++ "-" ++ padStart m 2 "0" ++ "-" ++ padStart d 2 "0").
Proof.
  intros H; unfold normalizeDate.
  rewrite (dayFirst_not_iso _ _ _ _ _ H), (dayFirst_match _ _ _ _ _ H).
  destruct (dayFirst_head _ _ _ _ _ H) as (c & rest & _ & ->); reflexivity.
Qed.

Lemma normalizeDate_other str :
  str <> EmptyString ->
  isoPrefix str = false ->
  (forall d m y sep1 sep2,
      isDayMonthYear d m y sep1 sep2 -> str <> dayFirstText d m y sep1 sep2) ->
  normalizeDate str = VStr str.
Proof.
  intros Hne Hiso Hshape; unfold normalizeDate.
  destruct (String.eqb str EmptyString) eqn:E.
  { apply String.eqb_eq in E; contradiction. }
  rewrite Hiso.
  destruct (matchDMY str) as [[[d m] y]|] eqn:Em; auto.
  destruct (matchDMY_spec _ _ _ _ Em) as (s1 & s2 & H & ->).
  exfalso; exact (Hshape _ _ _ _ _ H eq_refl).
Qed.

(** [cleanValue] on a date column hands the trimmed text to
    [normalizeDate]. *)
Lemma cleanValue_date raw title :
  includes (toLowerCase title) "date" = true ->
  raw <> EmptyString ->
  raw <> "#VALUE!" ->
  trim raw <> EmptyString ->
  cleanValue (VStr raw) title = normalizeDate (trim raw).
Proof.
  intros Ht H1 H2 H3; unfold cleanValue.
  apply String.eqb_neq in H1, H2, H3.
  now rewrite H1, H2, H3, Ht.
Qed.

(** C4.  Dates are read day first.  [normalizeDate] turns a text of the
    shape [D[D] sep M[M] sep YYYY], with separators [/] or [-], into
    [YYYY-MM-DD] with the first group as the day and the second as the month,
    both padded to two digits, and [cleanValue] does so for the trimmed text
    of a cell in a column whose title contains "date" (in any case); so
    ["05/03/2024"] under ["Created Date"] becomes ["2024-03-05"].  A non-empty
    text that has neither that shape nor the ISO prefix comes back from
    [normalizeDate] as it is, and from [cleanValue] trimmed and otherwise as
    it is (the error marker, which is null, apart); both are total functions:
    no text makes them throw. *)
Theorem date_normalization :
  (forall d m y sep1 sep2,
      isDayMonthYear d m y sep1 sep2 ->
      normalizeDate (dayFirstText d m y sep1 sep2)
      = VStr (y ++ "-" ++ padStart m 2 "0" ++ "-" ++ padStart d 2 "0"))
  /\ (forall title raw d m y sep1 sep2,
        includes (toLowerCase title) "date" = true ->
        isDayMonthYear d m y sep1 sep2 ->
        trim raw = dayFirstText d m y sep1 sep2 ->
        cleanValue (VStr raw) title
        = VStr (y ++ "-" ++ padStart m 2 "0" ++ "-" ++ padStart d 2 "0"))
  /\ cleanValue (VStr "05/03/2024") "Created Date" = VStr "2024-03-05"
  /\ (forall str,
        str <> EmptyString ->
        isoPrefix str = false ->
        (forall d m y sep1 sep2,
            isDayMonthYear d m y sep1 sep2 ->
            str <> dayFirstText d m y sep1 sep2) ->
        normalizeDate str = VStr str)
  /\ (forall title raw,
        includes (toLowerCase title) "date" = true ->
        raw <> "#VALUE!" ->
        trim raw <> EmptyString ->
        isoPrefix (trim raw) = false ->
        (forall d m y sep1 sep2,
            isDayMonthYear d m y sep1 sep2 ->
            trim raw <> dayFirstText d m y sep1 sep2) ->
        cleanValue (VStr raw) title = VStr (trim raw)).
Proof.
  split; [exact normalizeDate_dayFirst|].
  split; [|split; [reflexivity|split; [exact normalizeDate_other|]]].
  - intros title raw d m y sep1 sep2 Ht Hshape Htrim.
    destruct (dayFirst_head _ _ _ _ _ Hshape) as (c & rest & Hc & Hhead).
    rewrite cleanValue_date, Htrim; auto.
    + now apply normalizeDate_dayFirst.
    + intros ->; rewrite Hhead in Htrim; discriminate.
    + intros ->; rewrite Hhead in Htrim.
      vm_compute in Htrim; injection Htrim as <- _; discriminate.
    + rewrite Htrim, Hhead; discriminate.
  - intros title raw Ht H1 H2 Hiso Hshape.
    rewrite cleanValue_date; auto.
    + now apply normalizeDate_other.
    + intros ->; apply H2; reflexivity.
Qed.

Lemma date_normalization_witness :
  normalizeDate "7-11/2023" = VStr "2023-11-07"
  /\ cleanValue (VStr " 7-11/2023 ") "Due DATE" = VStr "2023-11-07"
  /\ normalizeDate "#VALUE!" = VStr "#VALUE!"
  /\ cleanValue (VStr "next week") "Due DATE" = VStr "next week".
Proof.
  assert (isDayMonthYear "7" "11" "2023" "-"%char "/"%char) as Hshape.
  { unfold isDayMonthYear; simpl; auto 10. }
  assert (forall c1 rest1 c2 rest2,
             isDigit c1 = false ->
             forall d m y sep1 sep2,
               isDayMonthYear d m y sep1 sep2 ->
               String c1 rest1 = String c2 rest2 ->
               String c2 rest2 <> dayFirstText d m y sep1 sep2) as Hother.
  { intros c1 rest1 c2 rest2 Hc d m y sep1 sep2 H E1 E2.
    destruct (dayFirst_head _ _ _ _ _ H) as (c & rest & Hd & Hhead).
    rewrite Hhead in E2; injection E1 as <- _; injection E2 as <- _.
    rewrite Hd in Hc; discriminate. }
  split; [|split; [|split]].
  - exact (proj1 date_normalization "7" "11" "2023" "-"%char "/"%char Hshape).
  - apply (proj1 (proj2 date_normalization) "Due DATE" " 7-11/2023 "
             "7" "11" "2023" "-"%char "/"%char);
      [reflexivity | exact Hshape | reflexivity].
  - apply (proj1 (proj2 (proj2 (proj2 date_normalization))) "#VALUE!").
    + discriminate.
    + reflexivity.
    + intros d m y sep1 sep2 H.
      apply (Hother "#"%char "VALUE!" "#"%char "VALUE!" eq_refl _ _ _ _ _ H).
      reflexivity.
  - apply (proj2 (proj2 (proj2 (proj2 date_normalization)))
             "Due DATE" "next week").
    + reflexivity.
    + discriminate.
    + discriminate.
    + reflexivity.
    + intros d m y sep1 sep2 H.
      apply (Hother "n"%char "ext week" "n"%char "ext week" eq_refl
               _ _ _ _ _ H).
      reflexivity.
Defined.

(** The ISO prefix is kept verbatim, and takes precedence. *)
Example date_iso_prefix :
  cleanValue (VStr "2024-04-01T09:30:00Z") "Created Date" = VStr "2024-04-01".
Proof. reflexivity. Qed.

(** ** Stripping currency signs and separators *)

Lemma strippedWidth_ascii c r :
  (code c <? 128)%N = true ->
  strippedWidth (String c r) = if strippedAscii c then 1 else 0.
Proof.
  destruct c as [b0 b1 b2 b3 b4 b5 b6 b7].
  destruct b7; [destruct b0, b1, b2, b3, b4, b5, b6; discriminate|].
  intros _.
  destruct r as [|x [|y r]];
    destruct b0, b1, b2, b3, b4, b5, b6; reflexivity.
Qed.

Lemma dropMatching_cons width c r :
  dropMatching width 0 (String c r)
  = match width (String c r) with
    | O => String c (dropMatching width 0 r)
    | S k => dropMatching width k r
    end.
Proof. reflexivity. Qed.

(** The ASCII characters in front of a text are filtered one by one. *)
Lemma stripped_ascii_app a b :
  allAscii a = true -> stripped (a ++ b) = withoutStripped a ++ stripped b.
Proof.
  induction a as [|c r IH]; intros H; [reflexivity|].
  unfold allAscii in H; simpl in H.
  apply andb_prop in H; destruct H as [Hc Hr].
  change (String c r ++ b) with (String c (r ++ b)).
  unfold stripped at 1.
  rewrite dropMatching_cons, (strippedWidth_ascii c (r ++ b) Hc).
  simpl withoutStripped.
  destruct (strippedAscii c); [apply IH, Hr|].
  change (String c (withoutStripped r) ++ stripped b)
    with (String c (withoutStripped r ++ stripped b)).
  f_equal; apply IH, Hr.
Qed.

Lemma stripped_rupee s : stripped (rupee ++ s) = stripped s.
Proof. reflexivity. Qed.

Lemma cleanValue_number raw title :
  numericTitle title = true ->
  raw <> EmptyString ->
  raw <> "#VALUE!" ->
  trim raw <> EmptyString ->
  cleanValue (VStr raw) title = normalizeNumber (trim raw).
Proof.
  unfold numericTitle; intros Ht H1 H2 H3.
  apply andb_prop in Ht; destruct Ht as [Hd Hn].
  apply negb_true_iff in Hd.
  unfold cleanValue.
  apply String.eqb_neq in H1, H2, H3.
  now rewrite H1, H2, H3, Hd, Hn.
Qed.

(** ** The completeness statistic *)








(** The sample board of 40 fields has 6 of them missing. *)
Example forty_fields_six_missing :
  totalFields (stats (Samples.cleaned Samples.fortyFields)) = 40
  /\ missingFields (stats (Samples.cleaned Samples.fortyFields)) = 6
  /\ completeness (stats (Samples.cleaned Samples.fortyFields)) = "85.0".
Proof. repeat split. Qed.


(** ** Facts about binary64 rounding and the order of scores *)

Module JsNumberFacts.
Local Open Scope Z_scope.

Lemma shr_1_half mrs : 0 <= shr_m mrs -> shr_m (shr_1 mrs) = shr_m mrs / 2.
Proof.
  destruct mrs as [m r s]; simpl.
  destruct m as [|[p|p|]|p]; simpl; intros H; try reflexivity; try lia.
  - apply Z.div_unique with (r := 1); lia.
  - apply Z.div_unique with (r := 0); lia.
Qed.

Lemma pow2_xO p : 2 ^ Zpos p~0 = 2 ^ Zpos p * 2 ^ Zpos p.
Proof.
  replace (Zpos p~0) with (Zpos p + Zpos p) by lia.
  apply Z.pow_add_r; lia.
Qed.

Lemma pow2_xI p : 2 ^ Zpos p~1 = 2 * (2 ^ Zpos p * 2 ^ Zpos p).
Proof.
  replace (Zpos p~1) with (Z.succ (Zpos p~0)) by lia.
  rewrite Z.pow_succ_r, pow2_xO by lia; reflexivity.
Qed.

Lemma shr_iter_div p : forall mrs,
  0 <= shr_m mrs ->
  shr_m (iter_pos shr_1 p mrs) = shr_m mrs / 2 ^ Zpos p.
Proof.
  induction p as [p IH | p IH |]; intros mrs H; simpl iter_pos.
  - assert (0 < 2 ^ Zpos p) as Hp by (apply Z.pow_pos_nonneg; lia).
    assert (0 <= shr_m (shr_1 mrs)) as H1.
    { rewrite shr_1_half by auto; apply Z.div_pos; lia. }
    assert (0 <= shr_m (iter_pos shr_1 p (shr_1 mrs))) as H2.
    { rewrite IH by auto; apply Z.div_pos; auto. }
    rewrite IH, IH, shr_1_half by auto.
    rewrite !Z.div_div by lia.
    now rewrite pow2_xI.
  - assert (0 < 2 ^ Zpos p) as Hp by (apply Z.pow_pos_nonneg; lia).
    assert (0 <= shr_m (iter_pos shr_1 p mrs)) as H2.
    { rewrite IH by auto; apply Z.div_pos; auto. }
    rewrite IH, IH by auto.
    rewrite !Z.div_div by lia.
    now rewrite pow2_xO.
  - rewrite shr_1_half by auto; reflexivity.
Qed.

Lemma digits2_bound m :
  2 ^ (Zpos (digits2_pos m) - 1) <= Zpos m.
Proof.
  induction m as [m IH | m IH |]; simpl digits2_pos.
  - rewrite Pos2Z.inj_succ.
    replace (Z.succ (Zpos (digits2_pos m)) - 1) with (Z.succ (Zpos (digits2_pos m) - 1)) by lia.
    rewrite Z.pow_succ_r by lia. lia.
  - rewrite Pos2Z.inj_succ.
    replace (Z.succ (Zpos (digits2_pos m)) - 1) with (Z.succ (Zpos (digits2_pos m) - 1)) by lia.
    rewrite Z.pow_succ_r by lia. lia.
  - simpl; lia.
Qed.

Lemma shr_record_of_loc_m m l : shr_m (shr_record_of_loc m l) = m.
Proof. destruct l as [|[]]; reflexivity. Qed.

(** The exponent a right shift ends at is never below the least exponent. *)
Lemma shr_fexp_exponent m e l : -1074 <= snd (shr_fexp prec emax m e l).
Proof.
  unfold shr_fexp, shr, fexp, emin, prec, emax.
  destruct (Z.max (Zdigits2 m + e - 53) (3 - 1024 - 53) - e) eqn:E; simpl; lia.
Qed.

(** A positive mantissa at an exponent that is not below the least one stays
    positive. *)
Lemma shr_fexp_positive m e l :
  0 < m -> -1074 <= e -> 0 < shr_m (fst (shr_fexp prec emax m e l)).
Proof.
  intros Hm He.
  unfold shr_fexp, shr, fexp, emin, prec, emax.
  destruct (Z.max (Zdigits2 m + e - 53) (3 - 1024 - 53) - e) as [|q|q] eqn:E;
    simpl; rewrite ?shr_record_of_loc_m; auto.
  rewrite shr_iter_div by (rewrite shr_record_of_loc_m; lia).
  rewrite shr_record_of_loc_m.
  destruct m as [|p|p]; try lia.
  simpl Zdigits2 in E.
  pose proof (digits2_bound p) as Hd.
  assert (0 < 2 ^ Zpos q) as Hq by (apply Z.pow_pos_nonneg; lia).
  apply Z.div_str_pos; split; auto.
  apply Z.le_trans with (2 ^ (Zpos (digits2_pos p) - 1)); auto.
  apply Z.pow_le_mono_r; lia.
Qed.

Lemma round_nearest_even_positive m l : 0 < m -> 0 < round_nearest_even m l.
Proof.
  intros H; destruct l as [|[]]; simpl; try lia.
  destruct (Z.even m); lia.
Qed.

(** What rounding yields is finite with an exponent that is not below the
    least one, or is not finite. *)
Lemma binary_round_aux_exponent sx mx ex lx s m e :
  binary_round_aux prec emax sx mx ex lx = S754_finite s m e -> -1074 <= e.
Proof.
  unfold binary_round_aux.
  destruct (shr_fexp prec emax mx ex lx) as [mrs1 e1].
  pose proof (shr_fexp_exponent
                (round_nearest_even (shr_m mrs1) (loc_of_shr_record mrs1))
                e1 loc_Exact) as H.
  destruct (shr_fexp prec emax _ e1 loc_Exact) as [mrs2 e2]; simpl in H.
  destruct (shr_m mrs2); try discriminate.
  destruct (e2 <=? emax - prec); intros [= _ _ <-]; auto.
Qed.

(** Rounding a positive mantissa keeps the sign of the number. *)
Lemma binary_round_aux_positive sx mx ex lx :
  0 < mx -> -1074 <= ex ->
  isPositive (binary_round_aux prec emax sx mx ex lx) = negb sx.
Proof.
  intros Hm He; unfold binary_round_aux.
  pose proof (shr_fexp_positive mx ex lx Hm He) as H1.
  pose proof (shr_fexp_exponent mx ex lx) as E1.
  destruct (shr_fexp prec emax mx ex lx) as [mrs1 e1]; simpl in H1, E1.
  pose proof (shr_fexp_positive _ e1 loc_Exact
                (round_nearest_even_positive _ (loc_of_shr_record mrs1) H1) E1)
    as H2.
  destruct (shr_fexp prec emax _ e1 loc_Exact) as [mrs2 e2]; simpl in H2.
  destruct (shr_m mrs2); try lia.
  destruct (e2 <=? emax - prec); destruct sx; reflexivity.
Qed.

Lemma iter_xO_value d m : Zpos (Pos.iter xO m d) = Zpos m * 2 ^ Zpos d.
Proof.
  induction d as [|d IH] using Pos.peano_ind.
  - rewrite Z.pow_1_r; simpl; lia.
  - rewrite Pos.iter_succ, Pos2Z.inj_succ, Z.pow_succ_r by lia.
    rewrite Pos2Z.inj_xO, IH; lia.
Qed.

Lemma shl_align_value mx ex ez :
  ez <= ex -> Zpos (fst (shl_align mx ex ez)) = Zpos mx * 2 ^ (ex - ez).
Proof.
  intros H; unfold shl_align.
  destruct (ez - ex) as [|d|d] eqn:E; simpl; try lia.
  - replace (ex - ez) with 0 by lia; simpl; lia.
  - rewrite iter_xO_value. replace (ex - ez) with (Zpos d) by lia. reflexivity.
Qed.

Lemma shl_align_exponent mx ex ez :
  -1074 <= ex -> -1074 <= ez -> -1074 <= snd (shl_align mx ex ez).
Proof.
  intros; unfold shl_align; destruct (ez - ex); simpl; auto.
Qed.

Lemma binary_round_positive sx mx ex :
  -1074 <= ex -> isPositive (binary_round prec emax sx mx ex) = negb sx.
Proof.
  intros He; unfold binary_round.
  pose proof (shl_align_exponent mx ex
                (fexp prec emax (Zpos (digits2_pos mx) + ex)) He) as H.
  destruct (shl_align mx ex _) as [mz ez]; simpl in H.
  apply binary_round_aux_positive; [lia|].
  apply H; unfold fexp, emin, prec, emax; lia.
Qed.

Lemma binary_round_exponent sx mx ex s m e :
  binary_round prec emax sx mx ex = S754_finite s m e -> -1074 <= e.
Proof.
  unfold binary_round; destruct (shl_align mx ex _) as [mz ez].
  apply binary_round_aux_exponent.
Qed.

(** The sign of a rounded integer is the sign of the integer. *)
Lemma binary_normalize_positive M e :
  -1074 <= e ->
  isPositive (binary_normalize prec emax M e false) = (0 <? M).
Proof.
  intros He; destruct M as [|p|p]; simpl; auto;
    now rewrite binary_round_positive.
Qed.

Lemma ofDecimal_representable m q : representable (ofDecimal m q).
Proof.
  unfold ofDecimal, representable.
  destruct (0 <=? q).
  - unfold binary_normalize.
    destruct (Zpos m * 10 ^ q) as [|p|p]; auto.
    + destruct (binary_round prec emax false p 0) eqn:E; auto.
      eapply binary_round_exponent; eauto.
    + destruct (binary_round prec emax true p 0) eqn:E; auto.
      eapply binary_round_exponent; eauto.
  - unfold SFdiv.
    destruct (SFdiv_core_binary prec emax _ _ _ _) as [[mz ez] lz].
    destruct (binary_round_aux prec emax _ mz ez lz) eqn:E; auto.
    eapply binary_round_aux_exponent; eauto.
Qed.

Lemma SFopp_representable x : representable x -> representable (SFopp x).
Proof. destruct x; auto. Qed.

Lemma parseFloat_representable s : representable (parseFloat s).
Proof.
  unfold parseFloat.
  destruct (signOf (JsString.trimStart s)) as [neg s0].
  destruct (String.prefix "Infinity" s0); [exact I|].
  destruct (JsString.spanDigits s0) as [ip s1].
  destruct (match s1 with
            | String c r =>
              if (JsString.code c =? 46)%N then JsString.spanDigits r
              else (EmptyString, s1)
            | EmptyString => (EmptyString, s1)
            end) as [fp s2].
  destruct (append ip fp); [exact I|].
  destruct (JsString.digitsValue _) as [|m|m]; try exact I.
  destruct neg; [apply SFopp_representable|]; apply ofDecimal_representable.
Qed.

Lemma score_representable col row :
  representable (score col row) /\ isNaN (score col row) = false.
Proof.
  unfold score, numberOf.
  destruct (readProp row col) as [[|s]|]; simpl; auto.
  pose proof (parseFloat_representable s) as H.
  destruct (parseFloat s); simpl; auto.
Qed.

Lemma pow2_pos k : 0 <= k -> 0 < 2 ^ k.
Proof. intros; apply Z.pow_pos_nonneg; lia. Qed.

(** The sign of a difference of two numbers is the order of their ranks. *)
Lemma sub_positive x y :
  representable x -> representable y ->
  isNaN x = false -> isNaN y = false ->
  isPositive (sub x y) = extLt (rank y) (rank x).
Proof.
  destruct x as [sx | sx | | sx mx ex], y as [sy | sy | | sy my ey];
    simpl; intros Hx Hy Nx Ny; try discriminate;
    try (destruct sx; destruct sy; reflexivity);
    try (destruct sx; reflexivity); try (destruct sy; reflexivity).
  - (* zero, finite *)
    assert (0 < 2 ^ (ey + 1074)) by (apply pow2_pos; lia).
    destruct sy; cbn [negb]; symmetry; [apply Z.ltb_lt | apply Z.ltb_ge]; nia.
  - (* finite, zero *)
    assert (0 < 2 ^ (ex + 1074)) by (apply pow2_pos; lia).
    destruct sx; cbn [negb]; symmetry; [apply Z.ltb_ge | apply Z.ltb_lt]; nia.
  - (* finite, finite *)
    unfold sub, SFsub.
    rewrite binary_normalize_positive by lia.
    rewrite !shl_align_value by lia.
    set (ez := Z.min ex ey).
    assert (2 ^ (ex + 1074) = 2 ^ (ex - ez) * 2 ^ (ez + 1074)) as Ex.
    { rewrite <- Z.pow_add_r by lia; f_equal; lia. }
    assert (2 ^ (ey + 1074) = 2 ^ (ey - ez) * 2 ^ (ez + 1074)) as Ey.
    { rewrite <- Z.pow_add_r by lia; f_equal; lia. }
    rewrite Ex, Ey.
    assert (0 < 2 ^ (ez + 1074)) as Hc by (apply pow2_pos; lia).
    assert (0 < 2 ^ (ex - ez)) as Ha by (apply pow2_pos; lia).
    assert (0 < 2 ^ (ey - ez)) as Hb by (apply pow2_pos; lia).
    clear Ex Ey.
    generalize dependent (2 ^ (ez + 1074)).
    generalize dependent (2 ^ (ex - ez)).
    generalize dependent (2 ^ (ey - ez)).
    intros b Hb a Ha c Hc.
    destruct sx, sy; unfold cond_Zopp;
      match goal with
      | |- (0 <? ?u) = (?v <? ?w) =>
        destruct (Z.ltb_spec 0 u); destruct (Z.ltb_spec v w)
      end; auto; nia.
Qed.

End JsNumberFacts.

(** ** The order on ranks *)

Lemma extLt_asym a b : extLt a b = true -> extLt b a = false.
Proof.
  destruct a as [x | s], b as [y | s']; simpl.
  - rewrite Z.ltb_lt, Z.ltb_ge; lia.
  - now destruct s'.
  - now destruct s.
  - now destruct s, s'.
Qed.

(** "Not below" is transitive. *)
Lemma extLt_false_trans a b c :
  extLt a b = false -> extLt b c = false -> extLt a c = false.
Proof.
  destruct a as [x | s], b as [y | s'], c as [z | s'']; simpl;
    rewrite ?Z.ltb_ge; try lia;
    try (destruct s); try (destruct s'); try (destruct s'');
    simpl; auto; try discriminate.
Qed.

Lemma extLt_not_eq a b k :
  extLt a b = true -> extEqb a k = true -> extEqb b k = false.
Proof.
  destruct a as [x | s], b as [y | s'], k as [z | s'']; simpl; auto;
    try discriminate.
  - rewrite Z.ltb_lt, Z.eqb_eq, Z.eqb_neq; lia.
  - destruct s, s', s''; simpl; auto; discriminate.
Qed.

(** ** The stable sort *)

Section SortFacts.
Context {A : Type}.
Variable compareFn : A -> A -> number.
Variable key : A -> extended.

(** The comparison sends [x] behind [y] exactly when [x] ranks below [y]. *)
Hypothesis compare_positive :
  forall x y, isPositive (compareFn x y) = extLt (key x) (key y).

Let descending (a b : A) : Prop := extLt (key a) (key b) = false.

Lemma sortInsert_perm x l : Permutation (sortInsert compareFn x l) (x :: l).
Proof.
  induction l as [|y rest IH]; simpl; auto.
  destruct (isPositive (compareFn x y)); auto.
  rewrite IH; apply perm_swap.
Qed.

Lemma sort_perm l : Permutation (sort compareFn l) l.
Proof.
  induction l as [|x rest IH]; simpl; auto.
  rewrite sortInsert_perm; auto.
Qed.

Lemma sortInsert_sorted x l :
  StronglySorted descending l ->
  StronglySorted descending (sortInsert compareFn x l).
Proof.
  induction 1 as [|y rest Hsorted IH Hall]; simpl.
  - repeat constructor.
  - rewrite compare_positive.
    destruct (extLt (key x) (key y)) eqn:E.
    + constructor; auto.
      apply (Permutation_Forall (Permutation_sym (sortInsert_perm x rest))).
      constructor; auto.
      now apply extLt_asym.
    + constructor; [constructor; auto|].
      constructor; auto.
      revert Hall; apply Forall_impl; intros z Hz.
      eapply extLt_false_trans; eauto.
Qed.

Lemma sort_sorted l : StronglySorted descending (sort compareFn l).
Proof.
  induction l as [|x rest IH]; simpl; [constructor|].
  now apply sortInsert_sorted.
Qed.

Lemma sortInsert_stable k x l :
  filter (fun a => extEqb (key a) k) (sortInsert compareFn x l)
  = filter (fun a => extEqb (key a) k) (x :: l).
Proof.
  induction l as [|y rest IH]; simpl; auto.
  rewrite compare_positive.
  destruct (extLt (key x) (key y)) eqn:E; simpl; auto.
  rewrite IH; simpl.
  destruct (extEqb (key x) k) eqn:Ex; auto.
  now rewrite (extLt_not_eq _ _ _ E Ex).
Qed.

Lemma sort_stable k l :
  filter (fun a => extEqb (key a) k) (sort compareFn l)
  = filter (fun a => extEqb (key a) k) l.
Proof.
  induction l as [|x rest IH]; simpl; auto.
  rewrite sortInsert_stable; simpl; now rewrite IH.
Qed.

Lemma firstn_in n : forall (l : list A) x, In x (firstn n l) -> In x l.
Proof.
  induction n as [|n IH]; intros [|y rest] x; simpl; try tauto.
  intros [H | H]; auto.
Qed.

Lemma firstn_sorted n l :
  StronglySorted descending l -> StronglySorted descending (firstn n l).
Proof.
  intros H; revert n; induction H as [|y rest Hsorted IH Hall];
    intros [|n]; simpl; try constructor; auto.
  rewrite Forall_forall in *; intros z Hz.
  apply Hall; revert Hz; apply firstn_in.
Qed.

End SortFacts.

(** ** The order of the detail tables *)








(** Of the 25 sample deals the table keeps 20: the eight of value 2, the
    nine of value 1 and the first three of value 0, each group in its
    original order. *)
Example many_deals_table :
  map (fun row => nameOr row "-")
    (dealsTopRows Samples.manyDeals (allKeysOf Samples.manyDeals))
  = ["D2"; "D5"; "D8"; "D11"; "D14"; "D17"; "D20"; "D23";
     "D1"; "D4"; "D7"; "D10"; "D13"; "D16"; "D19"; "D22"; "D25";
     "D3"; "D6"; "D9"]
  /\ (forall memberText,
        firstn 3 (dealsTable memberText Samples.manyDeals
                    (allKeysOf Samples.manyDeals))
        = ["Name | Deal Value"; "D2 | 2"; "D5 | 2"]).
Proof. split; [|intros memberText]; vm_compute; reflexivity. Qed.

(** A board without records renders as its heading and one line. *)
Example empty_board_text :
  forall memberText localeCompare,
    dataToContext memberText localeCompare
      (Samples.cleaned Samples.unnamedBoard)
    = Returned ("## undefined" ++ nl ++ "No data available." ++ nl).
Proof. reflexivity. Qed.

(** The text for the cleaned sample board, a deals board: its table lists
    the deal of the larger value first. *)
Example deals_board_text :
  forall memberText localeCompare,
    dataToContext memberText localeCompare
      (Samples.cleaned Samples.dealsBoard)
    = Returned
        (concatLines
           (map (fun line => line ++ nl)
              ["## Deals (2 rows, 90.0% complete)";
               "Data notes: Removed embedded header row (item: " ++ dquote
               ++ "Deal Name" ++ dquote
               ++ "); Removed 2 junk/empty/header rows; "
               ++ "1 of 10 field values are missing/null (10.0%)";
               EmptyString;
               "### AGGREGATED SUMMARY";
               EmptyString;
               "**By Deal Status:**";
               "- Open: 1 deals, total value: ₹1.25 L";
               "- Borealis: 1 deals, total value: ₹98.0K";
               EmptyString;
               "**By Sector:**";
               "- Mining: 1 deals, value: ₹1.25 L";
               "- Railways: 1 deals, value: ₹98.0K";
               EmptyString;
               "### TOP 20 DEALS BY VALUE";
               "Name | Deal Status | Deal Value | Sector";
               "Acme | Open | 125000 | Mining";
               "Borealis | - | 98000.5 | Railways"])).
Proof. intros memberText localeCompare; vm_compute; reflexivity. Qed.

(** * Further properties of the data cleaner *)

(** ** Facts about [includes] *)

Lemma prefix_iff p s : String.prefix p s = true <-> exists b, s = p ++ b.
Proof.
  revert p; induction s as [|c' s IH]; intros [|c p]; simpl.
  - split; [intros _; now exists EmptyString | reflexivity].
  - split; [discriminate | intros [b H]; discriminate].
  - split; [intros _; now exists (String c' s) | reflexivity].
  - destruct (Ascii.ascii_dec c c') as [<-|Hne].
    + rewrite IH; split; intros [b H]; exists b; congruence.
    + split; [discriminate | intros [b H]; congruence].
Qed.

Lemma includes_iff s p :
  includes s p = true <-> exists a b, s = a ++ p ++ b.
Proof.
  induction s as [|c s IH].
  - cbn [includes]; rewrite orb_false_r, prefix_iff; split.
    + intros [b H]; now exists EmptyString, b.
    + intros (a & b & H); destruct a; simpl in H; [eauto|discriminate].
  - cbn [includes]; rewrite orb_true_iff, prefix_iff, IH; split.
    + intros [[b H]|(a & b & H)].
      * now exists EmptyString, b.
      * exists (String c a), b; simpl; congruence.
    + intros (a & b & H); destruct a as [|c' a]; simpl in H.
      * left; eauto.
      * right; exists a, b; congruence.
Qed.

Lemma append_assoc (a b c : string) : (a ++ b) ++ c = a ++ b ++ c.
Proof. induction a; simpl; congruence. Qed.

(** A text that contains [p] contains what [p] contains. *)
Lemma includes_trans s p q :
  includes s p = true -> includes p q = true -> includes s q = true.
Proof.
  rewrite !includes_iff; intros (a & b & ->) (c & d & ->).
  exists (a ++ c), (d ++ b); now rewrite !append_assoc.
Qed.

(** ** The values cleanValue returns *)

Lemma append_not_empty_r a b : b <> EmptyString -> a ++ b <> EmptyString.
Proof. destruct a; simpl; [auto | discriminate]. Qed.

Lemma append_not_empty_l a b : a <> EmptyString -> a ++ b <> EmptyString.
Proof. destruct a; simpl; [congruence | discriminate]. Qed.

Lemma showN_not_empty n : showN n <> EmptyString.
Proof.
  unfold showN; destruct n as [|p]; simpl; [discriminate|].
  pose proof (DecimalPos.Unsigned.to_uint_nonnil p) as H.
  destruct (Pos.to_uint p); simpl; try discriminate; contradiction.
Qed.

Lemma formatShortest_not_empty ds n :
  ds <> EmptyString -> formatShortest ds n <> EmptyString.
Proof.
  intros Hds; unfold formatShortest.
  destruct (_ && _).
  - now apply append_not_empty_l.
  - destruct (_ && _).
    + apply append_not_empty_r; discriminate.
    + destruct (_ && _); [discriminate|].
      destruct ds as [|d [|d' rest]]; [congruence | discriminate | discriminate].
Qed.

Lemma toString_not_empty x : toString x <> EmptyString.
Proof.
  destruct x as [s|s| |s m e]; unfold toString; try discriminate.
  - destruct s; discriminate.
  - destruct (fraction m e) as [vn vd].
    destruct (shortest 17 1 (S754_finite false m e) vn vd
                (decimalMagnitude vn vd)) as [digits n].
    apply append_not_empty_r, formatShortest_not_empty, showN_not_empty.
Qed.

(** [normalizeDate] and [normalizeNumber] give a non-empty string for a
    non-empty one. *)
Lemma normalizeDate_string str :
  str <> EmptyString ->
  exists v, normalizeDate str = VStr v /\ v <> EmptyString.
Proof.
  intros Hstr; unfold normalizeDate.
  destruct (String.eqb_spec str EmptyString) as [E|_]; [contradiction|].
  destruct (isoPrefix str) eqn:Hiso.
  - eexists; split; [reflexivity|].
    unfold isoPrefix in Hiso.
    destruct (substring0 str 10); [discriminate Hiso | discriminate].
  - destruct (matchDMY str) as [[[g1 g2] g3]|].
    + eexists; split; [reflexivity|].
      apply append_not_empty_r; discriminate.
    + eexists; split; [reflexivity | assumption].
Qed.

Lemma normalizeNumber_string str :
  str <> EmptyString ->
  exists v, normalizeNumber str = VStr v /\ v <> EmptyString.
Proof.
  intros Hstr; unfold normalizeNumber.
  destruct (String.eqb_spec str EmptyString) as [E|_]; [contradiction|].
  destruct (isNaN _); eexists; split; try reflexivity; auto.
  apply toString_not_empty.
Qed.

(** A text that is not the error marker and not white space only is cleaned
    to a non-empty string. *)
Lemma cleanValue_string s title :
  s <> "#VALUE!" ->
  trim s <> EmptyString ->
  exists v, cleanValue (VStr s) title = VStr v /\ v <> EmptyString.
Proof.
  intros Hmark Htrim; unfold cleanValue.
  destruct (String.eqb_spec s EmptyString) as [E|_].
  { subst s; exfalso; apply Htrim; reflexivity. }
  destruct (String.eqb_spec s "#VALUE!") as [E|_]; [contradiction|].
  destruct (String.eqb_spec (trim s) EmptyString) as [E|_]; [contradiction|].
  cbv zeta.
  destruct (includes _ "date"); [now apply normalizeDate_string|].
  destruct (_ || _); [now apply normalizeNumber_string|].
  eexists; split; [reflexivity | assumption].
Qed.

Lemma cleanValue_blank s title :
  trim s = EmptyString -> cleanValue (VStr s) title = VNull.
Proof.
  intros Htrim; unfold cleanValue.
  destruct (String.eqb s EmptyString); [reflexivity|].
  destruct (String.eqb s "#VALUE!"); [reflexivity|].
  now rewrite Htrim.
Qed.

(** X1.  Whatever the column, a cell is cleaned to null exactly when its
    text is null, is the error marker ["#VALUE!"], or holds white space only
    (the empty text included). *)
Theorem cleanValue_null_iff text title :
  cleanValue text title = VNull
  <-> text = VNull
      \/ text = VStr "#VALUE!"
      \/ exists s, text = VStr s /\ trim s = EmptyString.
Proof.
  split.
  - intros H; destruct text as [|s]; [now left|].
    destruct (String.eqb_spec s "#VALUE!") as [E|Hmark]; [subst; auto|].
    destruct (String.eqb_spec (trim s) EmptyString) as [E|Htrim].
    + right; right; now exists s.
    + destruct (cleanValue_string s title Hmark Htrim) as (v & Hv & _).
      congruence.
  - intros [->|[->|(s & -> & Htrim)]]; try reflexivity.
    now apply cleanValue_blank.
Qed.

(** X2.  Whatever the column, a cleaned cell is never the empty string: it
    is null or a string with a character. *)
Theorem cleanValue_never_empty text title :
  cleanValue text title <> VStr EmptyString.
Proof.
  destruct text as [|s]; [discriminate|].
  destruct (String.eqb_spec s "#VALUE!") as [E|Hmark]; [subst; discriminate|].
  destruct (String.eqb_spec (trim s) EmptyString) as [E|Htrim].
  - rewrite (cleanValue_blank s title E); discriminate.
  - destruct (cleanValue_string s title Hmark Htrim) as (v & Hv & Hne).
    rewrite Hv; congruence.
Qed.

(** X3.  The error marker is looked for before the text is trimmed: with
    white space around it, it is not read as a missing value and stays in
    the cell, in every column. *)
Theorem padded_error_marker_is_kept s title :
  trim s = "#VALUE!" ->
  s <> "#VALUE!" ->
  cleanValue (VStr s) title = VStr "#VALUE!".
Proof.
  intros Htrim Hs; unfold cleanValue.
  destruct (String.eqb_spec s EmptyString) as [E|_].
  { subst s; discriminate Htrim. }
  destruct (String.eqb_spec s "#VALUE!") as [E|_]; [contradiction|].
  rewrite Htrim; cbv zeta.
  change (String.eqb "#VALUE!" EmptyString) with false; cbv iota.
  destruct (includes _ "date"); [reflexivity|].
  destruct (_ || _); [vm_compute; reflexivity | reflexivity].
Qed.

Lemma padded_error_marker_is_kept_witness :
  cleanValue (VStr " #VALUE!") "Deal Value" = VStr "#VALUE!".
Proof.
  apply (padded_error_marker_is_kept " #VALUE!" "Deal Value");
    [vm_compute; reflexivity | discriminate].
Defined.

(** ** normalizeDate on its own results *)

Lemma isoPrefix_cut str :
  isoPrefix str = true -> isIsoDate (substring0 str 10) = true.
Proof.
  unfold isIsoDate, isoPrefix; intros H.
  destruct (substring0 str 10)
    as [|y1 [|y2 [|y3 [|y4 [|h1 [|m1 [|m2 [|h2 [|d1 [|d2 [|x r]]]]]]]]]]];
    simpl in H; try discriminate.
  unfold substring0; simpl; rewrite H; reflexivity.
Qed.

Lemma dayFirst_result d m y sep1 sep2 :
  isDayMonthYear d m y sep1 sep2 ->
  isIsoDate (y ++ "-" ++ padStart m 2 "0" ++ "-" ++ padStart d 2 "0") = true.
Proof.
  intros (Hd & Hld & Hm & Hlm & Hy & Hly & _).
  unfold allDigits in *.
  short_string y.
  destruct Hld as [Hld | Hld]; destruct Hlm as [Hlm | Hlm];
    short_string d; short_string m;
    split_andb; unfold isIsoDate, isoPrefix, substring0, padStart; simpl;
    use_tests; reflexivity.
Qed.

Lemma isIsoDate_fixed v : isIsoDate v = true -> normalizeDate v = VStr v.
Proof.
  unfold isIsoDate; intros H; apply andb_prop in H; destruct H as [Hiso Hlen].
  apply Nat.eqb_eq in Hlen.
  unfold normalizeDate; rewrite Hiso.
  destruct v as [|y1 [|y2 [|y3 [|y4 [|h1 [|m1 [|m2 [|h2 [|d1 [|d2 [|x r]]]]]]]]]]];
    simpl in Hlen; try discriminate; reflexivity.
Qed.

(** X4.  What [normalizeDate] returns is a date of the shape [YYYY-MM-DD],
    ten characters, or the text it was given; and [normalizeDate] returns it
    unchanged when it is given it again. *)
Theorem normalizeDate_idempotent str v :
  normalizeDate str = VStr v ->
  (isIsoDate v = true \/ v = str) /\ normalizeDate v = VStr v.
Proof.
  intros H.
  assert (Hshape : isIsoDate v = true
                   \/ (v = str /\ normalizeDate str = VStr str)).
  { revert H; unfold normalizeDate.
    destruct (String.eqb str EmptyString) eqn:E; [discriminate|].
    destruct (isoPrefix str) eqn:Hiso.
    - intros [= <-]; left; now apply isoPrefix_cut.
    - destruct (matchDMY str) as [[[g1 g2] g3]|] eqn:Em.
      + intros [= <-]; left.
        destruct (matchDMY_spec _ _ _ _ Em) as (s1 & s2 & Hd & _).
        now apply (dayFirst_result _ _ _ s1 s2).
      + intros [= <-]; right; auto. }
  destruct Hshape as [Hiso | [-> Hsame]].
  - split; [now left | now apply isIsoDate_fixed].
  - split; [now right | exact Hsame].
Qed.

Lemma normalizeDate_idempotent_witness :
  (isIsoDate "2024-03-05" = true \/ "2024-03-05" = "5/3/2024")
  /\ normalizeDate "2024-03-05" = VStr "2024-03-05".
Proof.
  apply (normalizeDate_idempotent "5/3/2024" "2024-03-05").
  vm_compute; reflexivity.
Defined.

(** ** Texts without a number in a numeric column *)

Lemma noDigit_tail c r : noDigit (String c r) = true -> noDigit r = true.
Proof. simpl; intros H; apply andb_prop in H; tauto. Qed.

Lemma dropMatching_noDigit width s : forall skip,
  noDigit s = true -> noDigit (dropMatching width skip s) = true.
Proof.
  induction s as [|c r IH]; intros skip H; [reflexivity|].
  pose proof (noDigit_tail _ _ H) as Hr.
  cbn [dropMatching]; destruct skip; auto.
  destruct (width (String c r)); auto.
  cbn [noDigit] in *.
  apply andb_prop in H; destruct H as [H _]; rewrite H; simpl; auto.
Qed.

(** What [trimStart] and [signOf] leave is the end of the text. *)
Lemma trimStart_go_suffix s : forall skip,
  exists a, s = a ++ trimStart_go skip s.
Proof.
  induction s as [|c r IH]; intros skip; [now exists EmptyString|].
  cbn [trimStart_go]; destruct skip as [|k].
  - destruct (wsWidth (String c r)) as [|k].
    + now exists EmptyString.
    + destruct (IH k) as [a Ha]; exists (String c a); simpl; congruence.
  - destruct (IH k) as [a Ha]; exists (String c a); simpl; congruence.
Qed.

Lemma signOf_suffix s : exists a, s = a ++ snd (signOf s).
Proof.
  unfold signOf; destruct s as [|c r]; [now exists EmptyString|].
  destruct (code c =? 45)%N; [now exists (String c EmptyString)|].
  destruct (code c =? 43)%N; [now exists (String c EmptyString)|].
  now exists EmptyString.
Qed.

Lemma noDigit_suffix a u : noDigit (a ++ u) = true -> noDigit u = true.
Proof.
  induction a as [|c a IH]; simpl; auto.
  intros H; apply andb_prop in H; tauto.
Qed.

Lemma spanDigits_noDigit s : noDigit s = true -> spanDigits s = (EmptyString, s).
Proof.
  destruct s as [|c r]; [reflexivity|]; simpl.
  destruct (isDigit c); [discriminate | reflexivity].
Qed.

(** [parseFloat] reads no number in a text without a digit that does not
    contain [Infinity]. *)
Lemma parseFloat_noNumber s :
  noDigit s = true -> includes s "Infinity" = false -> parseFloat s = NaN.
Proof.
  intros Hd Hi; unfold parseFloat, trimStart.
  destruct (trimStart_go_suffix s 0) as [a Ha].
  destruct (signOf_suffix (trimStart_go 0 s)) as [b Hb].
  destruct (signOf (trimStart_go 0 s)) as [neg u]; simpl in Hb.
  assert (Hs : s = (a ++ b) ++ u) by (rewrite append_assoc; congruence).
  assert (Hu : noDigit u = true)
    by (rewrite Hs in Hd; eapply noDigit_suffix; eauto).
  assert (Hinf : String.prefix "Infinity" u = false).
  { destruct (String.prefix "Infinity" u) eqn:E; [|reflexivity].
    apply prefix_iff in E; destruct E as [t Ht].
    assert (includes s "Infinity" = true).
    { apply includes_iff; exists (a ++ b), t; congruence. }
    congruence. }
  rewrite Hinf, (spanDigits_noDigit u Hu).
  destruct u as [|c r]; [reflexivity|].
  destruct (code c =? 46)%N; [|reflexivity].
  rewrite (spanDigits_noDigit r (noDigit_tail _ _ Hu)).
  reflexivity.
Qed.

Lemma normalizeNumber_noNumber str :
  str <> EmptyString -> holdsNoNumber str = true ->
  normalizeNumber str = VStr str.
Proof.
  intros Hne H; unfold holdsNoNumber in H.
  apply andb_prop in H; destruct H as [Hd Hi]; apply negb_true_iff in Hi.
  unfold normalizeNumber.
  destruct (String.eqb_spec str EmptyString); [contradiction|].
  rewrite parseFloat_noNumber; auto.
  now apply dropMatching_noDigit.
Qed.

(** Neither date pattern matches a text without a digit. *)
Lemma normalizeDate_noDigit str :
  str <> EmptyString -> noDigit str = true -> normalizeDate str = VStr str.
Proof.
  intros Hne Hd; unfold normalizeDate.
  destruct (String.eqb_spec str EmptyString); [contradiction|].
  destruct str as [|c r]; [contradiction|].
  simpl in Hd; apply andb_prop in Hd; destruct Hd as [Hc _].
  apply negb_true_iff in Hc.
  assert (Hiso : isoPrefix (String c r) = false).
  { unfold isoPrefix, substring0; cbn [String.substring list_ascii_of_string].
    destruct (list_ascii_of_string (String.substring 0 9 r))
      as [|? [|? [|? [|? [|? [|? [|? [|? [|? [|? ?]]]]]]]]]]; try reflexivity.
    now rewrite Hc. }
  rewrite Hiso.
  unfold matchDMY, oneOrTwoDigits; rewrite Hc; reflexivity.
Qed.

(** X5.  In a numeric column, a text that holds no digit and, once its
    currency signs, commas and white space are removed, does not contain
    Infinity, is not a number: the cell keeps the text, trimmed, with its
    currency signs and commas. *)
Theorem text_without_number_is_kept raw title :
  numericTitle title = true ->
  raw <> "#VALUE!" ->
  trim raw <> EmptyString ->
  holdsNoNumber (trim raw) = true ->
  cleanValue (VStr raw) title = VStr (trim raw).
Proof.
  intros Htitle Hmark Htrim Hno.
  assert (Hraw : raw <> EmptyString).
  { intros ->; apply Htrim; reflexivity. }
  rewrite (cleanValue_number raw title Htitle Hraw Hmark Htrim).
  now apply normalizeNumber_noNumber.
Qed.

Lemma text_without_number_is_kept_witness :
  cleanValue (VStr " $ n/a ") "Billed Value" = VStr "$ n/a".
Proof.
  apply (text_without_number_is_kept " $ n/a " "Billed Value");
    try (vm_compute; reflexivity); discriminate.
Defined.

(** ** Columns and fields of the same id or title *)

Lemma findLast_snoc {A : Type} (f : A -> bool) l x :
  findLast f (l ++ [x]) = if f x then Some x else findLast f l.
Proof. unfold findLast; now rewrite rev_app_distr. Qed.

Lemma get_set {V : Type} (o : JsObject.t V) k v k' :
  JsObject.get (JsObject.set o k v) k'
  = if String.eqb k k' then Some v else JsObject.get o k'.
Proof.
  destruct (String.eqb_spec k k') as [<-|Hne].
  - apply JsObjectFacts.get_set_same.
  - apply JsObjectFacts.get_set_other; congruence.
Qed.

Lemma buildColMap_get cols id :
  JsObject.get (buildColMap cols) id
  = option_map col_title (lastColumn cols id).
Proof.
  unfold buildColMap, lastColumn.
  induction cols as [|c cols IH] using rev_ind; [reflexivity|].
  rewrite fold_left_app, findLast_snoc; simpl.
  rewrite get_set, IH.
  now destruct (String.eqb (col_id c) id).
Qed.

(** X6.  For a field id that names no member inherited from
    [Object.prototype]: when several columns have the id, the last one gives
    the title; the title of the field is its id itself when no column has
    the id, or when the title of that column is empty. *)
Theorem title_of_last_column cols id :
  JsObject.inherited id = false ->
  resolveTitle (buildColMap cols) id
  = match lastColumn cols id with
    | Some c => if String.eqb (col_title c) EmptyString then id else col_title c
    | None => id
    end.
Proof.
  intros _; unfold resolveTitle; rewrite buildColMap_get.
  now destruct (lastColumn cols id).
Qed.

Lemma title_of_last_column_witness :
  resolveTitle
    (buildColMap [Samples.col "c1" "Status"; Samples.col "c2" "Sector";
                  Samples.col "c1" "Deal Status"; Samples.col "c3" EmptyString])
    "c1" = "Deal Status"
  /\ resolveTitle
       (buildColMap [Samples.col "c1" "Status"; Samples.col "c2" "Sector";
                     Samples.col "c1" "Deal Status";
                     Samples.col "c3" EmptyString])
       "c3" = "c3"
  /\ resolveTitle
       (buildColMap [Samples.col "c1" "Status"; Samples.col "c2" "Sector";
                     Samples.col "c1" "Deal Status";
                     Samples.col "c3" EmptyString])
       "c9" = "c9".
Proof.
  split; [|split];
    rewrite (title_of_last_column
               [Samples.col "c1" "Status"; Samples.col "c2" "Sector";
                Samples.col "c1" "Deal Status"; Samples.col "c3" EmptyString]);
    reflexivity.
Defined.

(** The value of a row under a key. *)
Lemma buildRow_get colMap item k :
  JsObject.get (buildRow colMap item) k
  = match lastField colMap item k with
    | Some cv => Some (cleanValue (cv_text cv) k)
    | None =>
      if String.eqb k "_id" then Some (VStr (item_id item))
      else if String.eqb k "_name" then Some (item_name item)
      else None
    end.
Proof.
  unfold buildRow, lastField.
  induction (column_values item) as [|cv cvs IH] using rev_ind.
  - unfold findLast; cbn [rev find fold_left JsObject.get].
    now rewrite (String.eqb_sym k "_id"), (String.eqb_sym k "_name").
  - rewrite fold_left_app, findLast_snoc; cbn [fold_left].
    rewrite get_set, IH.
    destruct (String.eqb_spec (resolveTitle colMap (cv_id cv)) k) as [->|];
      reflexivity.
Qed.


(** ** The counts of missing values *)

Lemma NoDup_map_fst_filter {A B : Type} (f : A * B -> bool) (l : list (A * B)) :
  NoDup (map fst l) -> NoDup (map fst (filter f l)).
Proof.
  induction l as [|e l IH]; simpl; intros H; [constructor|].
  inversion H as [|? ? Hnot Hrest]; subst.
  destruct (f e); simpl; auto.
  constructor; auto.
  intros Hin; apply Hnot.
  apply in_map_iff in Hin; destruct Hin as (x & Hx & Hin).
  apply filter_In in Hin; destruct Hin as [Hin _].
  apply in_map_iff; eauto.
Qed.

Lemma nonIdentityKeys_NoDup (row : Row) :
  NoDup (map fst row) -> NoDup (nonIdentityKeys row).
Proof.
  intros H; unfold nonIdentityKeys, nonIdentityEntries.
  apply NoDup_map_fst_filter.
  eapply Permutation_NoDup; [|exact H].
  apply Permutation_map, Permutation_sym, JsObjectFacts.entries_perm.
Qed.

Lemma missingInRow_le_keys (row : Row) :
  missingInRow row <= List.length (nonIdentityKeys row).
Proof.
  unfold missingInRow, nonIdentityKeys.
  rewrite length_map; apply filter_length_le.
Qed.

(** The missing values of a row are values of fields of its item, one for a
    title at most. *)
Lemma missingInRow_built colMap item (titles : list string) :
  (forall cv, In cv (column_values item) ->
              In (resolveTitle colMap (cv_id cv)) titles) ->
  missingInRow (buildRow colMap item) <= List.length titles.
Proof.
  intros H.
  etransitivity; [apply missingInRow_le_keys|].
  apply NoDup_incl_length.
  - apply nonIdentityKeys_NoDup, buildRow_NoDup.
  - intros k Hk.
    apply in_nonIdentityKeys in Hk; destruct Hk as [Hk Hstart].
    apply buildRow_keys in Hk.
    destruct Hk as [->|[->|(cv & Hcv & <-)]]; try discriminate.
    now apply H.
Qed.

Lemma countMissing_sum rows :
  countMissing rows = list_sum (map missingInRow rows).
Proof.
  unfold countMissing.
  assert (H : forall n, fold_left (fun n row => n + missingInRow row) rows n
                        = n + list_sum (map missingInRow rows)).
  { induction rows as [|row rows IH]; intros n; simpl; [lia|].
    rewrite IH; lia. }
  apply (H 0).
Qed.

Lemma data_of_items boardData board cols items :
  bd_columns boardData = Some cols ->
  bd_items boardData = Some items ->
  cleanBoardData boardData = Returned board ->
  data board
  = filter (fun row => match judge row with Keep => true | _ => false end)
      (map (buildRow (buildColMap cols)) items)
  /\ missingFields (stats board) = countMissing (data board)
  /\ totalFields (stats board)
     = List.length (data board)
       * List.length (JsObject.keys (buildColMap cols)).
Proof.
  intros Hc Hi Hb.
  destruct (cleanBoardData_returns boardData cols items Hc Hi)
    as (b & Hb' & Hdata & _ & _ & _ & Htotal & Hmissing & _).
  assert (b = board) by congruence; subst b.
  rewrite Hdata at 1; rewrite filterRows_kept; auto.
Qed.

(** X8.  A value is counted missing only where an item carries a field: the
    count of missing values is at most the number of fields the items carry,
    and a column for which an item has no field adds nothing to it. *)
Theorem missing_at_most_fields_carried boardData board cols items :
  bd_columns boardData = Some cols ->
  bd_items boardData = Some items ->
  cleanBoardData boardData = Returned board ->
  missingFields (stats board) <= fieldsCarried items.
Proof.
  intros Hc Hi Hb.
  destruct (data_of_items _ _ _ _ Hc Hi Hb) as (Hdata & Hmissing & _).
  rewrite Hmissing, Hdata, countMissing_sum; unfold fieldsCarried.
  clear; induction items as [|item items IH]; simpl; [lia|].
  assert (Hrow : missingInRow (buildRow (buildColMap cols) item)
                 <= List.length (column_values item)).
  { rewrite <- (length_map (fun cv => resolveTitle (buildColMap cols) (cv_id cv))).
    apply missingInRow_built; intros cv Hcv.
    apply in_map_iff; eauto. }
  destruct (judge _); simpl; lia.
Qed.

Lemma missing_at_most_fields_carried_witness :
  missingFields (stats (Samples.cleaned Samples.dealsBoard))
  <= fieldsCarried Samples.dealsItems.
Proof.
  apply (missing_at_most_fields_carried Samples.dealsBoard
           (Samples.cleaned Samples.dealsBoard) Samples.dealsColumns
           Samples.dealsItems); vm_compute; reflexivity.
Defined.



(** A field of an id the board does not have is counted when it is missing,
    and not in the total: more values are missing than there are fields, and
    the completeness is negative. *)
Example stray_field_counts :
  let board := Samples.cleaned MoreSamples.strayField in
  cleanBoardData MoreSamples.strayField = Returned board
  /\ missingFields (stats board) = 2
  /\ totalFields (stats board) = 1
  /\ completeness (stats board) = "-100.0".
Proof. vm_compute; auto. Qed.

(** ** The data notes and the completeness of clean boards *)

Lemma removed_is_not_kept boardData board cols items :
  bd_columns boardData = Some cols ->
  bd_items boardData = Some items ->
  cleanBoardData boardData = Returned board ->
  removedRows (stats board)
  = List.length
      (filter (fun row => negb match judge row with Keep => true | _ => false end)
         (map (buildRow (buildColMap cols)) items)).
Proof.
  intros Hc Hi Hb.
  destruct (cleanBoardData_returns boardData cols items Hc Hi)
    as (b & Hb' & _ & Hremoved & _).
  assert (b = board) by congruence; subst b.
  pose proof (filterRows_count (map (buildRow (buildColMap cols)) items)
                {| fs_removed := 0; fs_issues := [] |}) as Hcount.
  rewrite filterRows_kept, <- Hremoved in Hcount; simpl in Hcount.
  pose proof (filter_split_length
                (fun row => match judge row with Keep => true | _ => false end)
                (map (buildRow (buildColMap cols)) items)).
  lia.
Qed.

(** X10.  The list of data notes of a cleaned board is empty exactly when no
    row was removed and no value is missing. *)
Theorem no_notes_iff_nothing_to_report boardData board :
  cleanBoardData boardData = Returned board ->
  (qualityIssues board = []
   <-> removedRows (stats board) = 0 /\ missingFields (stats board) = 0).
Proof.
  intros Hb.
  destruct (cleanBoardData_inv _ _ Hb) as (cols & items & Hc & Hi).
  rewrite (cleanBoardData_issues _ _ _ _ Hc Hi Hb), filterRows_issues; simpl.
  pose proof (removed_is_not_kept _ _ _ _ Hc Hi Hb) as Hremoved.
  unfold summaryNotes.
  split.
  - intros H; apply app_eq_nil in H; destruct H as [_ H].
    apply app_eq_nil in H; destruct H as [H1 H2].
    destruct (removedRows (stats board)); [|discriminate H1].
    destruct (missingFields (stats board)); [auto | discriminate H2].
  - intros [Hr Hm]; rewrite Hr, Hm; simpl; rewrite app_nil_r.
    rewrite Hr in Hremoved; symmetry in Hremoved.
    apply length_zero_iff_nil in Hremoved.
    destruct (filter (fun row => match judge row with
                                 | DropHeader => true
                                 | _ => false
                                 end)
                (map (buildRow (buildColMap cols)) items))
      as [|row rest] eqn:E; [reflexivity|].
    exfalso.
    assert (Hin : In row (row :: rest)) by now left.
    rewrite <- E in Hin; apply filter_In in Hin; destruct Hin as [Hin Hj].
    assert (Hin' : In row
              (filter (fun row => negb match judge row with
                                       | Keep => true
                                       | _ => false
                                       end)
                 (map (buildRow (buildColMap cols)) items))).
    { apply filter_In; split; [exact Hin|].
      destruct (judge row); auto; discriminate. }
    rewrite Hremoved in Hin'; destruct Hin'.
Qed.

Lemma no_notes_iff_nothing_to_report_witness :
  qualityIssues (Samples.cleaned Samples.sparseBoard) = []
  <-> removedRows (stats (Samples.cleaned Samples.sparseBoard)) = 0
      /\ missingFields (stats (Samples.cleaned Samples.sparseBoard)) = 0.
Proof.
  apply (no_notes_iff_nothing_to_report Samples.sparseBoard).
  vm_compute; reflexivity.
Defined.

Lemma ofNat_positive n : isPositive (ofNat (S n)) = true.
Proof.
  unfold ofNat, ofZ.
  rewrite JsNumberFacts.binary_normalize_positive by lia.
  apply Z.ltb_lt; lia.
Qed.

Lemma completenessOf_none_missing total :
  completenessOf 0 total = if (total =? 0)%nat then "100" else "100.0".
Proof.
  destruct total as [|n]; [reflexivity|].
  unfold completenessOf.
  pose proof (ofNat_positive n) as Hpos.
  change (ofNat 0) with (S754_zero false).
  destruct (ofNat (S n)) as [s|s| |s m e]; try discriminate Hpos;
    destruct s; try discriminate Hpos; vm_compute; reflexivity.
Qed.

(** X11.  A cleaned board without a missing value is ["100.0"] per cent
    complete; it is ["100"], without the decimal, when its field total is 0
    (no row kept, or no column). *)
Theorem completeness_of_a_full_board boardData board :
  cleanBoardData boardData = Returned board ->
  missingFields (stats board) = 0 ->
  completeness (stats board)
  = if (totalFields (stats board) =? 0)%nat then "100" else "100.0".
Proof.
  intros Hb Hm.
  destruct (cleanBoardData_inv _ _ Hb) as (cols & items & Hc & Hi).
  destruct (cleanBoardData_returns boardData cols items Hc Hi)
    as (b & Hb' & _ & _ & _ & _ & _ & _ & Hcompl & _).
  assert (b = board) by congruence; subst b.
  rewrite Hcompl, Hm; apply completenessOf_none_missing.
Qed.

Lemma completeness_of_a_full_board_witness :
  completeness (stats (Samples.cleaned Samples.sparseBoard)) = "100.0".
Proof.
  apply (completeness_of_a_full_board Samples.sparseBoard
           (Samples.cleaned Samples.sparseBoard));
    vm_compute; reflexivity.
Defined.

(** X12.  When no row is kept (the board has no item, or all were removed),
    the statistics count no field and no missing value, the completeness is
    ["100"], every item counts as removed, and the context [dataToContext]
    writes is the two lines of an empty board: when there were items, the
    data notes about their removal are not empty, and they are not in that
    text. *)
Theorem board_without_rows memberText localeCompare boardData board :
  cleanBoardData boardData = Returned board ->
  cleanedRows (stats board) = 0 ->
  totalFields (stats board) = 0
  /\ missingFields (stats board) = 0
  /\ completeness (stats board) = "100"
  /\ removedRows (stats board) = totalRows (stats board)
  /\ (0 < totalRows (stats board) -> qualityIssues board <> [])
  /\ dataToContext memberText localeCompare board
     = Returned ("## " ++ shownName board ++ nl ++ "No data available." ++ nl).
Proof.
  intros Hb Hrows.
  destruct (cleanBoardData_inv _ _ Hb) as (cols & items & Hc & Hi).
  destruct (cleanBoardData_returns boardData cols items Hc Hi)
    as (b & Hb' & Hdata' & Hremoved & Htotal & Hcleaned & Hfields & Hmissing
        & Hcompl & _).
  assert (b = board) by congruence; subst b.
  assert (Hdata : data board = []).
  { apply length_zero_iff_nil; congruence. }
  assert (Hf : totalFields (stats board) = 0)
    by (rewrite Hfields, Hdata; reflexivity).
  assert (Hm : missingFields (stats board) = 0)
    by (rewrite Hmissing, Hdata; reflexivity).
  assert (Hr : removedRows (stats board) = totalRows (stats board)).
  { pose proof (filterRows_count (map (buildRow (buildColMap cols)) items)
                  {| fs_removed := 0; fs_issues := [] |}) as Hcount.
    rewrite <- Hremoved, <- Hdata', Hdata, length_map in Hcount.
    simpl in Hcount; lia. }
  split; [exact Hf|].
  split; [exact Hm|].
  split; [rewrite Hcompl, Hf, Hm; reflexivity|].
  split; [exact Hr|].
  split.
  - intros Hpos.
    rewrite (cleanBoardData_issues _ _ _ _ Hc Hi Hb), filterRows_issues.
    unfold summaryNotes; rewrite Hr.
    destruct (totalRows (stats board)) as [|n]; [lia|].
    cbn [Nat.ltb Nat.leb].
    intros H; apply app_eq_nil in H; destruct H as [_ H].
    apply app_eq_nil in H; destruct H as [H _]; discriminate H.
  - unfold dataToContext, shownName.
    rewrite Hdata; reflexivity.
Qed.

Lemma board_without_rows_witness :
  let board := Samples.cleaned MoreSamples.junkBoard in
  totalRows (stats board) = 2
  /\ qualityIssues board
     = ["Removed embedded header row (item: " ++ dquote ++ "Item" ++ dquote
        ++ ")";
        "Removed 2 junk/empty/header rows"]
  /\ totalFields (stats board) = 0
  /\ missingFields (stats board) = 0
  /\ completeness (stats board) = "100"
  /\ removedRows (stats board) = totalRows (stats board)
  /\ (0 < totalRows (stats board) -> qualityIssues board <> [])
  /\ dataToContext Samples.v8Text Samples.codeOrder board
     = Returned ("## " ++ shownName board ++ nl ++ "No data available." ++ nl).
Proof.
  intros board.
  split; [reflexivity|].
  split; [vm_compute; reflexivity|].
  apply (board_without_rows Samples.v8Text Samples.codeOrder
           MoreSamples.junkBoard);
    vm_compute; reflexivity.
Defined.

(** ** Header lines and blank items, by the texts of their fields *)

Lemma findLast_some {A : Type} (f : A -> bool) l x :
  findLast f l = Some x -> In x l /\ f x = true.
Proof.
  unfold findLast; intros H; apply find_some in H.
  destruct H as [H1 H2]; split; auto; now apply in_rev.
Qed.

(** A cell that holds the title of its column keeps it. *)
Lemma cleanValue_of_title raw title :
  raw <> "#VALUE!" ->
  trim raw = title ->
  title <> EmptyString ->
  holdsNoNumber title = true ->
  cleanValue (VStr raw) title = VStr title.
Proof.
  intros Hmark Htrim Hne Hno; unfold cleanValue.
  destruct (String.eqb_spec raw EmptyString) as [E|_].
  { subst raw; exfalso; apply Hne; rewrite <- Htrim; reflexivity. }
  destruct (String.eqb_spec raw "#VALUE!"); [contradiction|].
  rewrite Htrim.
  destruct (String.eqb_spec title EmptyString); [contradiction|].
  cbv zeta.
  destruct (includes _ "date").
  - apply normalizeDate_noDigit; auto.
    unfold holdsNoNumber in Hno; apply andb_prop in Hno; tauto.
  - destruct (_ || _); [now apply normalizeNumber_noNumber | reflexivity].
Qed.

(** X25.  An item is removed as a header line when the field that gives the
    value of one of its columns holds the title of that column, with or
    without white space around it, for a title without a digit (and that
    does not read as Infinity): the cell is cleaned to the title itself,
    the row is not among the cleaned records, and the note that names it is
    among the data notes. *)
Theorem header_item_is_removed boardData board cols items item cv raw :
  bd_columns boardData = Some cols ->
  bd_items boardData = Some items ->
  cleanBoardData boardData = Returned board ->
  In item items ->
  let colMap := buildColMap cols in
  let title := resolveTitle colMap (cv_id cv) in
  lastField colMap item title = Some cv ->
  cv_text cv = VStr raw ->
  raw <> "#VALUE!" ->
  trim raw = title ->
  title <> EmptyString ->
  startsWith title "_" = false ->
  holdsNoNumber title = true ->
  judge (buildRow colMap item) = DropHeader
  /\ ~ In (buildRow colMap item) (data board)
  /\ In (headerNote (buildRow colMap item)) (qualityIssues board).
Proof.
  intros Hc Hi Hb Hitem colMap title Hlast Htext Hmark Htrim Hne Hstart Hno.
  assert (Hj : judge (buildRow colMap item) = DropHeader).
  { apply judge_header_built.
    apply isHeader_iff; [apply buildRow_NoDup|].
    exists title; split; [exact Hstart|].
    rewrite buildRow_get, Hlast, Htext.
    f_equal; now apply cleanValue_of_title. }
  split; [exact Hj|].
  split.
  - destruct (data_of_items _ _ _ _ Hc Hi Hb) as (Hdata & _).
    rewrite Hdata; intros Hin.
    apply filter_In in Hin; destruct Hin as [_ Hkeep].
    fold colMap in Hkeep; rewrite Hj in Hkeep; discriminate.
  - rewrite (cleanBoardData_issues _ _ _ _ Hc Hi Hb), filterRows_issues.
    apply in_or_app; left; simpl.
    apply in_map, filter_In; split.
    + apply in_map; exact Hitem.
    + fold colMap; now rewrite Hj.
Qed.

Lemma header_item_is_removed_witness :
  judge (buildRow (buildColMap Samples.dealsColumns)
           (Samples.item "2" "Deal Name"
              [Samples.field "c1" "Deal Status"; Samples.field "c2" "Sector";
               Samples.field "c3" "Deal Value";
               Samples.field "c4" "Created Date"]))
  = DropHeader
  /\ ~ In (buildRow (buildColMap Samples.dealsColumns)
             (Samples.item "2" "Deal Name"
                [Samples.field "c1" "Deal Status"; Samples.field "c2" "Sector";
                 Samples.field "c3" "Deal Value";
                 Samples.field "c4" "Created Date"]))
        (data (Samples.cleaned Samples.dealsBoard))
  /\ In (headerNote
           (buildRow (buildColMap Samples.dealsColumns)
              (Samples.item "2" "Deal Name"
                 [Samples.field "c1" "Deal Status"; Samples.field "c2" "Sector";
                  Samples.field "c3" "Deal Value";
                  Samples.field "c4" "Created Date"])))
       (qualityIssues (Samples.cleaned Samples.dealsBoard)).
Proof.
  apply (header_item_is_removed Samples.dealsBoard
           (Samples.cleaned Samples.dealsBoard) Samples.dealsColumns
           Samples.dealsItems
           (Samples.item "2" "Deal Name"
              [Samples.field "c1" "Deal Status"; Samples.field "c2" "Sector";
               Samples.field "c3" "Deal Value";
               Samples.field "c4" "Created Date"])
           (Samples.field "c3" "Deal Value") "Deal Value");
    try (vm_compute; reflexivity); try discriminate.
  simpl; auto.
Defined.

(** A header line of a column whose title starts with a number is not
    recognised by that column: the cell is cleaned to the number. *)
Example numbered_title_is_not_a_header :
  cleanValue (VStr "2024 Value") "2024 Value" = VStr "2024"
  /\ judge (buildRow (buildColMap [Samples.col "c1" "2024 Value"])
              (Samples.item "1" "Name" [Samples.field "c1" "2024 Value"]))
     = Keep.
Proof. vm_compute; auto. Qed.

Lemma blankText_cleaned text title :
  blankText text = true -> cleanValue text title = VNull.
Proof.
  destruct text as [|s]; [reflexivity|]; simpl.
  intros H; apply orb_true_iff in H; destruct H as [H|H].
  - apply String.eqb_eq in H; subst s; reflexivity.
  - apply String.eqb_eq in H; now apply cleanValue_blank.
Qed.

Lemma blank_fields_values colMap item k v :
  forallb (fun cv => blankText (cv_text cv)) (column_values item) = true ->
  In (k, v) (buildRow colMap item) ->
  startsWith k "_" = false ->
  v = VNull.
Proof.
  intros Hblank Hin Hstart.
  apply JsObjectFacts.in_get in Hin; [|apply buildRow_NoDup].
  rewrite buildRow_get in Hin.
  destruct (lastField colMap item k) as [cv|] eqn:E.
  - apply findLast_some in E; destruct E as [Hcv _].
    rewrite forallb_forall in Hblank.
    rewrite (blankText_cleaned _ k (Hblank cv Hcv)) in Hin; congruence.
  - destruct (String.eqb_spec k "_id") as [->|]; [discriminate Hstart|].
    destruct (String.eqb_spec k "_name") as [->|]; [discriminate Hstart|].
    discriminate.
Qed.

(** X26.  An item all of whose fields are blank (null, the error marker, or
    white space only) is removed as an empty row when its row has no name,
    and is kept when it has one, all its values counted missing; it is never
    removed as a header line. *)
Theorem blank_item_is_removed boardData board cols items item :
  bd_columns boardData = Some cols ->
  bd_items boardData = Some items ->
  cleanBoardData boardData = Returned board ->
  In item items ->
  forallb (fun cv => blankText (cv_text cv)) (column_values item) = true ->
  let row := buildRow (buildColMap cols) item in
  judge row = (if truthy (JsObject.get row "_name") then Keep else DropEmpty)
  /\ (In row (data board) <-> truthy (JsObject.get row "_name") = true)
  /\ missingInRow row = List.length (nonIdentityKeys row).
Proof.
  intros Hc Hi Hb Hitem Hblank row.
  assert (Hvals : forall e, In e (nonIdentityEntries row) ->
                            isMissing (snd e) = true).
  { intros [k v] Hin.
    apply in_nonIdentityEntries in Hin; destruct Hin as [Hin Hstart].
    now rewrite (blank_fields_values _ item k v Hblank Hin Hstart). }
  assert (Hall : allEmpty row = true).
  { unfold allEmpty; now apply forallb_forall. }
  assert (Hhead : isHeader row = false).
  { destruct (isHeader row) eqn:E; [|reflexivity].
    apply built_header_not_empty in E; unfold row in Hall; congruence. }
  assert (Hj : judge row
               = if truthy (JsObject.get row "_name") then Keep else DropEmpty).
  { unfold judge; rewrite Hall, Hhead.
    now destruct (truthy _). }
  split; [exact Hj|].
  split.
  - destruct (data_of_items _ _ _ _ Hc Hi Hb) as (Hdata & _).
    rewrite Hdata, filter_In, Hj.
    destruct (truthy (JsObject.get row "_name")); split; auto.
    + intros _; split; [|reflexivity].
      apply in_map; exact Hitem.
    + intros [_ H]; discriminate.
    + discriminate.
  - unfold missingInRow, nonIdentityKeys; rewrite length_map.
    f_equal; apply forallb_filter_id.
    now apply forallb_forall.
Qed.

Lemma blank_item_is_removed_witness :
  judge (buildRow (buildColMap Samples.dealsColumns)
           {| item_id := "3"; item_name := VStr EmptyString;
              column_values :=
                [Samples.blank "c1"; Samples.blank "c2";
                 Samples.field "c3" " "; Samples.blank "c4"] |})
  = (if truthy
          (JsObject.get
             (buildRow (buildColMap Samples.dealsColumns)
                {| item_id := "3"; item_name := VStr EmptyString;
                   column_values :=
                     [Samples.blank "c1"; Samples.blank "c2";
                      Samples.field "c3" " "; Samples.blank "c4"] |})
             "_name")
     then Keep else DropEmpty)
  /\ (In (buildRow (buildColMap Samples.dealsColumns)
            {| item_id := "3"; item_name := VStr EmptyString;
               column_values :=
                 [Samples.blank "c1"; Samples.blank "c2";
                  Samples.field "c3" " "; Samples.blank "c4"] |})
         (data (Samples.cleaned Samples.dealsBoard))
      <-> truthy
            (JsObject.get
               (buildRow (buildColMap Samples.dealsColumns)
                  {| item_id := "3"; item_name := VStr EmptyString;
                     column_values :=
                       [Samples.blank "c1"; Samples.blank "c2";
                        Samples.field "c3" " "; Samples.blank "c4"] |})
               "_name") = true)
  /\ missingInRow
       (buildRow (buildColMap Samples.dealsColumns)
          {| item_id := "3"; item_name := VStr EmptyString;
             column_values :=
               [Samples.blank "c1"; Samples.blank "c2";
                Samples.field "c3" " "; Samples.blank "c4"] |})
     = List.length
         (nonIdentityKeys
            (buildRow (buildColMap Samples.dealsColumns)
               {| item_id := "3"; item_name := VStr EmptyString;
                  column_values :=
                    [Samples.blank "c1"; Samples.blank "c2";
                     Samples.field "c3" " "; Samples.blank "c4"] |})).
Proof.
  apply (blank_item_is_removed Samples.dealsBoard
           (Samples.cleaned Samples.dealsBoard) Samples.dealsColumns
           Samples.dealsItems
           {| item_id := "3"; item_name := VStr EmptyString;
              column_values :=
                [Samples.blank "c1"; Samples.blank "c2";
                 Samples.field "c3" " "; Samples.blank "c4"] |});
    try (vm_compute; reflexivity).
  simpl; auto.
Defined.

(** ** findCol *)

Lemma holdsPattern_true ps k :
  holdsPattern ps k = true
  <-> exists p, In p ps /\ includes (toLowerCase k) p = true.
Proof. apply existsb_exists. Qed.

(** Two lists of patterns that the same keys hold find the same key. *)
Lemma findCol_ext keys ps ps' :
  (forall k, In k keys -> holdsPattern ps k = holdsPattern ps' k) ->
  findCol keys ps = findCol keys ps'.
Proof.
  intros H; unfold findCol.
  replace (find (fun k => existsb (includes (toLowerCase k)) ps) keys)
    with (find (fun k => existsb (includes (toLowerCase k)) ps') keys);
    [reflexivity|].
  induction keys as [|k keys IH]; simpl; [reflexivity|].
  fold (holdsPattern ps' k); fold (holdsPattern ps k).
  rewrite (H k) by now left.
  destruct (holdsPattern ps' k); [reflexivity|].
  apply IH; intros k' Hk'; apply H; now right.
Qed.

(** Patterns that each contain a pattern of [ps'], which are among them,
    find what [ps'] finds. *)
Lemma findCol_cover keys ps ps' :
  (forall p, In p ps' -> In p ps) ->
  (forall p, In p ps -> exists q, In q ps' /\ includes p q = true) ->
  findCol keys ps = findCol keys ps'.
Proof.
  intros Hsub Hcover; apply findCol_ext; intros k _.
  destruct (holdsPattern ps' k) eqn:E'.
  - apply holdsPattern_true in E'; destruct E' as (p & Hp & Hi).
    apply holdsPattern_true; eauto.
  - destruct (holdsPattern ps k) eqn:E; [|reflexivity].
    apply holdsPattern_true in E; destruct E as (p & Hp & Hi).
    destruct (Hcover p Hp) as (q & Hq & Hpq).
    assert (holdsPattern ps' k = true).
    { apply holdsPattern_true; exists q; split; [assumption|].
      exact (includes_trans _ _ _ Hi Hpq). }
    congruence.
Qed.

Lemma includes_refl p : includes p p = true.
Proof. apply includes_iff; exists EmptyString, EmptyString.
  simpl; induction p; simpl; congruence. Qed.

(** X13.  [findCol] gives the first key, in the order of the keys, that
    contains one of the patterns in lower case, whichever pattern it is; it
    gives nothing when no key contains one. *)
Theorem findCol_first_key keys patterns :
  properPatterns patterns = true ->
  match findCol keys patterns with
  | Some k =>
    exists before after,
      keys = (before ++ k :: after)%list
      /\ holdsPattern patterns k = true
      /\ Forall (fun k' => holdsPattern patterns k' = false) before
  | None => Forall (fun k' => holdsPattern patterns k' = false) keys
  end.
Proof.
  intros Hps; unfold findCol.
  induction keys as [|k keys IH]; simpl; [constructor|].
  fold (holdsPattern patterns k).
  destruct (holdsPattern patterns k) eqn:Hk.
  - destruct (String.eqb_spec k EmptyString) as [->|_].
    + exfalso; apply holdsPattern_true in Hk; destruct Hk as (p & Hp & Hi).
      unfold properPatterns in Hps; rewrite forallb_forall in Hps.
      pose proof (Hps p Hp) as Hne.
      simpl in Hi; rewrite orb_false_r in Hi.
      destruct p; [discriminate Hne | discriminate Hi].
    + exists [], keys; auto.
  - destruct (find _ keys) as [k'|].
    + destruct (String.eqb k' EmptyString).
      * constructor; assumption.
      * destruct IH as (before & after & -> & Hk' & Hbefore).
        exists (k :: before), after; split; [reflexivity|]; auto.
    + constructor; assumption.
Qed.

Lemma findCol_first_key_witness :
  match findCol ["Owner"; "Status"; "Deal Status"] ["deal status"; "status"] with
  | Some k =>
    exists before after,
      ["Owner"; "Status"; "Deal Status"] = (before ++ k :: after)%list
      /\ holdsPattern ["deal status"; "status"] k = true
      /\ Forall (fun k' => holdsPattern ["deal status"; "status"] k' = false)
           before
  | None =>
    Forall (fun k' => holdsPattern ["deal status"; "status"] k' = false)
      ["Owner"; "Status"; "Deal Status"]
  end.
Proof.
  apply (findCol_first_key ["Owner"; "Status"; "Deal Status"]
           ["deal status"; "status"]).
  reflexivity.
Defined.

(** X14.  The patterns of a call of [findCol] count as a set: their order
    and their repetition are of no effect on the key that is found. *)
Theorem findCol_patterns_as_a_set keys ps ps' :
  incl ps ps' -> incl ps' ps -> findCol keys ps = findCol keys ps'.
Proof.
  intros H H'; apply findCol_cover; [exact H'|].
  intros p Hp; exists p; split; [now apply H | apply includes_refl].
Qed.

Lemma findCol_patterns_as_a_set_witness :
  findCol ["Owner"; "Status"; "Deal Status"] ["deal status"; "status"]
  = findCol ["Owner"; "Status"; "Deal Status"] ["status"; "deal status"].
Proof.
  apply (findCol_patterns_as_a_set ["Owner"; "Status"; "Deal Status"]
           ["deal status"; "status"] ["status"; "deal status"]);
    intros p Hp; simpl in *; tauto.
Defined.

Ltac same_patterns :=
  apply findCol_cover;
  [ intros p Hp; simpl in *; tauto
  | intros p Hp; simpl in Hp;
    repeat match goal with
           | H : _ \/ _ |- _ => destruct H as [<-|H]
           | H : False |- _ => destruct H
           end;
    (apply (proj1 (existsb_exists (includes _) _)); vm_compute; reflexivity) ].

(** X15.  In the calls of [findCol] that give a longer pattern before a
    shorter one it contains, the longer pattern is of no effect: the status,
    value, stage, execution, nature, collected and receivable columns are
    found by the shorter pattern alone. *)
Theorem redundant_patterns keys :
  findCol keys ["deal status"; "status"] = findCol keys ["status"]
  /\ dealsValueCol keys = findCol keys ["masked deal"; "value"]
  /\ findCol keys ["deal stage"; "stage"] = findCol keys ["stage"]
  /\ findCol keys ["execution status"; "execution"] = findCol keys ["execution"]
  /\ findCol keys ["nature of work"; "nature"] = findCol keys ["nature"]
  /\ findCol keys ["collected amount"; "collected"] = findCol keys ["collected"]
  /\ findCol keys ["amount receivable"; "receivable"]
     = findCol keys ["receivable"].
Proof.
  unfold dealsValueCol; repeat split; same_patterns.
Qed.

(** X16.  The patterns written with [.*] are looked for as they are
    written, not as wild cards: among keys that do not hold these two
    characters they find nothing, and the amount and the billed value are
    found by the first pattern of their call alone. *)
Theorem wildcard_patterns_are_literal keys :
  plainKeys keys = true ->
  workOrdersValueCol keys = findCol keys ["amount in rupees (excl"]
  /\ findCol keys ["billed value in rupees (excl"; "billed.*excl"]
     = findCol keys ["billed value in rupees (excl"].
Proof.
  intros H; unfold plainKeys in H; rewrite forallb_forall in H.
  unfold workOrdersValueCol.
  split; apply findCol_ext; intros k Hk; unfold holdsPattern;
    cbn [existsb]; rewrite !orb_false_r; pose proof (H k Hk) as Hplain.
  - destruct (includes (toLowerCase k) "amount.*excl") eqn:E;
      [|now rewrite orb_false_r].
    assert (includes (toLowerCase k) ".*" = true) as Hwild
      by (apply (includes_trans _ _ _ E); vm_compute; reflexivity).
    rewrite Hwild in Hplain; discriminate.
  - destruct (includes (toLowerCase k) "billed.*excl") eqn:E;
      [|now rewrite orb_false_r].
    assert (includes (toLowerCase k) ".*" = true) as Hwild
      by (apply (includes_trans _ _ _ E); vm_compute; reflexivity).
    rewrite Hwild in Hplain; discriminate.
Qed.

Lemma wildcard_patterns_are_literal_witness :
  workOrdersValueCol ["Amount (Excl GST)"; "Billed (Excl GST)"]
  = findCol ["Amount (Excl GST)"; "Billed (Excl GST)"]
      ["amount in rupees (excl"]
  /\ findCol ["Amount (Excl GST)"; "Billed (Excl GST)"]
       ["billed value in rupees (excl"; "billed.*excl"]
     = findCol ["Amount (Excl GST)"; "Billed (Excl GST)"]
         ["billed value in rupees (excl"].
Proof.
  apply (wildcard_patterns_are_literal
           ["Amount (Excl GST)"; "Billed (Excl GST)"]).
  vm_compute; reflexivity.
Defined.

(** The amount column of a board whose titles are shorter than the first
    pattern is not found. *)
Example short_amount_title_is_not_found :
  workOrdersValueCol ["Amount (Excl GST)"; "Billed (Excl GST)"] = None.
Proof. vm_compute; reflexivity. Qed.

(** ** The order of the groups *)

Lemma in_firstSeen l k : In k (firstSeen l) <-> In k l.
Proof.
  induction l as [|a l IH]; simpl; [tauto|].
  rewrite filter_In, IH.
  destruct (String.eqb_spec k a) as [->|Hne]; simpl; intuition congruence.
Qed.

Lemma firstSeen_snoc l k :
  firstSeen (l ++ [k])
  = if existsb (String.eqb k) l then firstSeen l else (firstSeen l ++ [k])%list.
Proof.
  induction l as [|a l IH]; simpl; [reflexivity|].
  rewrite IH.
  destruct (String.eqb_spec k a) as [->|Hne]; simpl.
  - destruct (existsb (String.eqb a) l); [reflexivity|].
    rewrite filter_app; simpl; rewrite String.eqb_refl; simpl.
    now rewrite app_nil_r.
  - destruct (existsb (String.eqb k) l); [reflexivity|].
    rewrite filter_app; simpl.
    destruct (String.eqb_spec k a); [contradiction | reflexivity].
Qed.

Lemma groupBy_snoc memberText data row key :
  groupBy memberText (data ++ [row]) key
  = match groupBy memberText data key with
    | Returned groups => groupStep memberText key groups row
    | Thrown e => Thrown e
    end.
Proof. unfold groupBy; now rewrite fold_left_app. Qed.

Lemma get_none_iff {V : Type} (o : JsObject.t V) k :
  JsObject.get o k = None <-> ~ In k (map fst o).
Proof.
  induction o as [|[k' v] o IH]; simpl; [tauto|].
  destruct (String.eqb_spec k' k) as [->|Hne].
  - split; [discriminate | intros H; exfalso; apply H; now left].
  - rewrite IH; intuition congruence.
Qed.

(** The keys of the groups, in the order in which they were created. *)
Lemma groupBy_keys memberText key data : forall groups,
  groupBy memberText data key = Returned groups ->
  map fst groups = groupKeys memberText data key.
Proof.
  unfold groupKeys.
  induction data as [|row data IH] using rev_ind; intros groups Hg.
  - injection Hg as <-; reflexivity.
  - rewrite groupBy_snoc in Hg.
    destruct (groupBy memberText data key) as [before|e]; [|discriminate].
    specialize (IH before eq_refl).
    rewrite map_app; cbn [map]; rewrite firstSeen_snoc.
    unfold groupStep in Hg.
    destruct (JsObject.get before (groupKey memberText row key))
      as [rows|] eqn:E.
    + injection Hg as <-.
      destruct (JsObjectFacts.set_present _ _ (rows ++ [row])%list _ E)
        as (pre & post & Hb & -> & _).
      assert (Hin : In (groupKey memberText row key) (map fst before)).
      { rewrite Hb, map_app; apply in_or_app; right; now left. }
      rewrite IH, in_firstSeen in Hin.
      assert (Hex : existsb (String.eqb (groupKey memberText row key))
                      (map (fun row => groupKey memberText row key) data)
                    = true).
      { apply existsb_exists; exists (groupKey memberText row key).
        split; [exact Hin | apply String.eqb_refl]. }
      rewrite Hex, <- IH, Hb, !map_app; reflexivity.
    + destruct (JsObject.inherited (groupKey memberText row key));
        [discriminate|].
      injection Hg as <-.
      rewrite (JsObjectFacts.set_fresh _ _ _ E), map_app; simpl.
      apply get_none_iff in E; rewrite IH, in_firstSeen in E.
      destruct (existsb _ _) eqn:Hex.
      * exfalso; apply E.
        apply existsb_exists in Hex; destruct Hex as (k & Hk & Heq).
        apply String.eqb_eq in Heq; now subst k.
      * now rewrite IH.
Qed.

Lemma entries_by_key {V : Type} (o : JsObject.t V) (F : string -> V) :
  (forall k v, In (k, v) o -> v = F k) ->
  o = map (fun k => (k, F k)) (map fst o).
Proof.
  induction o as [|[k v] o IH]; intros H; simpl; [reflexivity|].
  rewrite <- IH by (intros k' v' Hin; apply H; now right).
  now rewrite (H k v) by now left.
Qed.

(** [Object.entries] keeps the order of creation when no key is an array
    index. *)
Lemma entries_named {V : Type} (o : JsObject.t V) :
  (forall k, In k (map fst o) -> JsObject.arrayIndex k = None) ->
  JsObject.entries o = o.
Proof.
  intros H; unfold JsObject.entries.
  assert (Hi : JsObject.indexEntries o = []
               /\ JsObject.namedEntries o = o).
  { induction o as [|[k v] o IH]; simpl; [auto|].
    rewrite (H k) by now left.
    destruct IH as [-> ->]; [intros k' Hk'; apply H; now right|]; auto. }
  destruct Hi as [-> ->]; reflexivity.
Qed.

Lemma groupBy_shape memberText data key groups :
  groupBy memberText data key = Returned groups ->
  groups
  = map (fun k => (k, recordsOfKey memberText data key k))
      (groupKeys memberText data key).
Proof.
  intros Hg.
  rewrite <- (groupBy_keys memberText key data groups Hg).
  apply entries_by_key; intros k rows Hin.
  apply JsObjectFacts.in_get in Hin;
    [|exact (groupBy_NoDup_fst memberText key data groups Hg)].
  rewrite (groupBy_get memberText key data groups k Hg) in Hin.
  destruct (recordsOfKey memberText data key k); congruence.
Qed.

(** [groupBy] throws exactly when one of the keys names an inherited
    member. *)
Lemma groupBy_thrown_keys memberText data key :
  existsb JsObject.inherited (groupKeys memberText data key) = true
  <-> groupBy memberText data key = Thrown TypeError.
Proof.
  rewrite groupBy_thrown_iff, existsb_exists; unfold groupKeys.
  split.
  - intros (k & Hk & Hi).
    apply in_firstSeen, in_map_iff in Hk; destruct Hk as (row & <- & Hrow).
    eauto.
  - intros (row & Hrow & Hi).
    exists (groupKey memberText row key); split; [|exact Hi].
    apply in_firstSeen, in_map_iff; eauto.
Qed.

(** X17.  [groupBy] throws when the key of a record names a member inherited
    from [Object.prototype]; otherwise its groups are created in the order
    in which their keys first occur among the records, and each group holds
    the records of its key in the order of the records.  [Object.entries]
    lists them in that order when no key is the numeral of an array
    index. *)
Theorem groups_in_first_seen_order memberText data key :
  groupBy memberText data key
  = (if existsb JsObject.inherited (groupKeys memberText data key)
     then Thrown TypeError
     else Returned
            (map (fun k => (k, recordsOfKey memberText data key k))
               (groupKeys memberText data key)))
  /\ (namedGroups memberText data key = true ->
      forall groups,
        groupBy memberText data key = Returned groups ->
        JsObject.entries groups
        = map (fun k => (k, recordsOfKey memberText data key k))
            (groupKeys memberText data key)).
Proof.
  split.
  - destruct (existsb JsObject.inherited (groupKeys memberText data key))
      eqn:E.
    + now apply groupBy_thrown_keys.
    + destruct (groupBy memberText data key) as [groups|[]] eqn:Hg.
      * f_equal; now apply groupBy_shape.
      * apply groupBy_thrown_keys in Hg; congruence.
  - intros Hnamed groups Hg.
    rewrite <- (groupBy_shape memberText data key groups Hg).
    apply entries_named.
    intros k Hk; rewrite (groupBy_keys memberText key data groups Hg) in Hk.
    apply in_firstSeen, in_map_iff in Hk; destruct Hk as (row & <- & Hrow).
    unfold namedGroups in Hnamed; rewrite forallb_forall in Hnamed.
    pose proof (Hnamed row Hrow) as H.
    now destruct (JsObject.arrayIndex (groupKey memberText row key)).
Qed.

Lemma groups_in_first_seen_order_witness :
  let data := MoreSamples.threeDeals in
  let groups :=
    [("Mining", [nth 0 data []; nth 2 data []]);
     ("Railways", [nth 1 data []])] in
  groupBy Samples.v8Text data "Sector"
  = (if existsb JsObject.inherited (groupKeys Samples.v8Text data "Sector")
     then Thrown TypeError
     else Returned
            (map (fun k => (k, recordsOfKey Samples.v8Text data "Sector" k))
               (groupKeys Samples.v8Text data "Sector")))
  /\ JsObject.entries groups
     = map (fun k => (k, recordsOfKey Samples.v8Text data "Sector" k))
         (groupKeys Samples.v8Text data "Sector").
Proof.
  intros data groups.
  destruct (groups_in_first_seen_order Samples.v8Text data "Sector")
    as [H1 H2].
  split; [exact H1|].
  apply H2; vm_compute; reflexivity.
Defined.

(** The three deals make two groups, the mining deals first. *)
Example three_deals_by_sector :
  forall memberText,
    namedGroups memberText MoreSamples.threeDeals "Sector" = true
    /\ match groupBy memberText MoreSamples.threeDeals "Sector" with
       | Returned groups =>
         map (fun g => (fst g, map (fun row => nameOr row "-") (snd g)))
           (JsObject.entries groups)
       | Thrown _ => []
       end
       = [("Mining", ["A"; "C"]); ("Railways", ["B"])].
Proof. intros memberText; vm_compute; auto. Qed.

Lemma nameOr_not_empty (row : Row) fallback :
  fallback <> EmptyString -> nameOr row fallback <> EmptyString.
Proof.
  intros H; unfold nameOr.
  destruct (JsObject.get row "_name") as [[|s]|]; auto.
  destruct (String.eqb_spec s EmptyString); auto.
Qed.

Lemma groupKey_not_empty memberText (row : Row) key :
  memberText key <> EmptyString ->
  groupKey memberText row key <> EmptyString.
Proof.
  intros Hm; unfold groupKey.
  destruct (JsObject.get row key) as [[|s]|];
    try (apply nameOr_not_empty; discriminate).
  - destruct (String.eqb_spec s EmptyString); auto.
    apply nameOr_not_empty; discriminate.
  - destruct (JsObject.inherited key); auto.
    apply nameOr_not_empty; discriminate.
Qed.

(** X18.  In a grouping [groupBy] returns, no group has the empty string for
    a key (the text of an inherited member is not empty), and no group is
    empty; so the label ["Not set"], which the closure-probability section
    prints for an empty key, is never printed. *)
Theorem group_keys_are_not_empty memberText data key groups g :
  groupBy memberText data key = Returned groups ->
  memberText key <> EmptyString ->
  In g (JsObject.entries groups) ->
  fst g <> EmptyString
  /\ snd g <> []
  /\ forall valueCol,
       dealsGroupLine "value" valueCol
         (if String.eqb (fst g) EmptyString then "Not set" else fst g, snd g)
       = dealsGroupLine "value" valueCol g.
Proof.
  intros Hg Hm Hin; apply (proj1 (JsObjectFacts.in_entries _ _)) in Hin.
  destruct g as [k rows]; simpl.
  assert (Hget : JsObject.get groups k = Some rows).
  { apply JsObjectFacts.in_get; [|exact Hin].
    exact (groupBy_NoDup_fst memberText key data groups Hg). }
  assert (Hk : k <> EmptyString).
  { destruct (groupBy_key memberText key data groups k rows Hg Hget)
      as (row & _ & <-).
    now apply groupKey_not_empty. }
  split; [exact Hk|].
  split.
  - rewrite (groupBy_get memberText key data groups k Hg) in Hget.
    destruct (recordsOfKey memberText data key k);
      [discriminate | congruence].
  - intros valueCol.
    destruct (String.eqb_spec k EmptyString); [contradiction | reflexivity].
Qed.

Lemma group_keys_are_not_empty_witness :
  fst ("Borealis", [Samples.noStatus]) <> EmptyString
  /\ snd ("Borealis", [Samples.noStatus]) <> []
  /\ forall valueCol,
       dealsGroupLine "value" valueCol
         (if String.eqb (fst ("Borealis", [Samples.noStatus])) EmptyString
          then "Not set" else fst ("Borealis", [Samples.noStatus]),
          snd ("Borealis", [Samples.noStatus]))
       = dealsGroupLine "value" valueCol ("Borealis", [Samples.noStatus]).
Proof.
  apply (group_keys_are_not_empty Samples.v8Text
           [Samples.noStatus; Samples.anonymous] "Closure Probability"
           [("Borealis", [Samples.noStatus]); ("Unknown", [Samples.anonymous])]
           ("Borealis", [Samples.noStatus])).
  - reflexivity.
  - discriminate.
  - vm_compute; left; reflexivity.
Defined.

(** ** The sections sorted by the number of records *)

Module CountFacts.
Import JsNumberFacts.
Local Open Scope Z_scope.

Lemma digits2_iter_xO d m :
  Zpos (digits2_pos (Pos.iter xO m d)) = Zpos (digits2_pos m) + Zpos d.
Proof.
  induction d as [|d IH] using Pos.peano_ind.
  - simpl; lia.
  - rewrite Pos.iter_succ; simpl digits2_pos.
    rewrite Pos2Z.inj_succ, IH; lia.
Qed.

Lemma digits2_upper m k :
  0 <= k -> Zpos m < 2 ^ k -> Zpos (digits2_pos m) <= k.
Proof.
  intros Hk Hm.
  pose proof (digits2_bound m) as Hd.
  assert (H : 2 ^ (Zpos (digits2_pos m) - 1) < 2 ^ k) by lia.
  apply Z.pow_lt_mono_r_iff in H; lia.
Qed.

(** A mantissa of 53 bits with an exponent in range is not rounded. *)
Lemma binary_round_aux_exact mz ez :
  Zpos (digits2_pos mz) = 53 ->
  -1074 <= ez <= 971 ->
  binary_round_aux prec emax false (Zpos mz) ez loc_Exact
  = S754_finite false mz ez.
Proof.
  intros Hd He.
  assert (Hshift : shr_fexp prec emax (Zpos mz) ez loc_Exact
                   = (shr_record_of_loc (Zpos mz) loc_Exact, ez)).
  { unfold shr_fexp, Zdigits2; rewrite Hd.
    replace (fexp prec emax (53 + ez) - ez) with 0
      by (unfold fexp, emin, prec, emax; lia).
    reflexivity. }
  unfold binary_round_aux; rewrite Hshift.
  cbn [shr_record_of_loc shr_m loc_of_shr_record round_nearest_even].
  rewrite Hshift; cbn [shr_record_of_loc shr_m].
  replace (ez <=? emax - prec) with true; [reflexivity|].
  symmetry; apply Z.leb_le; unfold emax, prec; lia.
Qed.

(** An integer below [2 ^ 53] is a binary64 number. *)
Lemma ofZ_rank p :
  Zpos p < 2 ^ 53 -> rank (ofZ (Zpos p)) = Finite (Zpos p * 2 ^ 1074).
Proof.
  intros Hp.
  pose proof (digits2_upper p 53 ltac:(lia) Hp) as Hd.
  assert (0 < Zpos (digits2_pos p)) as Hd0 by lia.
  unfold ofZ, binary_normalize, binary_round.
  replace (fexp prec emax (Zpos (digits2_pos p) + 0))
    with (Zpos (digits2_pos p) - 53)
    by (unfold fexp, emin, prec, emax; lia).
  unfold shl_align.
  destruct (Zpos (digits2_pos p) - 53 - 0) as [|k|k] eqn:E; try lia.
  - rewrite binary_round_aux_exact by lia; reflexivity.
  - rewrite binary_round_aux_exact
      by (rewrite ?digits2_iter_xO; lia).
    unfold rank; rewrite iter_xO_value; f_equal.
    replace (Zpos (digits2_pos p) - 53 + 1074) with (1074 - Zpos k) by lia.
    replace 1074 with (Zpos k + (1074 - Zpos k)) at 2 by lia.
    rewrite Z.pow_add_r by lia; lia.
Qed.

Lemma ofNat_rank n :
  exactLength n -> rank (ofNat n) = Finite (Z.of_nat n * 2 ^ 1074).
Proof.
  unfold exactLength, ofNat; intros H.
  destruct (Z.of_nat n) as [|p|p] eqn:E; try lia.
  - reflexivity.
  - now apply ofZ_rank.
Qed.

Lemma ofNat_representable n :
  representable (ofNat n) /\ isNaN (ofNat n) = false.
Proof.
  unfold ofNat, ofZ, binary_normalize.
  destruct (Z.of_nat n) as [|p|p] eqn:E; try lia.
  - split; [exact I | reflexivity].
  - split.
    + unfold representable.
      destruct (binary_round prec emax false p 0) as [| | |s m e] eqn:Er; auto.
      exact (binary_round_exponent _ _ _ _ _ _ Er).
    + pose proof (binary_round_positive false p 0 ltac:(lia)) as Hpos.
      destruct (binary_round prec emax false p 0); auto; discriminate.
Qed.

(** The comparison sends [a] behind [b] exactly when [a] has fewer records,
    as binary64 numbers compare. *)
Lemma byCountDesc_positive (a b : string * list Row) :
  isPositive (byCountDesc a b)
  = extLt (rank (ofNat (groupSize a))) (rank (ofNat (groupSize b))).
Proof.
  unfold byCountDesc, groupSize.
  destruct (ofNat_representable (List.length (snd a))) as [Ra Na].
  destruct (ofNat_representable (List.length (snd b))) as [Rb Nb].
  now apply sub_positive.
Qed.

Lemma count_order m n :
  exactLength m -> exactLength n ->
  extLt (rank (ofNat m)) (rank (ofNat n)) = (m <? n)%nat
  /\ extEqb (rank (ofNat m)) (rank (ofNat n)) = (m =? n)%nat.
Proof.
  intros Hm Hn; rewrite !ofNat_rank by assumption; simpl.
  assert (0 < 2 ^ 1074) by (apply Z.pow_pos_nonneg; lia).
  split.
  - destruct (Nat.ltb_spec m n); [apply Z.ltb_lt | apply Z.ltb_ge]; nia.
  - destruct (Nat.eqb_spec m n); [apply Z.eqb_eq | apply Z.eqb_neq]; nia.
Qed.

End CountFacts.

Lemma StronglySorted_weaken {A : Type} (R R' : A -> A -> Prop) (l : list A) :
  (forall x y, In x l -> In y l -> R x y -> R' x y) ->
  StronglySorted R l -> StronglySorted R' l.
Proof.
  intros H Hs; induction Hs as [|x l Hs IH Hall]; constructor.
  - apply IH; intros; apply H; simpl; auto.
  - rewrite Forall_forall in *; intros y Hy.
    apply H; simpl; auto.
Qed.

(** Sorting groups with [byCountDesc]: the groups by descending size, groups
    of one size in the order they had. *)
Lemma sort_by_count (l : list (string * list Row)) :
  Forall (fun g => exactLength (groupSize g)) l ->
  let sorted := sort byCountDesc l in
  Permutation sorted l
  /\ StronglySorted (fun a b => groupSize b <= groupSize a) sorted
  /\ forall n,
       filter (fun g => (groupSize g =? n)%nat) sorted
       = filter (fun g => (groupSize g =? n)%nat) l.
Proof.
  intros Hl sorted.
  assert (Hperm : Permutation sorted l) by apply sort_perm.
  assert (Hsorted : forall g, In g sorted -> exactLength (groupSize g)).
  { intros g Hg; rewrite Forall_forall in Hl; apply Hl.
    exact (Permutation_in _ Hperm Hg). }
  split; [exact Hperm|].
  split.
  - pose proof (sort_sorted byCountDesc
                  (fun g => rank (ofNat (groupSize g)))
                  CountFacts.byCountDesc_positive l) as Hs.
    revert Hs; apply StronglySorted_weaken; intros a b Ha Hb Hab.
    destruct (CountFacts.count_order (groupSize a) (groupSize b)) as [Hlt _];
      auto.
    rewrite Hlt in Hab; apply Nat.ltb_ge in Hab; exact Hab.
  - intros n.
    destruct (Z.ltb_spec (Z.of_nat n) (2 ^ 53)) as [Hn|Hn].
    + pose proof (sort_stable byCountDesc
                    (fun g => rank (ofNat (groupSize g)))
                    CountFacts.byCountDesc_positive (rank (ofNat n)) l) as Hst.
      fold sorted in Hst.
      rewrite (filter_ext_in (fun g => (groupSize g =? n)%nat)
                 (fun g => extEqb (rank (ofNat (groupSize g)))
                             (rank (ofNat n))) sorted).
      * rewrite Hst; apply filter_ext_in; intros g Hg.
        rewrite Forall_forall in Hl.
        now destruct (CountFacts.count_order (groupSize g) n) as [_ ->]; auto.
      * intros g Hg.
        now destruct (CountFacts.count_order (groupSize g) n) as [_ ->]; auto.
    + assert (Hnone : forall l' : list (string * list Row),
                (forall g, In g l' -> exactLength (groupSize g)) ->
                filter (fun g => (groupSize g =? n)%nat) l' = []).
      { induction l' as [|g l' IH]; intros H; simpl; [reflexivity|].
        pose proof (H g (or_introl eq_refl)) as Hg; unfold exactLength in Hg.
        destruct (Nat.eqb_spec (groupSize g) n); [lia|].
        apply IH; intros; apply H; now right. }
      rewrite !Hnone; auto.
      rewrite Forall_forall in Hl; exact Hl.
Qed.

(** X20.  The sections sorted by count ("By Sector", "By Owner"), for the
    column [findCol] found (a key that is not empty), records whose number
    is an array length and a grouping [groupBy] returns, list every group
    once, a group with more records before a group with fewer, and groups
    with the same number of records in the order [Object.entries] gives
    them. *)
Theorem sections_by_descending_count memberText data key groups :
  key <> EmptyString ->
  exactLength (List.length data) ->
  groupBy memberText data key = Returned groups ->
  let entries := JsObject.entries groups in
  let sorted := sort byCountDesc entries in
  Permutation sorted entries
  /\ StronglySorted (fun a b => groupSize b <= groupSize a) sorted
  /\ (forall n,
        filter (fun g => (groupSize g =? n)%nat) sorted
        = filter (fun g => (groupSize g =? n)%nat) entries)
  /\ forall title line,
       groupSection memberText data (Some key) title (sort byCountDesc) line
       = Returned (nl ++ title ++ nl ++ concatLines (map line sorted)).
Proof.
  intros _ Hdata Hg entries sorted.
  assert (Hl : Forall (fun g => exactLength (groupSize g)) entries).
  { apply Forall_forall; intros [k rows] Hin.
    apply (proj1 (JsObjectFacts.in_entries _ _)) in Hin.
    apply JsObjectFacts.in_get in Hin;
      [|exact (groupBy_NoDup_fst memberText key data groups Hg)].
    rewrite (groupBy_get memberText key data groups k Hg) in Hin.
    assert (rows = recordsOfKey memberText data key k) as ->
        by (destruct (recordsOfKey memberText data key k); congruence).
    unfold exactLength, groupSize, recordsOfKey in *; simpl.
    pose proof (filter_length_le
                  (fun row => String.eqb (groupKey memberText row key) k)
                  data).
    lia. }
  destruct (sort_by_count entries Hl) as (Hp & Hs & Hst).
  repeat split; auto.
  intros title line; unfold groupSection; rewrite Hg; reflexivity.
Qed.

Lemma sections_by_descending_count_witness :
  let deals := MoreSamples.threeDeals in
  let data := [nth 1 deals []; nth 0 deals []; nth 2 deals []] in
  let entries :=
    [("Railways", [nth 1 deals []]);
     ("Mining", [nth 0 deals []; nth 2 deals []])] in
  let sorted := sort byCountDesc entries in
  groupBy Samples.v8Text data "Sector" = Returned entries
  /\ sorted = rev entries
  /\ Permutation sorted entries
  /\ StronglySorted (fun a b => groupSize b <= groupSize a) sorted
  /\ (forall n,
        filter (fun g => (groupSize g =? n)%nat) sorted
        = filter (fun g => (groupSize g =? n)%nat) entries)
  /\ forall title line,
       groupSection Samples.v8Text data (Some "Sector") title
         (sort byCountDesc) line
       = Returned (nl ++ title ++ nl ++ concatLines (map line sorted)).
Proof.
  intros deals data entries sorted.
  split; [reflexivity|].
  split; [vm_compute; reflexivity|].
  apply (sections_by_descending_count Samples.v8Text data "Sector" entries).
  - discriminate.
  - unfold exactLength; vm_compute; reflexivity.
  - reflexivity.
Defined.

(** ** The totals of sumField *)

Module SumFacts.
Import JsNumberFacts.
Local Open Scope Z_scope.

(** Rounding a positive mantissa does not give a zero. *)
Lemma binary_round_aux_not_zero sx mx ex lx :
  0 < mx -> -1074 <= ex ->
  isZeroNumber (binary_round_aux prec emax sx mx ex lx) = false.
Proof.
  intros Hm He; unfold binary_round_aux.
  pose proof (shr_fexp_positive mx ex lx Hm He) as H1.
  pose proof (shr_fexp_exponent mx ex lx) as E1.
  destruct (shr_fexp prec emax mx ex lx) as [mrs1 e1]; simpl in H1, E1.
  pose proof (shr_fexp_positive _ e1 loc_Exact
                (round_nearest_even_positive _ (loc_of_shr_record mrs1) H1) E1)
    as H2.
  destruct (shr_fexp prec emax _ e1 loc_Exact) as [mrs2 e2]; simpl in H2.
  destruct (shr_m mrs2); try lia.
  destruct (e2 <=? emax - prec); reflexivity.
Qed.

Lemma binary_round_not_zero sx mx ex :
  -1074 <= ex -> isZeroNumber (binary_round prec emax sx mx ex) = false.
Proof.
  intros He; unfold binary_round.
  pose proof (shl_align_exponent mx ex
                (fexp prec emax (Zpos (digits2_pos mx) + ex)) He) as H.
  destruct (shl_align mx ex _) as [mz ez]; simpl in H.
  apply binary_round_aux_not_zero; [lia|].
  apply H; unfold fexp, emin, prec, emax; lia.
Qed.

Lemma binary_normalize_total M e :
  -1074 <= e -> runningTotal (binary_normalize prec emax M e false).
Proof.
  intros He; unfold runningTotal, binary_normalize.
  destruct M as [|p|p].
  - split; [exact I | discriminate].
  - pose proof (binary_round_not_zero false p e He) as Hz.
    destruct (binary_round prec emax false p e) eqn:E; try discriminate Hz;
      split; try exact I; try discriminate.
    exact (binary_round_exponent _ _ _ _ _ _ E).
  - pose proof (binary_round_not_zero true p e He) as Hz.
    destruct (binary_round prec emax true p e) eqn:E; try discriminate Hz;
      split; try exact I; try discriminate.
    exact (binary_round_exponent _ _ _ _ _ _ E).
Qed.

(** A sum of running totals is one: it is -0 only when both numbers are. *)
Lemma add_total x y : runningTotal x -> runningTotal y -> runningTotal (add x y).
Proof.
  intros [Rx Nx] [Ry Ny].
  destruct x as [sx|sx| |sx mx ex], y as [sy|sy| |sy my ey];
    try (split; [exact I | discriminate]);
    try (split; assumption).
  - destruct sx, sy; try congruence; split; try exact I; discriminate.
  - destruct sx, sy; simpl; split; try exact I; discriminate.
  - unfold add, SFadd; apply binary_normalize_total.
    simpl in Rx, Ry; lia.
Qed.

Lemma add_zero x : x <> S754_zero true -> add x zero = x.
Proof. destruct x as [[|]| | |]; simpl; congruence. Qed.

Lemma score_total key row : runningTotal (score key row).
Proof.
  split; [apply score_representable|].
  unfold score; destruct (numberOf _); discriminate.
Qed.

Lemma isZeroNumber_score key row :
  isZeroNumber (score key row) = true -> score key row = zero.
Proof.
  unfold score; destruct (numberOf _); simpl; auto; discriminate.
Qed.

End SumFacts.

Lemma sumField_score rows k :
  sumField rows (Some k)
  = fold_left (fun s r => add s (score (Some k) r)) rows zero.
Proof. reflexivity. Qed.

Lemma sumField_counted rows key :
  sumField rows key = sumField (filter (countsInSum key) rows) key.
Proof.
  destruct key as [k|]; [|reflexivity].
  rewrite !sumField_score.
  assert (H : forall acc, runningTotal acc ->
            fold_left (fun s r => add s (score (Some k) r)) rows acc
            = fold_left (fun s r => add s (score (Some k) r))
                (filter (countsInSum (Some k)) rows) acc).
  { induction rows as [|r rows IH]; intros acc Hacc; [reflexivity|].
    cbn [filter fold_left]; unfold countsInSum at 1.
    destruct (isZeroNumber (score (Some k) r)) eqn:E; cbn [negb].
    - rewrite (SumFacts.isZeroNumber_score _ _ E).
      rewrite SumFacts.add_zero by apply Hacc.
      now apply IH.
    - cbn [fold_left]; apply IH.
      apply SumFacts.add_total; [exact Hacc | apply SumFacts.score_total]. }
  apply H; split; [exact I | discriminate].
Qed.

(** X21.  In the total [sumField] makes of a column (no column, or one whose
    key is not empty, as [findCol] gives it), a record whose cell is absent,
    null, not a number or zero leaves the total as it is: the total is the
    total of the other records.  When no record holds a number, the total is
    0, printed as ["0"]. *)
Theorem blank_cells_leave_the_total rows key :
  key <> Some EmptyString ->
  sumField rows key = sumField (filter (countsInSum key) rows) key
  /\ (forallb (fun row => negb (countsInSum key row)) rows = true ->
      sumField rows key = zero /\ formatNum (sumField rows key) = "0").
Proof.
  intros _; split; [apply sumField_counted|].
  intros H.
  assert (E : sumField rows key = zero).
  { rewrite sumField_counted.
    replace (filter (countsInSum key) rows) with (@nil Row).
    - now destruct key.
    - symmetry; rewrite forallb_forall in H.
      induction rows as [|r rows IH]; simpl; [reflexivity|].
      pose proof (H r (or_introl eq_refl)) as Hr.
      apply negb_true_iff in Hr; rewrite Hr.
      apply IH; intros; apply H; now right. }
  rewrite E; split; [reflexivity | vm_compute; reflexivity].
Qed.

Lemma blank_cells_leave_the_total_witness :
  sumField MoreSamples.threeDeals (Some "Deal Value")
  = sumField (filter (countsInSum (Some "Deal Value")) MoreSamples.threeDeals)
      (Some "Deal Value")
  /\ (forallb (fun row => negb (countsInSum (Some "Deal Value") row))
        MoreSamples.threeDeals = true ->
      sumField MoreSamples.threeDeals (Some "Deal Value") = zero
      /\ formatNum (sumField MoreSamples.threeDeals (Some "Deal Value")) = "0").
Proof.
  apply (blank_cells_leave_the_total MoreSamples.threeDeals
           (Some "Deal Value")).
  discriminate.
Defined.

(** Of the three deals, only the first one counts in the total. *)
Example three_deals_total :
  map (fun row => nameOr row "-")
    (filter (countsInSum (Some "Deal Value")) MoreSamples.threeDeals) = ["A"]
  /\ formatNum (sumField MoreSamples.threeDeals (Some "Deal Value")) = "100".
Proof. vm_compute; auto. Qed.

(** ** Totals of whole numbers *)

Module ExactFacts.
Import JsNumberFacts CountFacts.
Local Open Scope Z_scope.

Lemma iter_pos_iter {A : Type} (f : A -> A) n :
  forall x, iter_pos f n x = Pos.iter f x n.
Proof.
  induction n as [n IH|n IH|]; intros x; simpl.
  - now rewrite !IH, !Pos.iter_swap.
  - now rewrite !IH.
  - reflexivity.
Qed.

(** Shifting out bits that are zero is exact. *)
Lemma shr_exact k : forall q,
  iter_pos shr_1 k
    {| shr_m := Zpos (Pos.iter xO q k); shr_r := false; shr_s := false |}
  = {| shr_m := Zpos q; shr_r := false; shr_s := false |}.
Proof.
  intros q; rewrite iter_pos_iter; revert q.
  induction k as [|k IH] using Pos.peano_ind; intros q.
  - reflexivity.
  - rewrite !Pos.iter_succ.
    rewrite <- (Pos.iter_swap k _ xO q), (IH (xO q)).
    reflexivity.
Qed.

Lemma pos_shift n q k :
  Zpos q = Zpos n * 2 ^ Zpos k -> q = Pos.iter xO n k.
Proof.
  intros H; apply Pos2Z.inj; now rewrite iter_xO_value.
Qed.

Lemma digits2_shift n q k :
  0 <= k -> Zpos q = Zpos n * 2 ^ k ->
  Zpos (digits2_pos q) = Zpos (digits2_pos n) + k.
Proof.
  intros Hk H; destruct k as [|k|k]; try lia.
  - rewrite Z.pow_0_r, Z.mul_1_r in H.
    apply Pos2Z.inj in H; subst q; lia.
  - rewrite (pos_shift n q k H); apply digits2_iter_xO.
Qed.

Lemma shr_fexp_53 m e :
  Zpos (digits2_pos m) = 53 -> -1074 <= e ->
  shr_fexp prec emax (Zpos m) e loc_Exact
  = (shr_record_of_loc (Zpos m) loc_Exact, e).
Proof.
  intros Hd He; unfold shr_fexp, Zdigits2; rewrite Hd.
  replace (fexp prec emax (53 + e) - e) with 0
    by (unfold fexp, emin, prec, emax; lia).
  reflexivity.
Qed.

(** The number of the integer [N = Zpos n], given as [m * 2 ^ (- j)]: its
    mantissa is [N] shifted to 53 bits. *)
Lemma binary_round_exact n m q j :
  0 <= j <= 1074 ->
  Zpos m = Zpos n * 2 ^ j ->
  Zpos (digits2_pos n) <= 53 ->
  Zpos q = Zpos n * 2 ^ (53 - Zpos (digits2_pos n)) ->
  binary_round prec emax false m (- j)
  = S754_finite false q (Zpos (digits2_pos n) - 53).
Proof.
  intros Hj Hm Hd Hq.
  set (d := Zpos (digits2_pos n)) in *.
  assert (Hd0 : 0 < d) by (unfold d; lia).
  assert (Hdm : Zpos (digits2_pos m) = d + j)
    by (apply digits2_shift; [lia | exact Hm]).
  assert (Hdq : Zpos (digits2_pos q) = 53).
  { rewrite (digits2_shift n q (53 - d)); [fold d; lia | lia | exact Hq]. }
  unfold binary_round; rewrite Hdm.
  replace (fexp prec emax (d + j + - j)) with (d - 53)
    by (unfold fexp, emin, prec, emax; lia).
  unfold shl_align.
  destruct (d - 53 - - j) as [|k|k] eqn:E.
  - (* the mantissa has 53 bits *)
    assert (m = q) as ->.
    { apply Pos2Z.inj; rewrite Hm, Hq; f_equal; f_equal; lia. }
    replace (- j) with (d - 53) by lia.
    apply binary_round_aux_exact; [exact Hdq | lia].
  - (* more than 53 bits: the low ones are zero *)
    assert (Hmq : Zpos m = Zpos q * 2 ^ Zpos k).
    { rewrite Hm, Hq, <- Z.mul_assoc, <- Z.pow_add_r by lia.
      f_equal; f_equal; lia. }
    unfold binary_round_aux, shr_fexp at 1, Zdigits2; rewrite Hdm.
    replace (fexp prec emax (d + j + - j) - - j) with (Zpos k)
      by (unfold fexp, emin, prec, emax; lia).
    unfold shr, shr_record_of_loc.
    rewrite (pos_shift q m k Hmq), shr_exact.
    cbn [shr_m loc_of_shr_record round_nearest_even].
    replace (- j + Zpos k) with (d - 53) by lia.
    rewrite shr_fexp_53 by (try exact Hdq; lia).
    cbn [shr_record_of_loc shr_m].
    replace (d - 53 <=? emax - prec) with true; [reflexivity|].
    symmetry; apply Z.leb_le; unfold emax, prec; lia.
  - (* fewer than 53 bits *)
    assert (Pos.iter xO m k = q) as ->.
    { apply Pos2Z.inj; rewrite iter_xO_value, Hm, Hq.
      rewrite <- Z.mul_assoc, <- Z.pow_add_r by lia.
      f_equal; f_equal; lia. }
    apply binary_round_aux_exact; [exact Hdq | lia].
Qed.


Lemma mantissa_53 n :
  Zpos (digits2_pos n) <= 53 ->
  exists q, Zpos q = Zpos n * 2 ^ (53 - Zpos (digits2_pos n)).
Proof.
  intros Hd.
  assert (0 < 2 ^ (53 - Zpos (digits2_pos n))) by (apply pow2_pos; lia).
  exists (Z.to_pos (Zpos n * 2 ^ (53 - Zpos (digits2_pos n)))).
  rewrite Z2Pos.id; [reflexivity | nia].
Qed.

(** The number of an integer below [2 ^ 53]. *)
Lemma ofZ_exact n q :
  Zpos (digits2_pos n) <= 53 ->
  Zpos q = Zpos n * 2 ^ (53 - Zpos (digits2_pos n)) ->
  ofZ (Zpos n) = S754_finite false q (Zpos (digits2_pos n) - 53).
Proof.
  intros Hd Hq.
  apply (binary_round_exact n n q 0); auto; try lia.
Qed.

Lemma add_exact_pos a b :
  Zpos a + Zpos b < 2 ^ 53 ->
  add (ofZ (Zpos a)) (ofZ (Zpos b)) = ofZ (Zpos (a + b)).
Proof.
  intros Hsum.
  assert (Ha : Zpos (digits2_pos a) <= 53) by (apply digits2_upper; lia).
  assert (Hb : Zpos (digits2_pos b) <= 53) by (apply digits2_upper; lia).
  assert (Hab : Zpos (digits2_pos (a + b)) <= 53)
    by (apply digits2_upper; lia).
  destruct (mantissa_53 a Ha) as [qa Hqa].
  destruct (mantissa_53 b Hb) as [qb Hqb].
  destruct (mantissa_53 (a + b) Hab) as [q Hq].
  rewrite (ofZ_exact a qa Ha Hqa), (ofZ_exact b qb Hb Hqb),
    (ofZ_exact (a + b) q Hab Hq).
  set (da := Zpos (digits2_pos a)) in *.
  set (db := Zpos (digits2_pos b)) in *.
  assert (0 < da) by (unfold da; lia).
  assert (0 < db) by (unfold db; lia).
  unfold add, SFadd; cbn [cond_Zopp].
  set (ez := Z.min (da - 53) (db - 53)).
  rewrite !shl_align_value by (unfold ez; lia).
  assert (Ea : Zpos qa * 2 ^ (da - 53 - ez) = Zpos a * 2 ^ (- ez)).
  { rewrite Hqa, <- Z.mul_assoc, <- Z.pow_add_r by (unfold ez; lia).
    f_equal; f_equal; lia. }
  assert (Eb : Zpos qb * 2 ^ (db - 53 - ez) = Zpos b * 2 ^ (- ez)).
  { rewrite Hqb, <- Z.mul_assoc, <- Z.pow_add_r by (unfold ez; lia).
    f_equal; f_equal; lia. }
  rewrite Ea, Eb.
  assert (Hp : 0 < 2 ^ (- ez)) by (apply pow2_pos; unfold ez; lia).
  destruct (Zpos a * 2 ^ (- ez) + Zpos b * 2 ^ (- ez)) as [|m|m] eqn:EM;
    try nia.
  unfold binary_normalize.
  replace ez with (- (- ez)) at 1 by lia.
  apply (binary_round_exact (a + b) m q (- ez)); auto.
  - unfold ez; lia.
  - rewrite <- EM, Pos2Z.inj_add; ring.
Qed.

Lemma ofZ_finite n :
  Zpos n < 2 ^ 53 -> exists q e, ofZ (Zpos n) = S754_finite false q e.
Proof.
  intros H.
  assert (Hd : Zpos (digits2_pos n) <= 53) by (apply digits2_upper; lia).
  destruct (mantissa_53 n Hd) as [q Hq].
  rewrite (ofZ_exact n q Hd Hq); eauto.
Qed.

(** Whole numbers add up exactly below [2 ^ 53]. *)
Lemma add_exact a b :
  0 <= a -> 0 <= b -> a + b < 2 ^ 53 ->
  add (ofZ a) (ofZ b) = ofZ (a + b).
Proof.
  intros Ha Hb Hsum.
  destruct a as [|a|a], b as [|b|b]; try lia; cbn [Z.add].
  - reflexivity.
  - destruct (ofZ_finite b ltac:(lia)) as (q & e & ->); reflexivity.
  - destruct (ofZ_finite a ltac:(lia)) as (q & e & ->); reflexivity.
  - now apply add_exact_pos.
Qed.

Lemma orZero_ofZ a : 0 <= a -> a < 2 ^ 53 -> orZero (ofZ a) = ofZ a.
Proof.
  intros Ha Hb; destruct a as [|a|a]; try lia; [reflexivity|].
  destruct (ofZ_finite a Hb) as (q & e & ->); reflexivity.
Qed.

End ExactFacts.

Lemma wsWidth_digit c r : isDigit c = true -> wsWidth (String c r) = 0%nat.
Proof.
  unfold isDigit, wsWidth; intros H.
  apply andb_prop in H; destruct H as [H1 H2].
  apply N.leb_le in H1, H2.
  set (a := code c) in *.
  repeat match goal with
         | |- context [(a =? ?k)%N] =>
           replace (a =? k)%N with false by (symmetry; apply N.eqb_neq; lia)
         end.
  simpl.
  destruct r as [|b [|c' r']]; reflexivity.
Qed.

Lemma spanDigits_all ds :
  allDigits ds = true -> spanDigits ds = (ds, EmptyString).
Proof.
  unfold allDigits; induction ds as [|c r IH]; simpl; [reflexivity|].
  intros H; apply andb_prop in H; destruct H as [Hc Hr].
  now rewrite Hc, (IH Hr).
Qed.

Lemma append_empty s : s ++ EmptyString = s.
Proof. induction s; simpl; congruence. Qed.

Lemma digitsValue_go_nonneg ds : forall acc,
  allDigits ds = true -> (0 <= acc)%Z -> (0 <= digitsValue_go acc ds)%Z.
Proof.
  unfold allDigits; induction ds as [|c r IH];
    cbn [digitsValue_go forallb list_ascii_of_string]; intros acc H Hacc; auto.
  apply andb_prop in H; destruct H as [Hc Hr].
  apply IH; auto.
  unfold isDigit in Hc; apply andb_prop in Hc; destruct Hc as [H1 _].
  apply N.leb_le in H1; lia.
Qed.

Lemma parseFloat_digits ds :
  ds <> EmptyString -> allDigits ds = true ->
  parseFloat ds = ofZ (digitsValue ds).
Proof.
  intros Hne Hd.
  pose proof (digitsValue_go_nonneg ds 0 Hd ltac:(lia)) as Hv.
  fold (digitsValue ds) in Hv.
  destruct ds as [|c r]; [contradiction|].
  assert (Hc : isDigit c = true).
  { unfold allDigits in Hd; simpl in Hd; apply andb_prop in Hd; tauto. }
  unfold parseFloat, trimStart; cbn [trimStart_go].
  rewrite (wsWidth_digit c r Hc).
  assert (Hsign : signOf (String c r) = (false, String c r)).
  { unfold signOf.
    destruct (code c =? 45)%N eqn:E1.
    { apply N.eqb_eq in E1; unfold isDigit in Hc; rewrite E1 in Hc; discriminate. }
    destruct (code c =? 43)%N eqn:E2; [|reflexivity].
    apply N.eqb_eq in E2; unfold isDigit in Hc; rewrite E2 in Hc; discriminate. }
  rewrite Hsign.
  assert (Hinf : String.prefix "Infinity" (String c r) = false).
  { destruct (String.prefix "Infinity" (String c r)) eqn:E; [|reflexivity].
    apply prefix_iff in E; destruct E as [t Ht].
    injection Ht as Hi _; rewrite Hi in Hc; discriminate Hc. }
  rewrite Hinf, (spanDigits_all _ Hd), append_empty.
  destruct (digitsValue (String c r)) as [|m|m]; try lia.
  - reflexivity.
  - unfold ofDecimal; simpl; unfold ofZ.
    now rewrite Pos.mul_1_r.
Qed.

Lemma wholeCell_nonneg v a : wholeCell v = Some a -> (0 <= a)%Z.
Proof.
  unfold wholeCell; destruct v as [[|s]|]; try (intros [= <-]; lia).
  destruct (String.eqb s EmptyString); [intros [= <-]; lia|].
  destruct (allDigits s) eqn:E; [|discriminate].
  intros [= <-]; apply (digitsValue_go_nonneg s 0 E); lia.
Qed.

Lemma wholeCell_number v a :
  wholeCell v = Some a -> (a < 2 ^ 53)%Z -> orZero (numberOf v) = ofZ a.
Proof.
  intros H Ha; pose proof (wholeCell_nonneg v a H) as H0.
  unfold wholeCell in H; destruct v as [[|s]|]; try (injection H as <-; reflexivity).
  destruct (String.eqb_spec s EmptyString) as [->|Hne];
    [injection H as <-; reflexivity|].
  destruct (allDigits s) eqn:E; [|discriminate].
  injection H as <-; simpl.
  rewrite (parseFloat_digits s Hne E).
  now apply ExactFacts.orZero_ofZ.
Qed.

Lemma wholeTotal_nonneg key rows : forall total,
  wholeTotal key rows = Some total -> (0 <= total)%Z.
Proof.
  induction rows as [|row rows IH]; simpl; intros total H.
  - injection H as <-; lia.
  - destruct (wholeCell (JsObject.get row key)) as [a|] eqn:Ea; [|discriminate].
    destruct (wholeTotal key rows) as [b|]; [|discriminate].
    injection H as <-.
    pose proof (wholeCell_nonneg _ _ Ea); pose proof (IH b eq_refl); lia.
Qed.

Lemma sumField_whole key rows : forall acc total,
  (0 <= acc)%Z ->
  wholeTotal key rows = Some total ->
  (acc + total < 2 ^ 53)%Z ->
  fold_left (fun s r => add s (orZero (numberOf (JsObject.get r key))))
    rows (ofZ acc)
  = ofZ (acc + total).
Proof.
  induction rows as [|row rows IH]; intros acc total Hacc H Hsum.
  - injection H as <-; now rewrite Z.add_0_r.
  - cbn [wholeTotal] in H.
    destruct (wholeCell (JsObject.get row key)) as [a|] eqn:Ea; [|discriminate].
    destruct (wholeTotal key rows) as [b|] eqn:Eb; [|discriminate].
    injection H as <-.
    pose proof (wholeCell_nonneg _ _ Ea) as Ha.
    pose proof (wholeTotal_nonneg _ _ _ Eb) as Hb.
    cbn [fold_left].
    rewrite (wholeCell_number _ a Ea) by lia.
    rewrite ExactFacts.add_exact by lia.
    rewrite (IH (acc + a)%Z b) by (auto; lia).
    f_equal; lia.
Qed.

(** [formatNum] prints the whole numbers below 1000 as they are. *)
Lemma formatNum_below_1000 :
  forallb (fun n => String.eqb (formatNum (ofNat n)) (showNat n)) (seq 0 1000)
  = true.
Proof. vm_compute; reflexivity. Qed.

Lemma formatNum_whole total :
  (0 <= total < 1000)%Z -> formatNum (ofZ total) = showZ total.
Proof.
  intros H.
  pose proof formatNum_below_1000 as Hall.
  rewrite forallb_forall in Hall.
  assert (Hin : In (Z.to_nat total) (seq 0 1000)) by (apply in_seq; lia).
  pose proof (Hall _ Hin) as E; apply String.eqb_eq in E.
  unfold ofNat, showNat in E.
  rewrite Z2Nat.id in E by lia.
  rewrite E; unfold showZ; f_equal; lia.
Qed.

(** X27.  When every cell of the column is absent, null, empty or a string
    of decimal digits, and the total of these whole numbers is below
    [2 ^ 53], the total [sumField] computes in binary64 is that total
    exactly; below 1000 [formatNum] prints it as its decimal numeral. *)
Theorem whole_amounts_add_up_exactly rows key total :
  key <> EmptyString ->
  wholeTotal key rows = Some total ->
  (total < 2 ^ 53)%Z ->
  sumField rows (Some key) = ofZ total
  /\ rank (sumField rows (Some key)) = Finite (total * 2 ^ 1074)
  /\ ((total < 1000)%Z -> formatNum (sumField rows (Some key)) = showZ total).
Proof.
  intros _ H Hsum.
  pose proof (wholeTotal_nonneg _ _ _ H) as H0.
  assert (E : sumField rows (Some key) = ofZ total).
  { unfold sumField; change zero with (ofZ 0).
    now rewrite (sumField_whole key rows 0 total) by (auto; lia). }
  rewrite E; split; [reflexivity|]; split.
  - destruct total as [|p|p]; try lia; [reflexivity|].
    now apply CountFacts.ofZ_rank.
  - intros Hsmall; apply formatNum_whole; lia.
Qed.

Lemma whole_amounts_add_up_exactly_witness :
  sumField MoreSamples.wholeDeals (Some "Deal Value") = ofZ 350
  /\ rank (sumField MoreSamples.wholeDeals (Some "Deal Value"))
     = Finite (350 * 2 ^ 1074)
  /\ ((350 < 1000)%Z ->
      formatNum (sumField MoreSamples.wholeDeals (Some "Deal Value"))
      = showZ 350).
Proof.
  apply (whole_amounts_add_up_exactly MoreSamples.wholeDeals "Deal Value" 350).
  - discriminate.
  - reflexivity.
  - reflexivity.
Defined.

(** ** Numeric normalization *)

(** *** The numerals of whole numbers *)

Module NumeralFacts.

Lemma length_append (a b : string) :
  String.length (a ++ b) = String.length a + String.length b.
Proof. induction a as [|c a IH]; simpl; congruence. Qed.

(** The numeral of a reversed list of digits followed by further digits. *)
Lemma string_of_revapp d : forall d',
  NilEmpty.string_of_uint (Decimal.revapp d d')
  = NilEmpty.string_of_uint (Decimal.rev d) ++ NilEmpty.string_of_uint d'.
Proof.
  unfold Decimal.rev.
  induction d as [|d IH|d IH|d IH|d IH|d IH|d IH|d IH|d IH|d IH|d IH];
    intros d'; simpl; [reflexivity|..];
    rewrite IH, (IH (_ Decimal.Nil)); simpl;
    now rewrite append_assoc.
Qed.

(** The last digit of a numeral. *)
Lemma to_lu_digit p r :
  (r < 10)%N ->
  NilEmpty.string_of_uint (Decimal.rev (Unsigned.to_lu (10 * Npos p + r)))
  = NilEmpty.string_of_uint (Decimal.rev (Unsigned.to_lu (Npos p)))
    ++ String (digitChar r) EmptyString.
Proof.
  intros Hr.
  assert (Hcases : (r = 0 \/ r = 1 \/ r = 2 \/ r = 3 \/ r = 4 \/ r = 5
                    \/ r = 6 \/ r = 7 \/ r = 8 \/ r = 9)%N) by lia.
  assert (Hsucc : forall n, (n + 1 = N.succ n)%N) by (intros; lia).
  pose proof (Unsigned.to_ldec_tenfold p) as H0.
  set (n := (10 * Npos p)%N) in *.
  assert (H1 : Unsigned.to_lu (n + 1) = Decimal.D1 (Unsigned.to_lu (Npos p)))
    by (rewrite Hsucc, Unsigned.to_lu_succ, H0; reflexivity).
  assert (H2 : Unsigned.to_lu (n + 2) = Decimal.D2 (Unsigned.to_lu (Npos p))).
  { replace (n + 2)%N with (N.succ (n + 1)) by lia.
    rewrite Unsigned.to_lu_succ, H1; reflexivity. }
  assert (H3 : Unsigned.to_lu (n + 3) = Decimal.D3 (Unsigned.to_lu (Npos p))).
  { replace (n + 3)%N with (N.succ (n + 2)) by lia.
    rewrite Unsigned.to_lu_succ, H2; reflexivity. }
  assert (H4 : Unsigned.to_lu (n + 4) = Decimal.D4 (Unsigned.to_lu (Npos p))).
  { replace (n + 4)%N with (N.succ (n + 3)) by lia.
    rewrite Unsigned.to_lu_succ, H3; reflexivity. }
  assert (H5 : Unsigned.to_lu (n + 5) = Decimal.D5 (Unsigned.to_lu (Npos p))).
  { replace (n + 5)%N with (N.succ (n + 4)) by lia.
    rewrite Unsigned.to_lu_succ, H4; reflexivity. }
  assert (H6 : Unsigned.to_lu (n + 6) = Decimal.D6 (Unsigned.to_lu (Npos p))).
  { replace (n + 6)%N with (N.succ (n + 5)) by lia.
    rewrite Unsigned.to_lu_succ, H5; reflexivity. }
  assert (H7 : Unsigned.to_lu (n + 7) = Decimal.D7 (Unsigned.to_lu (Npos p))).
  { replace (n + 7)%N with (N.succ (n + 6)) by lia.
    rewrite Unsigned.to_lu_succ, H6; reflexivity. }
  assert (H8 : Unsigned.to_lu (n + 8) = Decimal.D8 (Unsigned.to_lu (Npos p))).
  { replace (n + 8)%N with (N.succ (n + 7)) by lia.
    rewrite Unsigned.to_lu_succ, H7; reflexivity. }
  assert (H9 : Unsigned.to_lu (n + 9) = Decimal.D9 (Unsigned.to_lu (Npos p))).
  { replace (n + 9)%N with (N.succ (n + 8)) by lia.
    rewrite Unsigned.to_lu_succ, H8; reflexivity. }
  destruct Hcases as [-> | [-> | [-> | [-> | [-> | [-> | [-> | [-> | [-> | ->]]]]]]]]];
    [rewrite N.add_0_r, H0 | rewrite H1 | rewrite H2 | rewrite H3 | rewrite H4
     | rewrite H5 | rewrite H6 | rewrite H7 | rewrite H8 | rewrite H9];
    unfold Decimal.rev at 1; cbn [Decimal.revapp];
    rewrite string_of_revapp; reflexivity.
Qed.

Lemma showN_pos p :
  showN (Npos p)
  = NilEmpty.string_of_uint (Decimal.rev (Unsigned.to_lu (Npos p))).
Proof. reflexivity. Qed.

(** The numeral of [10 * a + r] is the numeral of [a] followed by the digit
    [r]. *)
Lemma showN_digit a r :
  (0 < a)%N -> (r < 10)%N ->
  showN (10 * a + r) = showN a ++ String (digitChar r) EmptyString.
Proof.
  intros Ha Hr; destruct a as [|p]; [lia|].
  destruct (10 * N.pos p + r)%N as [|q] eqn:E; [lia|].
  rewrite !showN_pos, <- E; now apply to_lu_digit.
Qed.

Lemma showZ_digit a r :
  (0 < a)%Z -> (0 <= r < 10)%Z ->
  showZ (10 * a + r)
  = showZ a ++ String (digitChar (Z.to_N r)) EmptyString.
Proof.
  intros Ha Hr; unfold showZ.
  replace (Z.to_N (10 * a + r)) with (10 * Z.to_N a + Z.to_N r)%N by lia.
  apply showN_digit; lia.
Qed.

Lemma repeatStr_snoc n :
  repeatStr "0" (S n) = repeatStr "0" n ++ "0".
Proof.
  induction n as [|n IH]; [reflexivity|].
  change (repeatStr "0" (S (S n))) with ("0" ++ repeatStr "0" (S n)).
  rewrite IH at 1; reflexivity.
Qed.

(** The numeral of [a * 10 ^ t]: the numeral of [a] followed by [t]
    zeros. *)
Lemma showZ_zeros a t :
  (0 < a)%Z ->
  showZ (a * 10 ^ Z.of_nat t) = showZ a ++ repeatStr "0" t.
Proof.
  intros Ha; induction t as [|t IH].
  - simpl; rewrite Z.mul_1_r; now rewrite append_empty.
  - rewrite Nat2Z.inj_succ, Z.pow_succ_r by lia.
    replace (a * (10 * 10 ^ Z.of_nat t))%Z
      with (10 * (a * 10 ^ Z.of_nat t) + 0)%Z by lia.
    assert (0 < 10 ^ Z.of_nat t)%Z by (apply Z.pow_pos_nonneg; lia).
    rewrite showZ_digit by nia.
    rewrite IH, repeatStr_snoc, append_assoc; reflexivity.
Qed.

(** A number of [k + 1] digits has a numeral of [k + 1] characters. *)
Lemma showZ_length k : forall a,
  (10 ^ Z.of_nat k <= a < 10 ^ Z.of_nat (S k))%Z ->
  String.length (showZ a) = S k.
Proof.
  induction k as [|k IH]; intros a Ha.
  - change (10 ^ Z.of_nat 0)%Z with 1%Z in Ha.
    change (10 ^ Z.of_nat 1)%Z with 10%Z in Ha.
    assert ((a = 1 \/ a = 2 \/ a = 3 \/ a = 4 \/ a = 5 \/ a = 6 \/ a = 7
             \/ a = 8 \/ a = 9)%Z) as Hc by lia.
    destruct Hc as [-> | [-> | [-> | [-> | [-> | [-> | [-> | [-> | ->]]]]]]]];
      reflexivity.
  - rewrite !Nat2Z.inj_succ, !Z.pow_succ_r in Ha by lia.
    rewrite Nat2Z.inj_succ, Z.pow_succ_r in IH by lia.
    assert (0 < 10 ^ Z.of_nat k)%Z by (apply Z.pow_pos_nonneg; lia).
    rewrite (Z.div_mod a 10) by lia.
    pose proof (Z.mod_pos_bound a 10 ltac:(lia)) as Hr.
    assert (10 ^ Z.of_nat k <= a / 10 < 10 * 10 ^ Z.of_nat k)%Z as Hq.
    { split; [apply Z.div_le_lower_bound | apply Z.div_lt_upper_bound]; lia. }
    rewrite showZ_digit by lia.
    rewrite length_append, (IH _ Hq); simpl; lia.
Qed.

End NumeralFacts.

(** *** The text of a whole number *)

Module ToStringFacts.
Import JsNumberFacts CountFacts ExactFacts NumeralFacts.
Local Open Scope Z_scope.

Lemma sameNumber_eq x y : sameNumber x y = true -> x = y.
Proof.
  destruct x as [a|a| |a m e], y as [b|b| |b m' e']; simpl; try discriminate;
    auto.
  - intros H; apply Bool.eqb_prop in H; now subst.
  - intros H; apply Bool.eqb_prop in H; now subst.
  - intros H; apply andb_prop in H; destruct H as [H He].
    apply andb_prop in H; destruct H as [Hs Hm].
    apply Bool.eqb_prop in Hs; apply Pos.eqb_eq in Hm; apply Z.eqb_eq in He.
    now subst.
Qed.

Lemma sameNumber_refl x : sameNumber x x = true.
Proof.
  destruct x as [a|a| |a m e]; simpl; auto using Bool.eqb_reflx.
  now rewrite Bool.eqb_reflx, Pos.eqb_refl, Z.eqb_refl.
Qed.

(** Two whole numbers below [2 ^ 53] are the same binary64 number only when
    they are equal. *)
Lemma sameNumber_ofZ a v :
  0 < a < 2 ^ 53 -> 0 < v < 2 ^ 53 ->
  sameNumber (ofZ a) (ofZ v) = (a =? v).
Proof.
  intros Ha Hv.
  destruct (Z.eqb_spec a v) as [->|Hne]; [apply sameNumber_refl|].
  destruct (sameNumber (ofZ a) (ofZ v)) eqn:E; [|reflexivity].
  apply sameNumber_eq in E.
  destruct a as [|p|p], v as [|q|q]; try lia.
  assert (rank (ofZ (Zpos p)) = rank (ofZ (Zpos q))) as Hr by now rewrite E.
  rewrite !ofZ_rank in Hr by lia.
  assert (0 < 2 ^ 1074) by (apply Z.pow_pos_nonneg; lia).
  injection Hr as Hr; nia.
Qed.

(** The number of a whole number below [2 ^ 53], as a fraction. *)
Lemma ofZ_fraction v :
  0 < v < 2 ^ 53 ->
  exists m e c,
    ofZ v = S754_finite false m e
    /\ 0 < c
    /\ fraction m e = (v * c, c).
Proof.
  intros Hv; destruct v as [|n|n]; try lia.
  assert (Hd : Zpos (digits2_pos n) <= 53) by (apply digits2_upper; lia).
  destruct (mantissa_53 n Hd) as [q Hq].
  exists q, (Zpos (digits2_pos n) - 53), (2 ^ (53 - Zpos (digits2_pos n))).
  split; [now apply ofZ_exact|].
  split; [apply pow2_pos; lia|].
  unfold fraction.
  destruct (Z.leb_spec 0 (Zpos (digits2_pos n) - 53)) as [H|H].
  - replace (Zpos (digits2_pos n) - 53) with 0 by lia.
    replace (53 - Zpos (digits2_pos n)) with 0 in * by lia.
    rewrite Hq; f_equal; rewrite ?Z.pow_0_r; lia.
  - rewrite Hq; f_equal; f_equal; lia.
Qed.

Lemma searchUp_digits v c N : forall fuel n,
  0 < c -> 0 < v ->
  10 ^ (N - 1) <= v < 10 ^ N ->
  1 <= n <= N ->
  N - n < Z.of_nat fuel ->
  searchUp fuel n (v * c) (c * 10 ^ n) = N.
Proof.
  induction fuel as [|fuel IH]; intros n Hc Hv HN Hn Hfuel; [lia|].
  cbn [searchUp].
  destruct (Z.ltb_spec (v * c) (c * 10 ^ n)) as [H|H].
  - assert (v < 10 ^ n) by nia.
    destruct (Z.eq_dec n N) as [|Hne]; [assumption|].
    exfalso.
    assert (10 ^ n <= 10 ^ (N - 1)) by (apply Z.pow_le_mono_r; lia).
    lia.
  - assert (10 ^ n <= v) by nia.
    assert (n < N).
    { destruct (Z.lt_ge_cases n N) as [|Hge]; [assumption|].
      assert (10 ^ N <= 10 ^ n) by (apply Z.pow_le_mono_r; lia).
      lia. }
    replace (c * 10 ^ n * 10) with (c * 10 ^ (n + 1))
      by (rewrite Z.pow_add_r by lia; ring).
    apply IH; auto; lia.
Qed.

Lemma decimalMagnitude_whole v c N :
  0 < c -> 0 < v ->
  10 ^ (N - 1) <= v < 10 ^ N ->
  1 <= N <= 400 ->
  decimalMagnitude (v * c) c = N.
Proof.
  intros Hc Hv HN Hle; unfold decimalMagnitude.
  replace (c <=? v * c) with true by (symmetry; apply Z.leb_le; nia).
  replace (c * 10) with (c * 10 ^ 1) by (f_equal).
  apply searchUp_digits; auto; lia.
Qed.

Lemma readsBack_whole v a q :
  0 < v < 2 ^ 53 -> 0 < a -> 0 <= q -> a * 10 ^ q < 2 ^ 53 ->
  readsBack (ofZ v) a q = (a * 10 ^ q =? v).
Proof.
  intros Hv Ha Hq Hlt.
  assert (0 < 10 ^ q) by (apply Z.pow_pos_nonneg; lia).
  destruct a as [|p|p]; try lia.
  unfold readsBack, ofDecimal.
  replace (0 <=? q) with true by (symmetry; apply Z.leb_le; lia).
  change (binary_normalize prec emax (Zpos p * 10 ^ q) 0 false)
    with (ofZ (Zpos p * 10 ^ q)).
  apply sameNumber_ofZ; nia.
Qed.

Lemma shortest_step f k x vn vd n :
  shortest (S f) k x vn vd n
  = let q := n - k in
    let '(num, unit) :=
      if 0 <=? q then (vn, vd * 10 ^ q) else (vn * 10 ^ (- q), vd) in
    let lo := num / unit in
    let r := num mod unit in
    let hi := lo + 1 in
    let okLo := readsBack x lo q in
    let okHi := readsBack x hi q in
    let pick :=
      if okLo && okHi
      then if 2 * r <? unit then lo
           else if unit <? 2 * r then hi
           else if Z.even lo then lo else hi
      else if okLo then lo
      else if okHi then hi
      else 0 in
    if pick =? 0 then shortest f (k + 1) x vn vd n
    else if pick =? 10 ^ k then (10 ^ (k - 1), n + 1)
    else (pick, n).
Proof. reflexivity. Qed.

(** The digits [toString] finds for a whole number: the number without its
    trailing zeros. *)
Lemma shortest_whole v c N t : forall fuel k,
  0 < c -> 0 < v < 10 ^ 15 ->
  10 ^ (N - 1) <= v < 10 ^ N ->
  1 <= N <= 15 ->
  0 <= t ->
  v mod 10 ^ t = 0 ->
  (forall q, t < q -> v mod 10 ^ q <> 0) ->
  1 <= k <= N - t ->
  N - t - k < Z.of_nat fuel ->
  shortest fuel k (ofZ v) (v * c) c N = (v / 10 ^ t, N).
Proof.
  induction fuel as [|fuel IH]; intros k Hc Hv HN HN15 Ht Hdiv Hnot Hk Hfuel;
    [lia|].
  rewrite shortest_step.
  set (q := N - k).
  assert (Hq : t <= q) by (unfold q; lia).
  assert (HP : 0 < 10 ^ q) by (apply Z.pow_pos_nonneg; lia).
  assert (HPle : 10 ^ q <= 10 ^ (N - 1)) by (apply Z.pow_le_mono_r; lia).
  assert (HP14 : 10 ^ (N - 1) <= 10 ^ 14) by (apply Z.pow_le_mono_r; lia).
  cbv zeta.
  replace (0 <=? q) with true by (symmetry; apply Z.leb_le; lia).
  cbv beta iota.
  replace (c * 10 ^ q) with (10 ^ q * c) by ring.
  rewrite Z.div_mul_cancel_r by lia.
  set (lo := v / 10 ^ q).
  pose proof (Z.div_mod v (10 ^ q) ltac:(lia)) as Hdm; fold lo in Hdm.
  pose proof (Z.mod_pos_bound v (10 ^ q) HP) as Hrem.
  assert (Hlo : 0 < lo).
  { unfold lo; apply Z.div_str_pos; lia. }
  assert (H53 : 2 ^ 53 = 9007199254740992) by reflexivity.
  assert (H15 : 10 ^ 15 = 1000000000000000) by reflexivity.
  assert (H14 : 10 ^ 14 = 100000000000000) by reflexivity.
  rewrite (readsBack_whole v lo q) by nia.
  rewrite (readsBack_whole v (lo + 1) q) by nia.
  replace ((lo + 1) * 10 ^ q =? v) with false
    by (symmetry; apply Z.eqb_neq; nia).
  rewrite andb_false_r.
  destruct (Z.eqb_spec (lo * 10 ^ q) v) as [E|E].
  - (* the digits end here *)
    assert (Hmod : v mod 10 ^ q = 0) by nia.
    assert (q = t).
    { destruct (Z.eq_dec q t) as [|Hne]; [assumption|].
      exfalso; apply (Hnot q); [lia | exact Hmod]. }
    replace (lo =? 0) with false by (symmetry; apply Z.eqb_neq; lia).
    assert (lo < 10 ^ k).
    { assert (10 ^ N = 10 ^ k * 10 ^ q)
        by (rewrite <- Z.pow_add_r by lia; f_equal; unfold q; lia).
      nia. }
    replace (lo =? 10 ^ k) with false by (symmetry; apply Z.eqb_neq; lia).
    unfold lo; subst q; congruence.
  - (* a digit is missing *)
    change (0 =? 0) with true; cbv iota.
    apply IH; auto.
    + split; [lia|].
      destruct (Z.eq_dec q t) as [Hqt|Hne]; [|unfold q in *; lia].
      exfalso; apply E.
      rewrite Hqt in *. nia.
    + assert (q <> t); [|unfold q in *; lia].
      intros Hqt; apply E; rewrite Hqt in *; nia.
Qed.

(** The number of decimal digits of a positive number. *)
Lemma digits_exist v : forall n : nat,
  0 < v < 10 ^ Z.of_nat n ->
  exists N, 1 <= N <= Z.of_nat n /\ 10 ^ (N - 1) <= v < 10 ^ N.
Proof.
  induction n as [|n IH]; intros Hv.
  - simpl in Hv; lia.
  - destruct (Z.lt_ge_cases v (10 ^ Z.of_nat n)) as [Hlt|Hge].
    + destruct (IH ltac:(lia)) as (N & HN & Hb); exists N; split; [lia | auto].
    + exists (Z.of_nat (S n)); split; [lia|].
      replace (Z.of_nat (S n) - 1) with (Z.of_nat n) by lia; lia.
Qed.

Lemma divides_down v q j :
  0 <= j <= q -> v mod 10 ^ q = 0 -> v mod 10 ^ j = 0.
Proof.
  intros Hj Hq.
  assert (0 < 10 ^ q) by (apply Z.pow_pos_nonneg; lia).
  assert (0 < 10 ^ j) by (apply Z.pow_pos_nonneg; lia).
  apply Z.mod_divide in Hq; [|lia]; destruct Hq as [a Ha].
  apply Z.mod_divide; [lia|].
  exists (a * 10 ^ (q - j)).
  rewrite Ha, <- Z.mul_assoc, <- Z.pow_add_r by lia.
  f_equal; f_equal; lia.
Qed.

(** The number of trailing zeros of a positive number. *)
Lemma zeros_exist v : forall n : nat,
  v mod 10 ^ Z.of_nat n <> 0 ->
  exists t,
    0 <= t < Z.of_nat n
    /\ v mod 10 ^ t = 0
    /\ forall q, t < q -> v mod 10 ^ q <> 0.
Proof.
  induction n as [|n IH]; intros Hn.
  - exfalso; apply Hn; simpl; apply Z.mod_1_r.
  - destruct (Z.eq_dec (v mod 10 ^ Z.of_nat n) 0) as [Hz|Hnz].
    + exists (Z.of_nat n); split; [lia|]; split; [exact Hz|].
      intros q Hq Hdiv; apply Hn.
      apply (divides_down v q); [lia | exact Hdiv].
    + destruct (IH Hnz) as (t & Ht & Hd & Hnot).
      exists t; split; [lia | auto].
Qed.

(** [toString] prints a positive whole number below [10 ^ 15] as its decimal
    numeral. *)
Lemma toString_whole v :
  0 < v < 10 ^ 15 -> toString (ofZ v) = showZ v.
Proof.
  intros Hv.
  assert (H15 : 10 ^ 15 = 1000000000000000) by reflexivity.
  assert (H53 : 2 ^ 53 = 9007199254740992) by reflexivity.
  destruct (ofZ_fraction v ltac:(lia)) as (m & e & c & Hof & Hc & Hfr).
  destruct (digits_exist v 15 Hv) as (N & HN & Hb).
  assert (Hmod : v mod 10 ^ Z.of_nat (Z.to_nat N) <> 0).
  { rewrite Z2Nat.id by lia; rewrite Z.mod_small by lia; lia. }
  destruct (zeros_exist v (Z.to_nat N) Hmod) as (t & Ht & Hd & Hnot).
  rewrite Z2Nat.id in Ht by lia.
  rewrite Hof; cbn [toString]; rewrite Hfr, <- Hof.
  rewrite (decimalMagnitude_whole v c N) by (auto; lia).
  rewrite (shortest_whole v c N t 17 1) by (auto; simpl; lia).
  set (lo := v / 10 ^ t).
  assert (HP : 0 < 10 ^ t) by (apply Z.pow_pos_nonneg; lia).
  assert (Hv' : v = lo * 10 ^ t).
  { pose proof (Z.div_mod v (10 ^ t) ltac:(lia)) as H; fold lo in H; lia. }
  assert (Hlo : 10 ^ (N - t - 1) <= lo < 10 ^ (N - t)).
  { assert (10 ^ (N - 1) = 10 ^ (N - t - 1) * 10 ^ t)
      by (rewrite <- Z.pow_add_r by lia; f_equal; lia).
    assert (10 ^ N = 10 ^ (N - t) * 10 ^ t)
      by (rewrite <- Z.pow_add_r by lia; f_equal; lia).
    assert (0 < 10 ^ (N - t - 1)) by (apply Z.pow_pos_nonneg; lia).
    nia. }
  assert (Hlen : String.length (showZ lo) = Z.to_nat (N - t)).
  { rewrite (showZ_length (Z.to_nat (N - t - 1)) lo).
    - lia.
    - rewrite Nat2Z.inj_succ, !Z2Nat.id by lia.
      replace (Z.succ (N - t - 1)) with (N - t) by lia; exact Hlo. }
  unfold formatShortest; rewrite Hlen, Z2Nat.id by lia.
  replace ((N - t <=? N) && (N <=? 21))%bool with true
    by (symmetry; apply andb_true_intro; split; apply Z.leb_le; lia).
  replace (N - (N - t)) with t by lia.
  cbn [append].
  clearbody lo; rewrite Hv'.
  replace (10 ^ t) with (10 ^ Z.of_nat (Z.to_nat t))
    by (rewrite Z2Nat.id; lia).
  rewrite showZ_zeros; [reflexivity|].
  assert (0 < 10 ^ (N - t - 1)) by (apply Z.pow_pos_nonneg; lia); lia.
Qed.

End ToStringFacts.

(** *** The numbers parseFloat reads *)

Module ParseFacts.
Import JsNumberFacts.

Lemma spanDigits_app ds rest :
  allDigits ds = true -> startsDigit rest = false ->
  spanDigits (ds ++ rest) = (ds, rest).
Proof.
  unfold allDigits; induction ds as [|c r IH]; intros Hd Hrest.
  - destruct rest as [|c r]; [reflexivity|].
    simpl in *; now rewrite Hrest.
  - simpl in Hd; apply andb_prop in Hd; destruct Hd as [Hc Hr].
    simpl; now rewrite Hc, (IH Hr Hrest).
Qed.

Lemma digit_head c r rest :
  isDigit c = true ->
  trimStart (String c r ++ rest) = String c r ++ rest
  /\ signOf (String c r ++ rest) = (false, String c r ++ rest)
  /\ String.prefix "Infinity" (String c r ++ rest) = false.
Proof.
  intros Hc; change (String c r ++ rest) with (String c (r ++ rest)).
  split; [|split].
  - unfold trimStart; cbn [trimStart_go].
    now rewrite (wsWidth_digit c (r ++ rest) Hc).
  - unfold signOf.
    destruct (code c =? 45)%N eqn:E1.
    { apply N.eqb_eq in E1; unfold isDigit in Hc; rewrite E1 in Hc;
        discriminate. }
    destruct (code c =? 43)%N eqn:E2; [|reflexivity].
    apply N.eqb_eq in E2; unfold isDigit in Hc; rewrite E2 in Hc; discriminate.
  - destruct (String.prefix "Infinity" (String c (r ++ rest))) eqn:E;
      [|reflexivity].
    apply prefix_iff in E; destruct E as [t Ht].
    injection Ht as Hi _; rewrite Hi in Hc; discriminate Hc.
Qed.

Lemma digitsValue_nonneg ds : allDigits ds = true -> (0 <= digitsValue ds)%Z.
Proof. intros H; apply (digitsValue_go_nonneg ds 0 H); lia. Qed.

Lemma afterWhole_noDigit rest : afterWhole rest = true -> startsDigit rest = false.
Proof.
  destruct rest as [|c r]; [reflexivity|]; simpl.
  destruct (isDigit c); [discriminate | reflexivity].
Qed.

(** [parseFloat] reads a whole number and ignores what follows it. *)
Lemma parseFloat_whole ds rest :
  ds <> EmptyString -> allDigits ds = true -> afterWhole rest = true ->
  parseFloat (ds ++ rest) = ofZ (digitsValue ds).
Proof.
  intros Hne Hd Hrest.
  pose proof (digitsValue_nonneg ds Hd) as Hv.
  pose proof (afterWhole_noDigit rest Hrest) as Hnd.
  destruct ds as [|c r]; [contradiction|].
  assert (Hc : isDigit c = true).
  { unfold allDigits in Hd; simpl in Hd; apply andb_prop in Hd; tauto. }
  destruct (digit_head c r rest Hc) as (Htrim & Hsign & Hinf).
  unfold parseFloat; rewrite Htrim, Hsign, Hinf, (spanDigits_app _ _ Hd Hnd).
  assert (Htail : (match rest with
                   | String c0 r0 =>
                     if (code c0 =? 46)%N then spanDigits r0
                     else (EmptyString, rest)
                   | EmptyString => (EmptyString, rest)
                   end) = (EmptyString, rest)).
  { destruct rest as [|c0 r0]; [reflexivity|].
    simpl in Hrest.
    destruct (code c0 =? 46)%N; [|reflexivity].
    rewrite !andb_false_r in Hrest; simpl in Hrest.
    destruct (isDigit c0); discriminate. }
  rewrite Htail, append_empty.
  assert (Hexp : exponentOf rest = 0%Z).
  { destruct rest as [|c0 r0]; [reflexivity|].
    simpl in Hrest; unfold exponentOf.
    destruct (code c0 =? 101)%N; [rewrite ?andb_false_r in Hrest; simpl in Hrest;
                                  destruct (isDigit c0), (code c0 =? 46)%N;
                                  discriminate|].
    destruct (code c0 =? 69)%N; [rewrite ?andb_false_r in Hrest;
                                  discriminate|].
    reflexivity. }
  rewrite Hexp.
  destruct (digitsValue (String c r)) as [|m|m]; try lia.
  - reflexivity.
  - unfold ofDecimal; simpl; unfold ofZ.
    now rewrite Pos.mul_1_r.
Qed.

(** [parseFloat] reads a whole number with an exponent. *)
Lemma parseFloat_exponent ds mark es rest :
  ds <> EmptyString -> allDigits ds = true ->
  isExponentMark mark = true ->
  es <> EmptyString -> allDigits es = true ->
  startsDigit rest = false ->
  parseFloat (ds ++ String mark (es ++ rest))
  = ofZ (digitsValue ds * 10 ^ digitsValue es).
Proof.
  intros Hne Hd Hmark Hnes Hes Hrest.
  pose proof (digitsValue_nonneg ds Hd) as Hv.
  pose proof (digitsValue_nonneg es Hes) as He.
  destruct ds as [|c r]; [contradiction|].
  assert (Hc : isDigit c = true).
  { unfold allDigits in Hd; simpl in Hd; apply andb_prop in Hd; tauto. }
  destruct (digit_head c r (String mark (es ++ rest)) Hc)
    as (Htrim & Hsign & Hinf).
  assert (Hm : isDigit mark = false /\ (code mark =? 46)%N = false).
  { unfold isExponentMark in Hmark; unfold isDigit.
    destruct (code mark =? 101)%N eqn:E1.
    - apply N.eqb_eq in E1; rewrite E1; split; reflexivity.
    - destruct (code mark =? 69)%N eqn:E2; [|discriminate].
      apply N.eqb_eq in E2; rewrite E2; split; reflexivity. }
  destruct Hm as [Hm1 Hm2].
  unfold parseFloat; rewrite Htrim, Hsign, Hinf.
  rewrite (spanDigits_app _ _ Hd) by (simpl; exact Hm1).
  rewrite Hm2, append_empty.
  assert (Hexp : exponentOf (String mark (es ++ rest)) = digitsValue es).
  { unfold exponentOf; unfold isExponentMark in Hmark; rewrite Hmark.
    destruct es as [|c0 r0]; [contradiction|].
    assert (Hc0 : isDigit c0 = true).
    { unfold allDigits in Hes; simpl in Hes; apply andb_prop in Hes; tauto. }
    destruct (digit_head c0 r0 rest Hc0) as (_ & Hsign0 & _).
    rewrite Hsign0, (spanDigits_app _ _ Hes Hrest); reflexivity. }
  rewrite Hexp.
  destruct (digitsValue (String c r)) as [|m|m]; try lia.
  - reflexivity.
  - unfold ofDecimal; simpl String.length.
    rewrite Z.sub_0_r.
    replace (0 <=? digitsValue es)%Z with true
      by (symmetry; apply Z.leb_le; lia).
    reflexivity.
Qed.

Local Open Scope Z_scope.

Lemma shr_fexp_nonneg m e l :
  0 <= m -> 0 <= shr_m (fst (shr_fexp prec emax m e l)).
Proof.
  intros Hm; unfold shr_fexp, shr.
  destruct (fexp prec emax (Zdigits2 m + e) - e) as [|q|q];
    simpl; rewrite ?shr_record_of_loc_m; auto.
  rewrite shr_iter_div by (rewrite shr_record_of_loc_m; lia).
  rewrite shr_record_of_loc_m.
  apply Z.div_pos; [lia | apply Z.pow_pos_nonneg; lia].
Qed.

Lemma round_nearest_even_nonneg m l : 0 <= m -> 0 <= round_nearest_even m l.
Proof.
  intros H; destruct l as [|[]]; simpl; try lia.
  destruct (Z.even m); lia.
Qed.

(** Rounding a mantissa that is not negative gives a number. *)
Lemma binary_round_aux_number sx mx ex lx :
  0 <= mx -> isNaN (binary_round_aux prec emax sx mx ex lx) = false.
Proof.
  intros Hm; unfold binary_round_aux.
  pose proof (shr_fexp_nonneg mx ex lx Hm) as H1.
  destruct (shr_fexp prec emax mx ex lx) as [mrs1 e1]; simpl in H1.
  pose proof (shr_fexp_nonneg _ e1 loc_Exact
                (round_nearest_even_nonneg _ (loc_of_shr_record mrs1) H1))
    as H2.
  destruct (shr_fexp prec emax _ e1 loc_Exact) as [mrs2 e2]; simpl in H2.
  destruct (shr_m mrs2); try lia; [reflexivity|].
  destruct (e2 <=? emax - prec); reflexivity.
Qed.

Lemma ofDecimal_number m q : isNaN (ofDecimal m q) = false.
Proof.
  unfold ofDecimal.
  destruct (0 <=? q) eqn:Eq.
  - apply Z.leb_le in Eq.
    assert (0 < 10 ^ q) by (apply Z.pow_pos_nonneg; lia).
    unfold binary_normalize.
    destruct (Zpos m * 10 ^ q) as [|p|p] eqn:E; try lia.
    pose proof (binary_round_positive false p 0 ltac:(lia)) as Hp.
    destruct (binary_round prec emax false p 0); auto; discriminate.
  - unfold SFdiv.
    assert (Hq : forall a b, 0 <= fst (fst (SFdiv_core_binary prec emax
                                               (Zpos a) 0 (Zpos b) 0))).
    { intros a b; unfold SFdiv_core_binary.
      set (s := 0 - 0 - Z.min _ _).
      set (m' := match s with
                 | 0 => Zpos a
                 | Zpos _ => Z.shiftl (Zpos a) s
                 | Zneg _ => 0
                 end).
      assert (0 <= m').
      { unfold m'; destruct s; try lia.
        apply Z.shiftl_nonneg; lia. }
      pose proof (Z.div_pos m' (Zpos b) ltac:(lia) ltac:(lia)) as Hd.
      unfold Z.div in Hd.
      destruct (Z.div_eucl m' (Zpos b)) as [q0 r0]; exact Hd. }
    specialize (Hq m (Z.to_pos (10 ^ (- q)))).
    destruct (SFdiv_core_binary prec emax _ _ _ _) as [[mz ez] lz].
    now apply binary_round_aux_number.
Qed.

Lemma SFopp_number x : isNaN x = false -> isNaN (SFopp x) = false.
Proof. destruct x; auto. Qed.

Lemma digits_number neg ds s2 fp :
  ds <> EmptyString ->
  isNaN (match ds with
         | EmptyString => NaN
         | _ =>
           match digitsValue ds with
           | Zpos m =>
             let x := ofDecimal m (exponentOf s2 - Z.of_nat (String.length fp)) in
             if neg then SFopp x else x
           | _ => S754_zero neg
           end
         end) = false.
Proof.
  intros Hne; destruct ds as [|c r]; [contradiction|].
  destruct (digitsValue (String c r)) as [|m|m]; try reflexivity.
  cbv zeta; destruct neg; [apply SFopp_number|]; apply ofDecimal_number.
Qed.

Lemma spanDigits_head s :
  fst (spanDigits s) = EmptyString <-> startsDigit s = false.
Proof.
  destruct s as [|c r]; simpl; [tauto|].
  destruct (isDigit c).
  - destruct (spanDigits r); simpl; split; discriminate.
  - simpl; tauto.
Qed.

Lemma unsigned_nan neg t :
  isNaN (if String.prefix "Infinity" t then S754_infinity neg
         else
           let '(ip, s1) := spanDigits t in
           let '(fp, s2) :=
             match s1 with
             | String c r =>
               if (code c =? 46)%N then spanDigits r else (EmptyString, s1)
             | EmptyString => (EmptyString, s1)
             end in
           match append ip fp with
           | EmptyString => NaN
           | ds =>
             match digitsValue ds with
             | Zpos m =>
               let x :=
                 ofDecimal m (exponentOf s2 - Z.of_nat (String.length fp)) in
               if neg then SFopp x else x
             | _ => S754_zero neg
             end
           end)
  = negb (startsUnsigned t).
Proof.
  unfold startsUnsigned.
  destruct (String.prefix "Infinity" t); [reflexivity|].
  cbn [orb].
  destruct t as [|c r]; [reflexivity|].
  cbn [spanDigits startsDigit].
  destruct (isDigit c) eqn:Hc.
  - destruct (spanDigits r) as [d s1].
    destruct (match s1 with
              | String c0 r0 =>
                if (code c0 =? 46)%N then spanDigits r0 else (EmptyString, s1)
              | EmptyString => (EmptyString, s1)
              end) as [fp s2].
    change (String c d ++ fp) with (String c (d ++ fp)).
    cbn [orb negb].
    apply (digits_number neg (String c (d ++ fp)) s2 fp); discriminate.
  - cbn [orb].
    destruct (code c =? 46)%N; [|reflexivity].
    cbn [andb].
    pose proof (spanDigits_head r) as Hh.
    destruct (spanDigits r) as [fp s2]; simpl in Hh.
    change (EmptyString ++ fp) with fp.
    destruct (startsDigit r).
    + destruct fp as [|c0 r0]; [destruct Hh as [Hh _]; now specialize (Hh eq_refl)|].
      apply (digits_number neg (String c0 r0) s2 (String c0 r0)); discriminate.
    + destruct Hh as [_ Hh]; rewrite (Hh eq_refl); reflexivity.
Qed.

(** [parseFloat] gives [NaN] exactly for a text that starts with no
    number. *)
Lemma parseFloat_nan s : isNaN (parseFloat s) = negb (startsNumber s).
Proof.
  unfold parseFloat, startsNumber.
  destruct (trimStart s) as [|c r]; [reflexivity|].
  unfold signOf.
  destruct (code c =? 45)%N; [apply unsigned_nan|].
  destruct (code c =? 43)%N; apply unsigned_nan.
Qed.

End ParseFacts.

(** *** cleanValue on a numeric column *)

Lemma ofZ_number v : (0 <= v < 2 ^ 53)%Z -> isNaN (ofZ v) = false.
Proof.
  intros Hv; destruct v as [|p|p]; try lia; [reflexivity|].
  destruct (ExactFacts.ofZ_finite p ltac:(lia)) as (q & e & ->); reflexivity.
Qed.

(** The text of a whole number below [10 ^ 15]. *)
Lemma toString_ofZ v : (0 <= v < 10 ^ 15)%Z -> toString (ofZ v) = showZ v.
Proof.
  intros Hv; destruct (Z.eq_dec v 0) as [->|Hne]; [reflexivity|].
  apply ToStringFacts.toString_whole; lia.
Qed.

(** What [normalizeNumber] returns for a text in which [parseFloat] reads
    the whole number [v]. *)
Lemma normalizeNumber_ofZ str v :
  str <> EmptyString ->
  parseFloat (stripped str) = ofZ v ->
  (0 <= v < 10 ^ 15)%Z ->
  normalizeNumber str = VStr (showZ v).
Proof.
  intros Hne Hp Hv; unfold normalizeNumber.
  destruct (String.eqb_spec str EmptyString); [contradiction|].
  cbv zeta; rewrite Hp, ofZ_number, toString_ofZ; auto.
  assert (10 ^ 15 < 2 ^ 53)%Z by reflexivity; lia.
Qed.

Lemma trim_not_empty raw : trim raw <> EmptyString -> raw <> EmptyString.
Proof. intros H ->; now apply H. Qed.

(** C5, as the code has it.  On a numeric column the trimmed text loses the
    rupee and dollar signs, the commas and the white space (of the ASCII
    characters exactly those of that class, and no other currency sign);
    [parseFloat] then reads the number what is left starts with and ignores
    what follows it.  When what is left starts with a number (after an
    optional sign: [Infinity], a digit, or a point and a digit) the result
    is the decimal string of that number: for a whole number below
    [10 ^ 15], written with or without an exponent, its plain numeral.
    Only a text that starts with no number is returned as it is, trimmed.
    So ["₹1,25,000"] under ["Deal Value"] becomes ["125000"].  [cleanValue]
    is a total function: no text makes it throw. *)
Theorem number_normalization :
  (forall a b,
      allAscii a = true -> stripped (a ++ b) = withoutStripped a ++ stripped b)
  /\ (forall s, stripped (rupee ++ s) = stripped s)
  /\ (forall title raw,
        numericTitle title = true ->
        raw <> "#VALUE!" ->
        trim raw <> EmptyString ->
        let text := stripped (trim raw) in
        cleanValue (VStr raw) title
        = (if startsNumber text
           then VStr (toString (parseFloat text))
           else VStr (trim raw))
        /\ (forall ds rest,
              text = ds ++ rest ->
              ds <> EmptyString ->
              allDigits ds = true ->
              afterWhole rest = true ->
              (digitsValue ds < 10 ^ 15)%Z ->
              cleanValue (VStr raw) title = VStr (showZ (digitsValue ds)))
        /\ (forall ds mark es rest,
              text = ds ++ String mark (es ++ rest) ->
              ds <> EmptyString ->
              allDigits ds = true ->
              isExponentMark mark = true ->
              es <> EmptyString ->
              allDigits es = true ->
              startsDigit rest = false ->
              (digitsValue ds * 10 ^ digitsValue es < 10 ^ 15)%Z ->
              cleanValue (VStr raw) title
              = VStr (showZ (digitsValue ds * 10 ^ digitsValue es))))
  /\ cleanValue (VStr "₹1,25,000") "Deal Value" = VStr "125000".
Proof.
  split; [exact stripped_ascii_app|].
  split; [exact stripped_rupee|].
  split; [|reflexivity].
  intros title raw Ht H2 H3 text.
  pose proof (trim_not_empty raw H3) as H1.
  rewrite cleanValue_number by auto.
  split; [|split].
  - unfold normalizeNumber.
    destruct (String.eqb_spec (trim raw) EmptyString); [contradiction|].
    cbv zeta; fold text; rewrite ParseFacts.parseFloat_nan.
    destruct (startsNumber text); reflexivity.
  - intros ds rest Htext Hne Hd Hrest Hv.
    apply normalizeNumber_ofZ; auto.
    + fold text; rewrite Htext; now apply ParseFacts.parseFloat_whole.
    + split; [now apply ParseFacts.digitsValue_nonneg | exact Hv].
  - intros ds mark es rest Htext Hne Hd Hmark Hnes Hes Hrest Hv.
    apply normalizeNumber_ofZ; auto.
    + fold text; rewrite Htext; now apply ParseFacts.parseFloat_exponent.
    + split; [|exact Hv].
      apply Z.mul_nonneg_nonneg;
        [now apply ParseFacts.digitsValue_nonneg|].
      apply Z.pow_nonneg; lia.
Qed.

Lemma number_normalization_witness :
  stripped ("Rs 1," ++ rupee ++ "25,000") = "Rs1" ++ stripped (rupee ++ "25,000")
  /\ cleanValue (VStr " $ 98,000.50 ") "Billed Value" = VStr "98000.5"
  /\ cleanValue (VStr "to be confirmed") "Billed Value"
     = VStr "to be confirmed"
  /\ cleanValue (VStr " $ 98,000 approx. ") "Billed Value" = VStr "98000"
  /\ cleanValue (VStr "12e3") "Amount" = VStr "12000".
Proof.
  split; [|split; [|split; [|split]]].
  - apply (proj1 number_normalization "Rs 1," (rupee ++ "25,000"));
      reflexivity.
  - apply (proj1 (proj1 (proj2 (proj2 number_normalization))
                    "Billed Value" " $ 98,000.50 "
                    ltac:(reflexivity) ltac:(discriminate)
                    ltac:(discriminate))).
  - apply (proj1 (proj1 (proj2 (proj2 number_normalization))
                    "Billed Value" "to be confirmed"
                    ltac:(reflexivity) ltac:(discriminate)
                    ltac:(discriminate))).
  - apply (proj1 (proj2 (proj1 (proj2 (proj2 number_normalization))
                           "Billed Value" " $ 98,000 approx. "
                           ltac:(reflexivity) ltac:(discriminate)
                           ltac:(discriminate)))
             "98000" "approx.");
      [reflexivity | discriminate | reflexivity | reflexivity | reflexivity].
  - apply (proj2 (proj2 (proj1 (proj2 (proj2 number_normalization))
                           "Amount" "12e3"
                           ltac:(reflexivity) ltac:(discriminate)
                           ltac:(discriminate)))
             "12" "e"%char "3" EmptyString);
      [reflexivity | discriminate | reflexivity | reflexivity | discriminate
       | reflexivity | reflexivity | reflexivity].
Defined.

(** C5, as it is stated, fails for a text that goes on after a number and
    for a currency sign outside the class: ["12 units"] and ["2024-03-05"]
    are no numbers, and are not returned unchanged, the number they start
    with is; the euro sign is not stripped. *)
Lemma text_after_a_number_is_dropped :
  cleanValue (VStr "12 units") "Amount" = VStr "12"
  /\ cleanValue (VStr "2024-03-05") "Amount" = VStr "2024"
  /\ cleanValue (VStr "€100") "Amount" = VStr "€100"
  /\ stripped "€100" = "€100".
Proof. repeat split. Qed.

(** Further forms of numbers: a fraction with an exponent, a sign. *)
Example number_forms :
  cleanValue (VStr "1.50e3") "Amount" = VStr "1500"
  /\ cleanValue (VStr "-0.50") "Amount" = VStr "-0.5"
  /\ cleanValue (VStr "EUR 100") "Amount" = VStr "EUR 100".
Proof. repeat split. Qed.

(** ** The detail tables *)








(** ** The kind of a board, and the boards [dataToContext] throws on *)

Lemma existsb_dealKey allKeys :
  existsb (fun k => includes (toLowerCase k) "deal"
                    || includes (toLowerCase k) "closure"
                    || includes (toLowerCase k) "deal stage") allKeys
  = existsb dealKey allKeys.
Proof.
  induction allKeys as [|k l IH]; simpl; [reflexivity|].
  rewrite IH; f_equal; unfold dealKey.
  destruct (includes (toLowerCase k) "deal stage") eqn:E;
    [|now rewrite orb_false_r].
  assert (includes (toLowerCase k) "deal" = true) as ->
      by (apply (includes_trans _ _ "deal" E); vm_compute; reflexivity).
  reflexivity.
Qed.

Lemma boardKindOf_spec allKeys :
  boardKindOf allKeys
  = if existsb dealKey allKeys then Deals
    else if existsb workOrderKey allKeys then WorkOrders
    else Generic.
Proof. unfold boardKindOf; now rewrite existsb_dealKey. Qed.

Lemma groupSection_thrown memberText data col title order line :
  groupSection memberText data col title order line = Thrown TypeError
  <-> meetsInherited memberText data (present [col]).
Proof.
  unfold groupSection, meetsInherited; destruct col as [c|]; simpl.
  - destruct (groupBy memberText data c) as [groups|[]] eqn:Hg; simpl.
    + split; [discriminate|].
      intros (col & row & [<- | []] & Hrow & Hi).
      assert (groupBy memberText data c = Thrown TypeError)
        by (apply groupBy_thrown_iff; eauto).
      congruence.
    + split; auto; intros _.
      apply groupBy_thrown_iff in Hg; destruct Hg as (row & Hrow & Hi).
      exists c, row; auto.
  - split; [discriminate | intros (col & row & [] & _)].
Qed.

Lemma meetsInherited_app memberText data cols cols' :
  meetsInherited memberText data (cols ++ cols')
  <-> meetsInherited memberText data cols
      \/ meetsInherited memberText data cols'.
Proof.
  unfold meetsInherited; split.
  - intros (col & row & Hc & H); apply in_app_or in Hc.
    destruct Hc; [left | right]; eauto.
  - intros [(col & row & Hc & H) | (col & row & Hc & H)];
      exists col, row; split; auto; apply in_or_app; auto.
Qed.

(** A section that follows another one. *)
Lemma andThen_thrown {A B : Type} memberText data (x : outcome A)
      (f : A -> outcome B) cols cols' :
  (x = Thrown TypeError <-> meetsInherited memberText data cols) ->
  (forall a, f a = Thrown TypeError <-> meetsInherited memberText data cols') ->
  (andThen x f = Thrown TypeError
   <-> meetsInherited memberText data (cols ++ cols')).
Proof.
  intros Hx Hf.
  apply (iff_trans (B := meetsInherited memberText data cols
                         \/ meetsInherited memberText data cols'));
    [|apply iff_sym, meetsInherited_app].
  destruct x as [a|[]]; simpl.
  - split; [intros H; right; now apply (Hf a)|].
    intros [H | H]; [apply Hx in H; discriminate | now apply (Hf a)].
  - split; auto; intros _; left; now apply Hx.
Qed.

Lemma present_sections (cols : list (option string)) :
  present cols
  = fold_right (fun c rest => present [c] ++ rest)%list [] cols.
Proof.
  induction cols as [|c cols IH]; [reflexivity|].
  cbn [fold_right]; rewrite <- IH; unfold present; simpl.
  now rewrite app_nil_r.
Qed.

Lemma dealsAggregates_thrown memberText localeCompare data keys :
  dealsAggregates memberText localeCompare data keys = Thrown TypeError
  <-> meetsInherited memberText data
        (present [findCol keys ["deal status"; "status"];
                  findCol keys ["sector"];
                  findCol keys ["deal stage"; "stage"];
                  findCol keys ["owner"];
                  findCol keys ["probability"; "closure prob"]]).
Proof.
  unfold dealsAggregates.
  rewrite present_sections; cbn [fold_right].
  repeat (apply andThen_thrown; [apply groupSection_thrown | intros ?]).
  split; [discriminate | intros (col & row & [] & _)].
Qed.

Lemma workOrdersAggregates_thrown memberText data keys :
  workOrdersAggregates memberText data keys = Thrown TypeError
  <-> meetsInherited memberText data
        (present [findCol keys ["execution status"; "execution"];
                  findCol keys ["sector"]]).
Proof.
  unfold workOrdersAggregates.
  rewrite present_sections; cbn [fold_right].
  repeat (apply andThen_thrown; [apply groupSection_thrown | intros ?]).
  split; [discriminate | intros (col & row & [] & _)].
Qed.

Lemma thrown_or_returned {A : Type} (x : outcome A) :
  x <> Thrown TypeError -> exists a, x = Returned a.
Proof. destruct x as [a|[]]; [eauto | contradiction]. Qed.

(** X19.  [dataToContext] throws exactly when a record has, in one of the
    columns the summary of its board groups by, a grouping key that names a
    member inherited from [Object.prototype]; otherwise it returns a text.
    The columns are those [findCol] finds: status, sector, stage, owner and
    probability for a deals board (a key of the first record contains
    "deal" or "closure"), execution status and sector for a work-orders
    board (none does, and one contains "execution", "billed" or "serial");
    a generic board and a board without records are grouped by nothing. *)
Theorem context_throws_on_inherited_keys memberText localeCompare board :
  let keys := allKeysOf (data board) in
  let cols :=
    if existsb dealKey keys
    then present [findCol keys ["deal status"; "status"];
                  findCol keys ["sector"];
                  findCol keys ["deal stage"; "stage"];
                  findCol keys ["owner"];
                  findCol keys ["probability"; "closure prob"]]
    else if existsb workOrderKey keys
         then present [findCol keys ["execution status"; "execution"];
                       findCol keys ["sector"]]
         else [] in
  (dataToContext memberText localeCompare board = Thrown TypeError
   <-> exists col row,
         In col cols /\ In row (data board)
         /\ JsObject.inherited (groupKey memberText row col) = true)
  /\ ((forall col row,
         In col cols -> In row (data board) ->
         JsObject.inherited (groupKey memberText row col) = false) ->
      exists text, dataToContext memberText localeCompare board = Returned text).
Proof.
  intros keys cols.
  assert (Hiff : dataToContext memberText localeCompare board = Thrown TypeError
                 <-> meetsInherited memberText (data board) cols).
  { subst cols keys; unfold dataToContext.
    destruct (data board) as [|first rest] eqn:Hdata.
    - simpl; split; [discriminate | intros (col & row & [] & _)].
    - rewrite boardKindOf_spec.
      set (rows := first :: rest); set (keys := allKeysOf rows).
      destruct (existsb dealKey keys).
      + unfold buildDealsSummary.
        rewrite <- dealsAggregates_thrown with (localeCompare := localeCompare).
        destruct (dealsAggregates memberText localeCompare rows keys)
          as [t|[]]; simpl; split; auto; discriminate.
      + destruct (existsb workOrderKey keys).
        * unfold buildWorkOrdersSummary.
          rewrite <- workOrdersAggregates_thrown.
          destruct (workOrdersAggregates memberText rows keys)
            as [t|[]]; simpl; split; auto; discriminate.
        * simpl; split; [discriminate | intros (col & row & [] & _)]. }
  split; [exact Hiff|].
  intros Hall; apply thrown_or_returned; intros H.
  apply Hiff in H; destruct H as (col & row & Hc & Hr & Hi).
  rewrite (Hall col row Hc Hr) in Hi; discriminate.
Qed.

(** A deals board with a deal of the sector ["constructor"]: no text is
    written.  Without that deal the text is written. *)
Lemma context_throws_on_inherited_keys_witness :
  dataToContext Samples.v8Text Samples.codeOrder MoreSamples.constructorBoard
  = Thrown TypeError
  /\ exists text,
       dataToContext Samples.v8Text Samples.codeOrder MoreSamples.workOrdersBoard
       = Returned text.
Proof.
  split.
  - apply (proj1 (context_throws_on_inherited_keys Samples.v8Text
                    Samples.codeOrder MoreSamples.constructorBoard)).
    exists "Sector", (nth 1 (data MoreSamples.constructorBoard) []).
    vm_compute; auto.
  - apply (proj2 (context_throws_on_inherited_keys Samples.v8Text
                    Samples.codeOrder MoreSamples.workOrdersBoard)).
    intros col row Hc [<- | []].
    vm_compute in Hc; destruct Hc as [<- | []]; reflexivity.
Defined.

(** A work order that has the name of its deal among its columns is
    summarised as a deal. *)
Example work_order_with_a_deal_name :
  existsb workOrderKey (allKeysOf (data MoreSamples.workOrdersBoard)) = true
  /\ boardKindOf (allKeysOf (data MoreSamples.workOrdersBoard)) = Deals.
Proof. vm_compute; auto. Qed.

(** * Properties of the board client *)

Module MondayFacts.
Import Monday.

Lemma nextPages_all pages : forall first acc extra,
  pagesOfBoard first pages = true ->
  nextPages (map answer pages ++ extra) (page_cursor first) acc
  = Done (acc ++ flat_map page_items pages)%list.
Proof.
  induction pages as [|next rest IH]; intros first acc extra H; simpl in H.
  - destruct extra; simpl; destruct (more (page_cursor first));
      try discriminate; now rewrite app_nil_r.
  - simpl; destruct (more (page_cursor first)); [|discriminate].
    rewrite (IH next _ extra H), app_assoc; reflexivity.
Qed.

Lemma nextPages_failed pages : forall first acc r message rest,
  pagesGoOn first pages = true ->
  query r = Raised message ->
  nextPages (map answer pages ++ r :: rest) (page_cursor first) acc
  = Failed message.
Proof.
  induction pages as [|next others IH]; intros first acc r message rest H Hr;
    simpl in H; simpl; destruct (more (page_cursor first));
    try discriminate.
  - now rewrite Hr.
  - now apply IH.
Qed.

End MondayFacts.

(** X22.  When the server answers with the pages of the board one after the
    other, [fetchBoardData] returns the name and the columns of the board
    with the items of all the pages, in the order of the pages; it asks for
    no page after the one without a cursor. *)
Theorem every_page_is_fetched boardId board others pages extra :
  Monday.pagesOfBoard (Monday.board_items_page board) pages = true ->
  Monday.fetchBoardData boardId (Monday.answer (board :: others))
    (map Monday.answer pages ++ extra)
  = Monday.Done
      {| bd_name := Some (Monday.board_name board);
         bd_columns := Some (Monday.board_columns board);
         bd_items :=
           Some (flat_map Monday.page_items
                   (Monday.board_items_page board :: pages)) |}.
Proof.
  intros H; unfold Monday.fetchBoardData; simpl.
  now rewrite (MondayFacts.nextPages_all pages _ _ extra H).
Qed.

Lemma every_page_is_fetched_witness :
  Monday.fetchBoardData "42" (Monday.answer [MoreSamples.pagedBoard])
    (map Monday.answer
       [MoreSamples.pageOf (Some "p3") "2"; MoreSamples.pageOf None "3"]
     ++ [Monday.Rejected "not asked"])
  = Monday.Done
      {| bd_name := Some (Monday.board_name MoreSamples.pagedBoard);
         bd_columns := Some (Monday.board_columns MoreSamples.pagedBoard);
         bd_items :=
           Some (flat_map Monday.page_items
                   (Monday.board_items_page MoreSamples.pagedBoard
                    :: [MoreSamples.pageOf (Some "p3") "2";
                        MoreSamples.pageOf None "3"])) |}.
Proof.
  apply (every_page_is_fetched "42" MoreSamples.pagedBoard []
           [MoreSamples.pageOf (Some "p3") "2"; MoreSamples.pageOf None "3"]
           [Monday.Rejected "not asked"]).
  reflexivity.
Defined.

(** X23.  A request for a further page that fails fails the whole fetch,
    with the message [query] gives the failure: the items of the pages read
    before are not returned. *)
Theorem failed_page_fails_the_fetch boardId board others pages r message rest :
  Monday.pagesGoOn (Monday.board_items_page board) pages = true ->
  Monday.query r = Monday.Raised message ->
  Monday.fetchBoardData boardId (Monday.answer (board :: others))
    (map Monday.answer pages ++ r :: rest)
  = Monday.Failed message.
Proof.
  intros H Hr; unfold Monday.fetchBoardData; simpl.
  now rewrite (MondayFacts.nextPages_failed pages _ _ r message rest H Hr).
Qed.

Lemma failed_page_fails_the_fetch_witness :
  Monday.fetchBoardData "42" (Monday.answer [MoreSamples.pagedBoard])
    (map Monday.answer [MoreSamples.pageOf (Some "p3") "2"]
     ++ Monday.NotOk 429 "Too many requests" :: [])
  = Monday.Failed "Monday.com API error (429): Too many requests".
Proof.
  apply (failed_page_fails_the_fetch "42" MoreSamples.pagedBoard []
           [MoreSamples.pageOf (Some "p3") "2"]
           (Monday.NotOk 429 "Too many requests")
           "Monday.com API error (429): Too many requests" []);
    reflexivity.
Defined.
